(** * NutShell: the NUT protocol client (pkg/nut), embedded in Rocq

    The development follows the two Go files of package [nut]:
    the client (connection, codec, session, discovery) and [ups.go]
    (device bootstrap, variable fetch, derived readings, poller).

    Go strings are byte strings and are modelled by [string] (a list of
    [ascii] bytes).  The functions of the Go standard library that the
    package calls are modelled first, each under the name of its Go
    package. *)

From Stdlib Require Import ZArith Lia List Bool Ascii String DecimalString.
From Stdlib Require DecimalPos.
From stdpp Require Import base option gmap strings.
Import ListNotations.

Local Open Scope string_scope.
Local Open Scope Z_scope.

(** ** Bytes *)

Definition nl : ascii := "010"%char.        (* '\n' *)
Definition dquote : ascii := "034"%char.    (* the double quote *)
Definition NL : string := String nl "".
Definition DQUOTE : string := String dquote "".

Definition byte (c : ascii) : Z := Z.of_N (N_of_ascii c).

(** len, s[n:] and s[:n] on Go strings. *)
Definition len (s : string) : nat := String.length s.

Fixpoint drop_bytes (n : nat) (s : string) : string :=
  match n, s with
  | O, _ => s
  | S n', String _ s' => drop_bytes n' s'
  | S _, EmptyString => EmptyString
  end.

Fixpoint take_bytes (n : nat) (s : string) : string :=
  match n, s with
  | O, _ => EmptyString
  | S n', String c s' => String c (take_bytes n' s')
  | S _, EmptyString => EmptyString
  end.

(** ** Package [unicode]: the White_Space runes, as UTF-8 byte sequences

    [unicode.IsSpace] holds of U+0009..U+000D, U+0020, U+0085, U+00A0,
    U+1680, U+2000..U+200A, U+2028, U+2029, U+202F, U+205F and U+3000.
    Each is a valid UTF-8 sequence that starts with a leading byte, so a
    rune-by-rune scan finds a space exactly where one of these sequences
    starts (an invalid byte decodes to U+FFFD with width 1, a valid rune
    only swallows continuation bytes). [spaceWidth s] is the width of the
    space rune that [s] starts with, or 0. *)

Definition asciiSpace (c : ascii) : bool :=
  let x := byte c in ((9 <=? x) && (x <=? 13)) || (x =? 32).

Definition spaceWidth (s : string) : nat :=
  match s with
  | EmptyString => O
  | String a r =>
    if asciiSpace a then 1%nat else
    match r with
    | EmptyString => O
    | String b r2 =>
      let x := byte a in
      let y := byte b in
      if (x =? 194) && ((y =? 133) || (y =? 160)) then 2%nat else
      match r2 with
      | EmptyString => O
      | String c _ =>
        let z := byte c in
        if ((x =? 225) && (y =? 154) && (z =? 128))
           || ((x =? 226) && (y =? 128)
               && (((128 <=? z) && (z <=? 138)) || (z =? 168) || (z =? 169) || (z =? 175)))
           || ((x =? 226) && (y =? 129) && (z =? 159))
           || ((x =? 227) && (y =? 128) && (z =? 128))
        then 3%nat else O
      end
    end
  end.

(** ** Package [strings] *)

Module strings.

Definition HasPrefix (s prefix : string) : bool := String.prefix prefix s.

Definition HasSuffix (s suffix : string) : bool :=
  (len suffix <=? len s)%nat
  && String.eqb (drop_bytes (len s - len suffix) s) suffix.

Definition TrimPrefix (s prefix : string) : string :=
  if HasPrefix s prefix then drop_bytes (len prefix) s else s.

Definition TrimSuffix (s suffix : string) : string :=
  if HasSuffix s suffix then take_bytes (len s - len suffix) s else s.

Fixpoint Contains (s substr : string) : bool :=
  String.prefix substr s
  || match s with
     | EmptyString => false
     | String _ s' => Contains s' substr
     end.

(** [splitn k s sep]: cut [s] at the first [k] occurrences of the byte
    [sep]; the last piece is the unsplit remainder. *)
Fixpoint splitn (k : nat) (s : string) (sep : ascii) : list string :=
  match s with
  | EmptyString => [EmptyString]
  | String c s' =>
    match k with
    | O => [s]
    | S k' =>
      if Ascii.eqb c sep then EmptyString :: splitn k' s' sep
      else match splitn k s' sep with
           | h :: t => String c h :: t
           | [] => [String c EmptyString]
           end
    end
  end.

(** [strings.Split(s, sep)] and [strings.SplitN(s, sep, n)]; every call
    site in the package passes a one-byte separator. *)
Definition Split (s : string) (sep : ascii) : list string :=
  splitn (len s) s sep.

Definition SplitN (s : string) (sep : ascii) (n : Z) : list string :=
  if n =? 0 then []
  else if n <? 0 then Split s sep
  else splitn (Z.to_nat (n - 1)) s sep.

(** [strings.Replace(s, old, new, -1)] for a one-byte [old]. *)
Fixpoint Replace (s : string) (old : ascii) (new : string) : string :=
  match s with
  | EmptyString => EmptyString
  | String c s' =>
    if Ascii.eqb c old then new ++ Replace s' old new
    else String c (Replace s' old new)
  end.

Definition Join (elems : list string) (sep : string) : string :=
  String.concat sep elems.

(** [strings.ToLower] on ASCII letters. The package applies it to the
    entries of the status table only, which are ASCII. *)
Definition lowerByte (c : ascii) : ascii :=
  let x := byte c in
  if (65 <=? x) && (x <=? 90) then ascii_of_N (Z.to_N (x + 32)) else c.

Fixpoint ToLower (s : string) : string :=
  match s with
  | EmptyString => EmptyString
  | String c s' => String (lowerByte c) (ToLower s')
  end.

(** [strings.Fields]: the maximal runs of bytes between white space.
    [fields skip s] returns the field that is open at the start of [s]
    (empty if none) and the fields after it; [skip] counts the bytes of
    a multi-byte space rune still to be passed. *)
Definition consField (w : string) (fs : list string) : list string :=
  if String.eqb w EmptyString then fs else w :: fs.

Fixpoint fields (skip : nat) (s : string) : string * list string :=
  match s with
  | EmptyString => (EmptyString, [])
  | String c s' =>
    match skip with
    | S k => let '(w, fs) := fields k s' in (EmptyString, consField w fs)
    | O =>
      match spaceWidth s with
      | O => let '(w, fs) := fields O s' in (String c w, fs)
      | S k => let '(w, fs) := fields k s' in (EmptyString, consField w fs)
      end
    end
  end.

Definition Fields (s : string) : list string :=
  let '(w, fs) := fields O s in consField w fs.

(** [strings.TrimSpace]: strip the leading and the trailing space runes. *)
Fixpoint trimLeft (skip : nat) (s : string) : string :=
  match s with
  | EmptyString => EmptyString
  | String _ s' =>
    match skip with
    | S k => trimLeft k s'
    | O =>
      match spaceWidth s with
      | O => s
      | S k => trimLeft k s'
      end
    end
  end.

Definition allSpace (s : string) : bool :=
  String.eqb (trimLeft O s) EmptyString.

Fixpoint trimRight (s : string) : string :=
  match s with
  | EmptyString => EmptyString
  | String c s' => if allSpace s then EmptyString else String c (trimRight s')
  end.

Definition TrimSpace (s : string) : string := trimRight (trimLeft O s).

End strings.

(** ** Package [strconv] *)

Module strconv.

Definition isDigit (c : ascii) : bool :=
  let x := byte c in (48 <=? x) && (x <=? 57).

(** The value of a run of decimal digits; [None] at a byte that is not
    a digit. *)
Fixpoint digitsValue (acc : Z) (s : string) : option Z :=
  match s with
  | EmptyString => Some acc
  | String c s' =>
    if isDigit c then digitsValue (acc * 10 + (byte c - 48)) s' else None
  end.

Definition parseDigits (s : string) : option Z :=
  match s with
  | EmptyString => None
  | _ => digitsValue 0 s
  end.

(** An optional sign, as [ParseInt] and [ParseFloat] read it. *)
Definition splitSign (s : string) : bool * string :=
  match s with
  | String c s' =>
    if Ascii.eqb c "-"%char then (true, s')
    else if Ascii.eqb c "+"%char then (false, s')
    else (false, s)
  | EmptyString => (false, s)
  end.

(** [strconv.ParseInt(s, 10, 64)]: [None] stands for [err != nil]
    (syntax error, or a value outside int64). *)
Definition ParseInt (s : string) : option Z :=
  let '(neg, body) := splitSign s in
  match parseDigits body with
  | None => None
  | Some un =>
    if neg then (if un <=? 2 ^ 63 then Some (- un) else None)
    else (if un <? 2 ^ 63 then Some un else None)
  end.

(** [strconv.Atoi]: [int] has 64 bits. *)
Definition Atoi (s : string) : option Z := ParseInt s.

(** [strconv.FormatInt(i, 10)]. *)
Definition FormatInt (i : Z) : string := NilZero.string_of_int (Z.to_int i).

(** A parsed decimal literal [sign mant / 10 ^ scale]. It stands for the
    float64 that [ParseFloat] returns; the rounding to binary64 is not
    modelled, no statement below depends on the bits of a float. *)
Record float64 : Type := mkFloat { fneg : bool; fmant : Z; fscale : nat }.

Fixpoint splitDot (s : string) : option (string * string) :=
  match s with
  | EmptyString => None
  | String c s' =>
    if Ascii.eqb c "."%char then Some (EmptyString, s')
    else match splitDot s' with
         | Some (a, b) => Some (String c a, b)
         | None => None
         end
  end.

(** [ParseFloat] reports a range error when the literal rounds to
    infinity, that is from [2^1024 - 2^970] (half an ulp above the
    largest float64) on. *)
Definition overflows (mant : Z) (scale : nat) : bool :=
  (2 ^ 1024 - 2 ^ 970) * 10 ^ Z.of_nat scale <=? mant.

(** [strconv.ParseFloat(s, 64)] on literals [sign digits . digits] with
    a digit on one side of the dot at least. The package passes no other
    literal to it (the caller has matched the numeric pattern and found
    a dot), exponents and the special values are left out; [None] stands
    for [err != nil]. *)
Definition ParseFloat (s : string) : option float64 :=
  let '(neg, body) := splitSign s in
  match splitDot body with
  | None => None
  | Some (ip, fp) =>
    match parseDigits (ip ++ fp) with
    | Some m =>
      if overflows m (len fp) then None
      else Some (mkFloat neg m (len fp))
    | None => None
    end
  end.

End strconv.

(** ** Package [regexp]: the one pattern the package matches *)

Module regexp.

Fixpoint allDigits (s : string) : bool :=
  match s with
  | EmptyString => true
  | String c s' => strconv.isDigit c && allDigits s'
  end.

(** [\d+] against the whole of [s]. *)
Definition digits1 (s : string) : bool :=
  negb (String.eqb s EmptyString) && allDigits s.

(** [-?]: a leading minus is consumed (a digit cannot match it). *)
Definition optMinus (s : string) : string :=
  match s with
  | String c s' => if Ascii.eqb c "-"%char then s' else s
  | EmptyString => s
  end.

(** The longest run of leading digits and what follows it. *)
Fixpoint spanDigits (s : string) : string * string :=
  match s with
  | EmptyString => (EmptyString, EmptyString)
  | String c s' =>
    if strconv.isDigit c
    then let '(d, r) := spanDigits s' in (String c d, r)
    else (EmptyString, s)
  end.

(** [regexp.MatchString(`^-?\d+(\.\d+)?$`, s)]. *)
Definition MatchString (s : string) : bool :=
  let '(d, r) := spanDigits (optMinus s) in
  negb (String.eqb d EmptyString)
  && match r with
     | EmptyString => true
     | String c r' => Ascii.eqb c "."%char && digits1 r'
     end.

End regexp.

(** ** Package [crypto/md5] (RFC 1321), on 32-bit words held in [Z] *)

Module md5.

Definition w32 (x : Z) : Z := x mod 2 ^ 32.
Definition add32 (a b : Z) : Z := w32 (a + b).
Definition not32 (x : Z) : Z := Z.lxor x (2 ^ 32 - 1).
Definition rotl32 (x n : Z) : Z :=
  Z.lor (w32 (Z.shiftl x n)) (Z.shiftr x (32 - n)).

Definition K : list Z :=
  [ 3614090360; 3905402710; 606105819; 3250441966;
    4118548399; 1200080426; 2821735955; 4249261313;
    1770035416; 2336552879; 4294925233; 2304563134;
    1804603682; 4254626195; 2792965006; 1236535329;
    4129170786; 3225465664; 643717713; 3921069994;
    3593408605; 38016083; 3634488961; 3889429448;
    568446438; 3275163606; 4107603335; 1163531501;
    2850285829; 4243563512; 1735328473; 2368359562;
    4294588738; 2272392833; 1839030562; 4259657740;
    2763975236; 1272893353; 4139469664; 3200236656;
    681279174; 3936430074; 3572445317; 76029189;
    3654602809; 3873151461; 530742520; 3299628645;
    4096336452; 1126891415; 2878612391; 4237533241;
    1700485571; 2399980690; 4293915773; 2240044497;
    1873313359; 4264355552; 2734768916; 1309151649;
    4149444226; 3174756917; 718787259; 3951481745 ].

Definition shifts : list Z :=
  [ 7; 12; 17; 22; 7; 12; 17; 22; 7; 12; 17; 22; 7; 12; 17; 22;
    5; 9; 14; 20; 5; 9; 14; 20; 5; 9; 14; 20; 5; 9; 14; 20;
    4; 11; 16; 23; 4; 11; 16; 23; 4; 11; 16; 23; 4; 11; 16; 23;
    6; 10; 15; 21; 6; 10; 15; 21; 6; 10; 15; 21; 6; 10; 15; 21 ].

Definition digest : Type := Z * Z * Z * Z.

Definition init : digest := (1732584193, 4023233417, 2562383102, 271733878).

(** Little-endian words. *)
Fixpoint words (bs : list Z) : list Z :=
  match bs with
  | b0 :: b1 :: b2 :: b3 :: r =>
    (b0 + 256 * b1 + 65536 * b2 + 16777216 * b3) :: words r
  | _ => []
  end.

Definition bytesLE (n : nat) (x : Z) : list Z :=
  map (fun i => Z.shiftr x (8 * Z.of_nat i) mod 256) (seq 0 n).

Definition pad (msg : list Z) : list Z :=
  let n := Z.of_nat (length msg) in
  msg ++ [128] ++ repeat 0 (Z.to_nat ((55 - n) mod 64)) ++ bytesLE 8 (8 * n).

Definition step (m : list Z) (st : digest) (i : nat) : digest :=
  let '(a, b, c, d) := st in
  let iz := Z.of_nat i in
  let '(f, g) :=
    if iz <? 16 then (Z.lor (Z.land b c) (Z.land (not32 b) d), iz)
    else if iz <? 32 then
      (Z.lor (Z.land d b) (Z.land (not32 d) c), (5 * iz + 1) mod 16)
    else if iz <? 48 then (Z.lxor (Z.lxor b c) d, (3 * iz + 5) mod 16)
    else (Z.lxor c (Z.lor b (not32 d)), (7 * iz) mod 16) in
  let f' := add32 (add32 (add32 f a) (nth i K 0)) (nth (Z.to_nat g) m 0) in
  (d, add32 b (rotl32 f' (nth i shifts 0)), b, c).

Definition block (st : digest) (m : list Z) : digest :=
  let '(a0, b0, c0, d0) := st in
  let '(a, b, c, d) := fold_left (step m) (seq 0 64) st in
  (add32 a0 a, add32 b0 b, add32 c0 c, add32 d0 d).

(** The message words, sixteen to a block. *)
Fixpoint blocks (n : nat) (ws : list Z) : list (list Z) :=
  match n with
  | O => []
  | S n' => firstn 16 ws :: blocks n' (skipn 16 ws)
  end.

(** [md5.Sum]: the sixteen bytes of the digest. *)
Definition Sum (msg : list Z) : list Z :=
  let ws := words (pad msg) in
  let '(a, b, c, d) := fold_left block (blocks (length ws / 16) ws) init in
  bytesLE 4 a ++ bytesLE 4 b ++ bytesLE 4 c ++ bytesLE 4 d.

End md5.

(** ** Package [encoding/base64]: [URLEncoding], with padding *)

Module base64.

Definition encodeURL : string :=
  "ABCDEFGHIJKLMNOPQRSTUVWXYZabcdefghijklmnopqrstuvwxyz0123456789-_".

Definition sextet (x : Z) : ascii :=
  match String.get (Z.to_nat (x mod 64)) encodeURL with
  | Some c => c
  | None => "="%char
  end.

Fixpoint EncodeToString (src : list Z) : string :=
  match src with
  | [] => EmptyString
  | [b0] =>
    String (sextet (b0 / 4))
      (String (sextet (b0 mod 4 * 16)) "==")
  | [b0; b1] =>
    String (sextet (b0 / 4))
      (String (sextet (b0 mod 4 * 16 + b1 / 16))
         (String (sextet (b1 mod 16 * 4)) "="))
  | b0 :: b1 :: b2 :: r =>
    String (sextet (b0 / 4))
      (String (sextet (b0 mod 4 * 16 + b1 / 16))
         (String (sextet (b1 mod 16 * 4 + b2 / 64))
            (String (sextet (b2 mod 64)) (EncodeToString r))))
  end.

End base64.

(** [[]byte(s)] *)
Definition bytesOf (s : string) : list Z := map byte (list_ascii_of_string s).

(** * Package [nut] *)

(** ** Errors, values, records *)

(** A Go [error], by the call of [fmt.Errorf] that built it:
    [errorString msg] for a constant format, named by its text before the
    colon; [wrapError msg err] for a format that ends in [%s] or [%v] of
    the error [err]; [formatError format] for [fmt.Errorf(format)] where
    the format is a value of the program and there is no operand (the
    message is the format itself when it holds no [%]). *)
Inductive error : Type :=
| errorString (msg : string)
| wrapError (msg : string) (err : error)
| formatError (format : string).

(** The result of a Go function that returns [(value, error)]: callers
    never look at the value when the error is not nil. *)
Inductive result (A : Type) : Type :=
| Ok (a : A)
| Err (e : error).
Arguments Ok {A} a.
Arguments Err {A} e.

(** The dynamic type of [Variable.Value] (Go [any]); a nil interface is
    [None] of [option any]. *)
Inductive any : Type :=
| VString (s : string)
| VInt64 (i : Z)
| VFloat64 (f : strconv.float64)
| VBool (b : bool).

(** [type Variable struct]; the field [Type] is [Type_] here. *)
Record Var : Type := mkVar {
  vName : string;
  vValue : any;
  Type_ : string;
  vDescription : string;
  Writeable : bool;
  MaximumLength : Z;
  OriginalType : string
}.

Record Command : Type := mkCommand {
  cName : string;
  cDescription : string
}.

(** [type UPS struct], without the [Client] pointer: the one client of a
    session is part of the state every method runs in. *)
Record UPS : Type := mkUPS {
  Server : string;
  PoolInterval : Z;
  ID : string;
  Name : string;
  Description : string;
  Manufacturer : string;
  Model : string;
  VendorID : string;
  ProductID : string;
  Clients : list string;
  Variables : list Var;
  Commands : list Command
}.

(** A TCP connection as the client sees it: [rd] is what the peer will
    still deliver (a read past its end fails: end of stream or the read
    deadline), [wr] is the number of writes the connection still accepts,
    [closed] is set by [Close]. *)
Record Conn : Type := mkConn {
  rd : string;
  wr : nat;
  closed : bool;
  remote : string
}.

(** [type Client struct]; the field [list] is [list_] here. *)
Record Client : Type := mkClient {
  Version : string;
  ProtocolVersion : string;
  Hostname : string;
  conn : option Conn;
  list_ : gmap string UPS;
  hostname : string;
  port : string;
  username : string;
  password : string;
  poolInterval : Z
}.

(** What the network answers to the next [ResolveTCPAddr]/[DialTCP]. *)
Inductive DialResult : Type :=
| ResolveError
| DialError
| Connected (k : Conn).

(** The observable actions of the package, in the order they happen. *)
Inductive Event : Type :=
| EvWrite (data : string)       (* fmt.Fprint(c.conn, data) *)
| EvClose                       (* c.conn.Close() *)
| EvResolve (addr : string)     (* net.ResolveTCPAddr("tcp", addr) *)
| EvDial                        (* net.DialTCP *)
| EvLog (format : string).      (* log.Printf(format, ...) *)

Record State : Type := mkState {
  client : Client;
  dials : list DialResult;
  trace : list Event
}.

(** ** The state monad of the package, with panics *)

Inductive Run (A : Type) : Type :=
| Done (a : A) (s : State)
| Crash (panic : string).
Arguments Done {A} a s.
Arguments Crash {A} panic.

Definition M (A : Type) : Type := State -> Run A.

Definition ret {A} (a : A) : M A := fun s => Done a s.

Definition bind {A B} (m : M A) (f : A -> M B) : M B :=
  fun s => match m s with
           | Done a s' => f a s'
           | Crash p => Crash p
           end.

Definition panic {A} (msg : string) : M A := fun _ => Crash msg.

Notation "'let*' p ':=' c1 'in' c2" := (bind c1 (fun p => c2))
  (at level 10, p pattern, c1 at level 100, c2 at level 200).

Definition getClient : M Client := fun s => Done (client s) s.

Definition modifyClient (f : Client -> Client) : M unit :=
  fun s => Done tt (mkState (f (client s)) (dials s) (trace s)).

Definition emit (e : Event) : M unit :=
  fun s => Done tt (mkState (client s) (dials s) (trace s ++ [e])%list).

(** [l[i]]: panics out of range. *)
Definition index {A} (l : list A) (i : nat) : M A :=
  match nth_error l i with
  | Some x => ret x
  | None => panic "index out of range"
  end.

(** [resp[1 : len(resp)-1]]: panics unless [len(resp) >= 2]. *)
Definition interior {A} (resp : list A) : M (list A) :=
  if (length resp <? 2)%nat then panic "slice bounds out of range"
  else ret (removelast (tl resp)).

(** Field updates. *)
Definition setConn (k : option Conn) (c : Client) : Client :=
  mkClient (Version c) (ProtocolVersion c) (Hostname c) k (list_ c)
           (hostname c) (port c) (username c) (password c) (poolInterval c).
Definition setHostname (h : string) (c : Client) : Client :=
  mkClient (Version c) (ProtocolVersion c) h (conn c) (list_ c)
           (hostname c) (port c) (username c) (password c) (poolInterval c).
Definition setVersion (v : string) (c : Client) : Client :=
  mkClient v (ProtocolVersion c) (Hostname c) (conn c) (list_ c)
           (hostname c) (port c) (username c) (password c) (poolInterval c).
Definition setProtocolVersion (v : string) (c : Client) : Client :=
  mkClient (Version c) v (Hostname c) (conn c) (list_ c)
           (hostname c) (port c) (username c) (password c) (poolInterval c).
Definition setList (l : gmap string UPS) (c : Client) : Client :=
  mkClient (Version c) (ProtocolVersion c) (Hostname c) (conn c) l
           (hostname c) (port c) (username c) (password c) (poolInterval c).

Definition setID (x : string) (u : UPS) : UPS :=
  mkUPS (Server u) (PoolInterval u) x (Name u) (Description u) (Manufacturer u)
        (Model u) (VendorID u) (ProductID u) (Clients u) (Variables u) (Commands u).
Definition setDescription (x : string) (u : UPS) : UPS :=
  mkUPS (Server u) (PoolInterval u) (ID u) (Name u) x (Manufacturer u)
        (Model u) (VendorID u) (ProductID u) (Clients u) (Variables u) (Commands u).
Definition setManufacturer (x : string) (u : UPS) : UPS :=
  mkUPS (Server u) (PoolInterval u) (ID u) (Name u) (Description u) x
        (Model u) (VendorID u) (ProductID u) (Clients u) (Variables u) (Commands u).
Definition setModel (x : string) (u : UPS) : UPS :=
  mkUPS (Server u) (PoolInterval u) (ID u) (Name u) (Description u) (Manufacturer u)
        x (VendorID u) (ProductID u) (Clients u) (Variables u) (Commands u).
Definition setVendorID (x : string) (u : UPS) : UPS :=
  mkUPS (Server u) (PoolInterval u) (ID u) (Name u) (Description u) (Manufacturer u)
        (Model u) x (ProductID u) (Clients u) (Variables u) (Commands u).
Definition setProductID (x : string) (u : UPS) : UPS :=
  mkUPS (Server u) (PoolInterval u) (ID u) (Name u) (Description u) (Manufacturer u)
        (Model u) (VendorID u) x (Clients u) (Variables u) (Commands u).
Definition setClients (x : list string) (u : UPS) : UPS :=
  mkUPS (Server u) (PoolInterval u) (ID u) (Name u) (Description u) (Manufacturer u)
        (Model u) (VendorID u) (ProductID u) x (Variables u) (Commands u).
Definition setVariables (x : list Var) (u : UPS) : UPS :=
  mkUPS (Server u) (PoolInterval u) (ID u) (Name u) (Description u) (Manufacturer u)
        (Model u) (VendorID u) (ProductID u) (Clients u) x (Commands u).
Definition setCommands (x : list Command) (u : UPS) : UPS :=
  mkUPS (Server u) (PoolInterval u) (ID u) (Name u) (Description u) (Manufacturer u)
        (Model u) (VendorID u) (ProductID u) (Clients u) (Variables u) x.

(** ** The client: codec *)

(** [bufio.Reader.ReadString(delim)] on the bytes still to come: the bytes
    up to and including the first [delim], and the rest; [None] when the
    stream ends first (the read returns an error). The reader is created
    by each [readResponse] and dropped when it returns; the model lets it
    consume what it returns and no more, as when the peer sends each reply
    after the command it answers. *)
Fixpoint ReadString (delim : ascii) (s : string) : option (string * string) :=
  match s with
  | EmptyString => None
  | String c s' =>
    if Ascii.eqb c delim then Some (String c EmptyString, s')
    else match ReadString delim s' with
         | Some (line, rest) => Some (String c line, rest)
         | None => None
         end
  end.

Definition readError : error :=
  wrapError "error reading response" (errorString "read").

(** The [for] loop of [readResponse] over the stream: the result and the
    stream left. Every turn consumes a byte at least, [fuel] bounds the
    turns; the outer [None] is the fuel running out. *)
Fixpoint readLoop (fuel : nat) (endLine : string) (multiLineResponse : bool)
    (response : list string) (stream : string)
    : option (result (list string) * string) :=
  match fuel with
  | O => None
  | S fuel' =>
    match ReadString nl stream with
    | None => Some (Err readError, EmptyString)
    | Some (line, rest) =>
      if (0 <? len line)%nat then
        let cleanLine := strings.TrimSuffix line NL in
        let lines := strings.Split cleanLine nl in
        let response := (response ++ lines)%list in
        if String.eqb line endLine || negb multiLineResponse
        then Some (Ok response, rest)
        else readLoop fuel' endLine multiLineResponse response rest
      else readLoop fuel' endLine multiLineResponse response rest
    end
  end.

Definition setRd (r : string) (k : Conn) : Conn :=
  mkConn r (wr k) (closed k) (remote k).

(** [readResponse] (client file, lines 199-220). The read deadline of five
    seconds is the end of [rd]: a read past it fails. The fuel is more
    than the loop can use (lemma [readLoop_total]), its last case does not
    arise. *)
Definition readResponse (endLine : string) (multiLineResponse : bool)
    : M (result (list string)) :=
  fun s =>
    match conn (client s) with
    | None => Done (Err readError) s
    | Some k =>
      if closed k then Done (Err readError) s
      else
        match readLoop (S (len (rd k))) endLine multiLineResponse [] (rd k) with
        | Some (r, rest) =>
          Done r (mkState (setConn (Some (setRd rest k)) (client s))
                          (dials s) (trace s))
        | None => Done (Err readError) s
        end
    end.

(** [fmt.Fprint(c.conn, data)]: [None] is a nil error. *)
Definition Fprint (data : string) : M (option error) :=
  let* _ := emit (EvWrite data) in
  fun s =>
    match conn (client s) with
    | None => Done (Some (errorString "write")) s
    | Some k =>
      if negb (closed k) && (0 <? wr k)%nat then
        Done None (mkState (setConn (Some (mkConn (rd k) (pred (wr k)) (closed k) (remote k)))
                                    (client s))
                           (dials s) (trace s))
      else Done (Some (errorString "write")) s
    end.

(** [sendCommand] (client file, lines 178-198). *)
Definition sendCommand (cmd : string) : M (result (list string)) :=
  let cmd := cmd ++ NL in
  let endLine := "END " ++ cmd in
  let endLine :=
    if strings.HasPrefix cmd "USERNAME " || strings.HasPrefix cmd "PASSWORD "
       || strings.HasPrefix cmd "SET " || strings.HasPrefix cmd "HELP "
       || strings.HasPrefix cmd "VER " || strings.HasPrefix cmd "NETVER "
    then "OK" ++ NL else endLine in
  let* w := Fprint cmd in
  match w with
  | Some err => ret (Err (wrapError "failed to send command" err))
  | None =>
    let* r := readResponse endLine (strings.HasPrefix cmd "LIST ") in
    match r with
    | Err err => ret (Err err)
    | Ok resp =>
      let* r0 := index resp 0 in
      if strings.HasPrefix r0 "ERR " then
        let* token := index (strings.Split r0 " "%char) 1 in
        ret (Err (formatError token))
      else ret (Ok resp)
    end
  end.

(** ** The client: session *)

(** [authenticate] (client file, lines 223-241). *)
Definition authenticate (username password : string) : M (result bool) :=
  let* r := sendCommand ("USERNAME " ++ username) in
  match r with
  | Err err => ret (Err (wrapError "failed to send USERNAME command" err))
  | Ok resp =>
    let* r0 := index resp 0 in
    if negb (String.eqb r0 "OK") then
      ret (Err (errorString "invalid response to USERNAME"))
    else
      let* r := sendCommand ("PASSWORD " ++ password) in
      match r with
      | Err err => ret (Err (wrapError "failed to send PASSWORD command" err))
      | Ok resp =>
        let* r0 := index resp 0 in
        if negb (String.eqb r0 "OK") then
          ret (Err (errorString "invalid response to PASSWORD"))
        else ret (Ok true)
      end
  end.

(** [getVersion] and [getNetworkProtocolVersion] (client file, lines
    269-284). *)
Definition getVersion : M (result string) :=
  let* r := sendCommand "VER" in
  match r with
  | Err err => ret (Err (wrapError "failed to get version" err))
  | Ok resp =>
    if (length resp <? 1)%nat
    then ret (Err (errorString "failed to get version"))
    else
      let* r0 := index resp 0 in
      let* _ := modifyClient (setVersion r0) in
      ret (Ok r0)
  end.

Definition getNetworkProtocolVersion : M (result string) :=
  let* r := sendCommand "NETVER" in
  match r with
  | Err err => ret (Err (wrapError "failed to get network protocol version" err))
  | Ok resp =>
    if (length resp <? 1)%nat
    then ret (Err (errorString "failed to get network protocol version"))
    else
      let* r0 := index resp 0 in
      let* _ := modifyClient (setProtocolVersion r0) in
      ret (Ok r0)
  end.

(** [net.ResolveTCPAddr] followed, when it succeeds, by [net.DialTCP]:
    the network's next answer. *)
Definition dial (addr : string) : M DialResult :=
  let* _ := emit (EvResolve addr) in
  let* d := (fun s =>
    match dials s with
    | [] => Done ResolveError s
    | d :: ds => Done d (mkState (client s) ds (trace s))
    end) in
  match d with
  | ResolveError => ret ResolveError
  | _ => let* _ := emit EvDial in ret d
  end.

(** [c.conn.Close()], its error dropped. *)
Definition closeConn : M unit :=
  let* c := getClient in
  match conn c with
  | Some k =>
    let* _ := emit EvClose in
    modifyClient (setConn (Some (mkConn (rd k) (wr k) true (remote k))))
  | None => ret tt
  end.

(** [Reconnect] (client file, lines 116-145); it returns an [error],
    [None] is nil. *)
Definition Reconnect : M (option error) :=
  let* _ := closeConn in
  let* c := getClient in
  let* d := dial (hostname c ++ ":" ++ port c) in
  match d with
  | ResolveError => ret (Some (errorString "failed to resolve TCP address"))
  | DialError => ret (Some (errorString "failed to reconnect to server"))
  | Connected k =>
    let* _ := modifyClient (setConn (Some k)) in
    let* _ := modifyClient (setHostname (remote k)) in
    let* a := authenticate (username c) (password c) in
    match a with
    | Err err => ret (Some (wrapError "failed to authenticate after reconnect" err))
    | Ok status =>
      if negb status then ret (Some (errorString "authentication failed after reconnect"))
      else
        let* v := getVersion in
        match v with
        | Err err => ret (Some (wrapError "failed to get version after reconnect" err))
        | Ok _ =>
          let* n := getNetworkProtocolVersion in
          match n with
          | Err err =>
            ret (Some (wrapError "failed to get network protocol version after reconnect" err))
          | Ok _ => ret None
          end
        end
    end
  end.

(** ** [ups.go]: the status table and the derived readings *)

(** [NUTStatusHumanReadable] (ups.go, lines 49-66). *)
Definition NUTStatusHumanReadable : gmap string string :=
  list_to_map
    [ ("OL", "Online");
      ("OB", "On Battery");
      ("LB", "Low Battery");
      ("RB", "Replace Battery");
      ("CHRG", "Charging");
      ("DISCHRG", "Discharging");
      ("BYPASS", "Bypass Active");
      ("CAL", "Calibrating");
      ("OFF", "Offline");
      ("OVER", "Overload");
      ("TRIM", "SmartTrim");
      ("BOOST", "SmartBoost");
      ("FSD", "Forced Shutdown");
      ("ALARM", "Alarm");
      ("TEST", "Self Test");
      ("COMM", "Communication Lost") ].

(** [GenerateID] (ups.go, lines 140-155). The slice [[:6]] is of a string
    of 24 characters. *)
Definition GenerateID (u : UPS) : string :=
  let input := bytesOf (Server u) in
  let input := if negb (String.eqb (Name u) "")
               then (input ++ bytesOf (Name u))%list else input in
  let input := if negb (String.eqb (ProductID u) "")
               then (input ++ bytesOf (ProductID u))%list else input in
  let input := if negb (String.eqb (VendorID u) "")
               then (input ++ bytesOf (VendorID u))%list else input in
  let hash := md5.Sum input in
  take_bytes 6 (base64.EncodeToString hash).

(** [getVariable]: the value of the first variable of that name, or nil. *)
Fixpoint lookupVariable (vars : list Var) (name : string) : option any :=
  match vars with
  | [] => None
  | variable :: rest =>
    if String.eqb (vName variable) name then Some (vValue variable)
    else lookupVariable rest name
  end.

Definition getVariable (u : UPS) (name : string) : option any :=
  lookupVariable (Variables u) name.

(** One turn of the loop of [GetStatus] over the codes. *)
Definition statusStep (descriptions : list string) (code : string) : list string :=
  match NUTStatusHumanReadable !! code with
  | Some desc =>
    let desc := if (0 <? length descriptions)%nat
                then strings.ToLower desc else desc in
    (descriptions ++ [desc])%list
  | None => (descriptions ++ ["Unknown"])%list
  end.

(** [GetStatus] (ups.go, lines 157-177). *)
Definition GetStatus (u : UPS) : string * string * option error :=
  let statusCode :=
    match getVariable u "ups.status" with
    | Some (VString value) => value
    | _ => ""
    end in
  let descriptions := fold_left statusStep (strings.Fields statusCode) [] in
  (strings.Join descriptions ", ", statusCode, None).

(** int64 arithmetic: a product wraps around, a quotient truncates. *)
Definition wrap64 (z : Z) : Z := (z + 2 ^ 63) mod 2 ^ 64 - 2 ^ 63.
Definition mul64 (a b : Z) : Z := wrap64 (a * b).
Definition div64 (a b : Z) : Z := wrap64 (Z.quot a b).

(** [GetLoad] (ups.go, lines 195-214). *)
Definition GetLoad (u : UPS) : Z * Z * option error :=
  let load :=
    match getVariable u "ups.load" with
    | Some (VInt64 value) => value
    | _ => 0
    end in
  let power :=
    match getVariable u "ups.realpower" with
    | Some (VInt64 value) => value
    | _ =>
      let power :=
        match getVariable u "ups.realpower.nominal" with
        | Some (VInt64 value) => value
        | _ =>
          match getVariable u "ups.power.nominal" with
          | Some (VInt64 value) => value
          | _ => 0
          end
        end in
      div64 (mul64 load power) 100
    end in
  (load, power, None).

(** ** [ups.go]: metadata and variables *)

(** [GetDescription], [GetClients], [GetCommands] (ups.go, lines 222-269):
    each returns the device as it has updated it. *)
Definition GetDescription (u : UPS) : M (UPS * result string) :=
  let* r := sendCommand ("GET UPSDESC " ++ Name u) in
  match r with
  | Err err => ret (u, Err (wrapError "failed to get UPS description" err))
  | Ok resp =>
    let* r0 := index resp 0 in
    let description :=
      strings.TrimPrefix (strings.Replace r0 dquote "")
                         ("UPSDESC " ++ Name u ++ " ") in
    ret (setDescription description u, Ok description)
  end.

Definition GetClients (u : UPS) : M (UPS * result (list string)) :=
  let* r := sendCommand ("LIST CLIENT " ++ Name u) in
  match r with
  | Err err => ret (u, Err (wrapError "failed to list clients" err))
  | Ok resp =>
    let linePrefix := "CLIENT " ++ Name u ++ " " in
    let* lines := interior resp in
    let clientsList := map (fun line => strings.TrimPrefix line linePrefix) lines in
    ret (setClients clientsList u, Ok clientsList)
  end.

(** [GetCommandDescription] (ups.go, lines 338-348). *)
Definition GetCommandDescription (u : UPS) (commandName : string) : M (result string) :=
  let* r := sendCommand ("GET CMDDESC " ++ Name u ++ " " ++ commandName) in
  match r with
  | Err err => ret (Err (wrapError "failed to get command description" err))
  | Ok resp =>
    let* r0 := index resp 0 in
    let trimmedLine :=
      strings.TrimPrefix r0 ("CMDDESC " ++ Name u ++ " " ++ commandName ++ " ") in
    ret (Ok (strings.Replace trimmedLine dquote ""))
  end.

Fixpoint commandsLoop (u : UPS) (linePrefix : string) (lines : list string)
    (commandsList : list Command) : M (result (list Command)) :=
  match lines with
  | [] => ret (Ok commandsList)
  | line :: rest =>
    let cmdName := strings.TrimPrefix line linePrefix in
    let* d := GetCommandDescription u cmdName in
    match d with
    | Err err => ret (Err (wrapError "failed to get command description for" err))
    | Ok description =>
      commandsLoop u linePrefix rest
        (commandsList ++ [mkCommand cmdName description])%list
    end
  end.

Definition GetCommands (u : UPS) : M (UPS * result (list Command)) :=
  let* r := sendCommand ("LIST CMD " ++ Name u) in
  match r with
  | Err err => ret (u, Err (wrapError "failed to list commands" err))
  | Ok resp =>
    let linePrefix := "CMD " ++ Name u ++ " " in
    let* lines := interior resp in
    let* l := commandsLoop u linePrefix lines [] in
    match l with
    | Err err => ret (u, Err err)
    | Ok commandsList => ret (setCommands commandsList u, Ok commandsList)
    end
  end.

(** [GetVariableDescription] and [GetVariableType] (ups.go, lines
    349-386). *)
Definition GetVariableDescription (u : UPS) (variableName : string) : M (result string) :=
  let* r := sendCommand ("GET DESC " ++ Name u ++ " " ++ variableName) in
  match r with
  | Err err => ret (Err (wrapError "failed to get variable description" err))
  | Ok resp =>
    let* r0 := index resp 0 in
    let trimmedLine :=
      strings.TrimPrefix r0 ("DESC " ++ Name u ++ " " ++ variableName ++ " ") in
    ret (Ok (strings.Replace trimmedLine dquote ""))
  end.

Definition GetVariableType (u : UPS) (variableName : string)
    : M (result (string * bool * Z)) :=
  let* r := sendCommand ("GET TYPE " ++ Name u ++ " " ++ variableName) in
  match r with
  | Err err => ret (Err (wrapError "failed to get type of variable" err))
  | Ok resp =>
    let* r0 := index resp 0 in
    let trimmedLine :=
      strings.TrimPrefix r0 ("TYPE " ++ Name u ++ " " ++ variableName ++ " ") in
    let splitLine := strings.Split trimmedLine " "%char in
    let* s0 := index splitLine 0 in
    let writeable := String.eqb s0 "RW" in
    if writeable then
      let* varType := index splitLine 1 in
      if strings.HasPrefix varType "STRING:" then
        let splitType := strings.Split varType ":"%char in
        let* varType := index splitType 0 in
        let* t1 := index splitType 1 in
        match strconv.Atoi t1 with
        | None => ret (Err (errorString "strconv.Atoi"))
        | Some maximumLength => ret (Ok (varType, writeable, maximumLength))
        end
      else ret (Ok (varType, writeable, 0))
    else ret (Ok (s0, writeable, 0))
  end.

Definition setValueType (v : any) (t : string) (x : Var) : Var :=
  mkVar (vName x) v t (vDescription x) (Writeable x) (MaximumLength x) (OriginalType x).

Definition setType (t : string) (x : Var) : Var :=
  mkVar (vName x) (vValue x) t (vDescription x) (Writeable x) (MaximumLength x)
        (OriginalType x).

(** The [switch valueStr] of [GetVariables] (ups.go, lines 306-329):
    the type inferred from the raw value. *)
Definition inferType (newVar : Var) (valueStr : string) : Var :=
  if String.eqb valueStr "enabled" then setValueType (VBool true) "BOOLEAN" newVar
  else if String.eqb valueStr "disabled" then setValueType (VBool false) "BOOLEAN" newVar
  else if regexp.MatchString valueStr then
    if strings.Contains valueStr "." then
      match strconv.ParseFloat valueStr with
      | Some f => setValueType (VFloat64 f) "FLOAT_64" newVar
      | None => newVar
      end
    else
      match strconv.ParseInt valueStr with
      | Some i => setValueType (VInt64 i) "INTEGER" newVar
      | None => newVar
      end
  else setType "STRING" newVar.

Fixpoint variablesLoop (u : UPS) (offset : string) (lines : list string)
    (vars : list Var) : M (result (list Var)) :=
  match lines with
  | [] => ret (Ok vars)
  | line :: rest =>
    let cleanedLine := strings.TrimPrefix line offset in
    let splitLine := strings.SplitN cleanedLine dquote 3 in
    if (length splitLine <? 2)%nat then variablesLoop u offset rest vars
    else
      let* s0 := index splitLine 0 in
      let* s1 := index splitLine 1 in
      let name := strings.TrimSpace (strings.TrimSuffix s0 " ") in
      let valueStr := strings.TrimSpace s1 in
      let* d := GetVariableDescription u name in
      match d with
      | Err err => ret (Err err)
      | Ok description =>
        let* t := GetVariableType u name in
        match t with
        | Err err => ret (Err err)
        | Ok (varType, writeable, maximumLength) =>
          let newVar :=
            mkVar name (VString valueStr) varType description writeable
                  maximumLength varType in
          variablesLoop u offset rest (vars ++ [inferType newVar valueStr])%list
        end
      end
  end.

(** [GetVariables] (ups.go, lines 270-336); [variablesLoop] is its loop. *)
Definition GetVariables (u : UPS) : M (UPS * result (list Var)) :=
  let* r := sendCommand ("LIST VAR " ++ Name u) in
  match r with
  | Err err => ret (u, Err (wrapError "failed to list variables" err))
  | Ok resp =>
    let offset := "VAR " ++ Name u ++ " " in
    let* lines := interior resp in
    let* l := variablesLoop u offset lines [] in
    match l with
    | Err err => ret (u, Err err)
    | Ok vars => ret (setVariables vars u, Ok vars)
    end
  end.

(** ** [ups.go]: bootstrap and poller *)

(** One turn of the loop of [NewUPS] over the fetched variables.
    [variable.Value.(string)] panics on a value that is not a string; the
    vendor and product identifiers use the two-value form. *)
Definition extract (u : UPS) (variable : Var) : M UPS :=
  let* u :=
    if String.eqb (vName variable) "ups.mfr" then
      match vValue variable with
      | VString s => ret (setManufacturer s u)
      | _ => panic "interface conversion: interface {} is not string"
      end
    else ret u in
  let* u :=
    if String.eqb (vName variable) "ups.model" then
      match vValue variable with
      | VString s => ret (setModel s u)
      | _ => panic "interface conversion: interface {} is not string"
      end
    else ret u in
  let u :=
    if String.eqb (vName variable) "ups.vendorid" then
      match vValue variable with
      | VString val => setVendorID val u
      | VInt64 val => setVendorID (strconv.FormatInt val) u
      | _ => u
      end
    else u in
  let u :=
    if String.eqb (vName variable) "ups.productid" then
      match vValue variable with
      | VString val => setProductID val u
      | VInt64 val => setProductID (strconv.FormatInt val) u
      | _ => u
      end
    else u in
  let* _ := emit (EvLog "[DEBUG] %s: %s = %v") in
  ret u.

Fixpoint extractAll (u : UPS) (vars : list Var) : M UPS :=
  match vars with
  | [] => ret u
  | variable :: rest => let* u := extract u variable in extractAll u rest
  end.

(** [time.NewTicker(d)] panics unless [d] is positive. *)
Definition NewTicker (d : Z) : M unit :=
  if d <=? 0 then panic "non-positive interval for NewTicker" else ret tt.

(** [NewUPS] (ups.go, lines 68-138), up to the start of the poller
    goroutine; the poller is [poller] below. The model is sequential: a
    poller does not run while the next device is bootstrapped. *)
Definition NewUPS (server name : string) (poolInterval : Z) : M (result UPS) :=
  let u := mkUPS server poolInterval "" name "" "" "" "" "" [] [] [] in
  let* (u, r) := GetDescription u in
  match r with
  | Err err => ret (Err (wrapError "failed to get UPS description" err))
  | Ok _ =>
    let* (u, r) := GetClients u in
    match r with
    | Err err => ret (Err (wrapError "failed to get UPS clients" err))
    | Ok _ =>
      let* (u, r) := GetCommands u in
      match r with
      | Err err => ret (Err (wrapError "failed to get UPS commands" err))
      | Ok _ =>
        let* (u, r) := GetVariables u in
        match r with
        | Err err => ret (Err (wrapError "failed to get UPS variables" err))
        | Ok _ =>
          let* u := extractAll u (Variables u) in
          let u := setID (GenerateID u) u in
          let* _ := NewTicker (PoolInterval u) in
          ret (Ok u)
        end
      end
    end
  end.

(** The body of [case <-tk.C] in the goroutine of [NewUPS] (ups.go, lines
    119-129). *)
Definition pollTick (u : UPS) : M UPS :=
  let* (u, r) := GetVariables u in
  match r with
  | Ok _ => ret u
  | Err _ =>
    let* _ := emit (EvLog "[ERROR] failed to poll %s variables: %v") in
    let* e := Reconnect in
    match e with
    | None =>
      let* (u, r) := GetVariables u in
      match r with
      | Ok _ => ret u
      | Err _ =>
        let* _ := emit (EvLog "[ERROR] retry after reconnect failed: %v") in
        ret u
      end
    | Some _ =>
      let* _ := emit (EvLog "[ERROR] reconnect failed: %v") in
      ret u
    end
  end.

(** What the [select] of the goroutine receives. *)
Inductive PollEvent : Type :=
| Tick       (* <-tk.C *)
| CtxDone.   (* <-ctx.Done() *)

Inductive PollerStatus : Type :=
| Waiting    (* blocked in [select] *)
| Returned.  (* the goroutine has returned *)

(** The goroutine of [NewUPS] over the events its [select] receives. *)
Fixpoint poller (events : list PollEvent) (u : UPS) : M (PollerStatus * UPS) :=
  match events with
  | [] => ret (Waiting, u)
  | Tick :: rest => let* u := pollTick u in poller rest u
  | CtxDone :: _ => ret (Returned, u)
  end.

(** ** The client: discovery *)

(** The loop of [getListOfUPS] over the lines of the reply. *)
Fixpoint discover (lines : list string) : M unit :=
  match lines with
  | [] => ret tt
  | line :: rest =>
    if strings.HasPrefix line "UPS " then
      let splitLine := strings.Split (strings.TrimPrefix line "UPS ") dquote in
      let* s0 := index splitLine 0 in
      let name := strings.TrimSuffix s0 " " in
      let* c := getClient in
      let* r := NewUPS (hostname c ++ ":" ++ port c) name (poolInterval c) in
      match r with
      | Err _ =>
        let* _ := emit (EvLog "[ERROR] failed to create UPS %s: %s") in
        discover rest
      | Ok ups =>
        let* c := getClient in
        let* _ :=
          match list_ c !! ID ups with
          | Some _ => ret tt
          | None => modifyClient (setList (<[ID ups := ups]> (list_ c)))
          end in
        discover rest
      end
    else discover rest
  end.

(** [getListOfUPS] (client file, lines 246-268). *)
Definition getListOfUPS : M (option error) :=
  let* r := sendCommand "LIST UPS" in
  match r with
  | Err err => ret (Some (wrapError "failed to get UPS list" err))
  | Ok resp => let* _ := discover resp in ret None
  end.

(** ** The client: construction, logout, access to the registry *)

(** [New] (client file, lines 71-114). The client it builds takes the
    place of the client of the state as soon as the connection is
    dialled; [New] returns it, or the error. *)
Definition New (hostname port username password : string) (poolInterval : Z)
    : M (result Client) :=
  let* d := dial (hostname ++ ":" ++ port) in
  match d with
  | ResolveError => ret (Err (errorString "failed to resolve TCP address"))
  | DialError => ret (Err (errorString "failed to connect to server"))
  | Connected k =>
    let* _ := modifyClient (fun _ =>
      mkClient "" "" (remote k) (Some k) ∅
               hostname port username password poolInterval) in
    let* a := authenticate username password in
    match a with
    | Err err => ret (Err (wrapError "failed to authenticate" err))
    | Ok status =>
      if negb status
      then ret (Err (errorString "authentication failed, check username and password"))
      else
        let* v := getVersion in
        match v with
        | Err err => ret (Err (wrapError "failed to get version" err))
        | Ok _ =>
          let* n := getNetworkProtocolVersion in
          match n with
          | Err err =>
            ret (Err (wrapError "failed to get network protocol version" err))
          | Ok _ =>
            let* l := getListOfUPS in
            match l with
            | Some err => ret (Err (wrapError "failed to get list of UPS" err))
            | None => let* c := getClient in ret (Ok c)
            end
          end
        end
    end
  end.


(** [UPSs] (client file, lines 157-168). Go leaves the order in which a
    map is ranged over open; the model takes the order of [map_to_list],
    and the statements about [UPSs] hold for every order. *)
Definition UPSs (c : Client) : result (list UPS) :=
  if (size (list_ c) =? 0)%nat then Err (errorString "no UPSs found")
  else Ok (map snd (map_to_list (list_ c))).

(** The method [UPS] (client file, lines 169-174), [UPS_] here. *)
Definition UPS_ (c : Client) (name : string) : result UPS :=
  match list_ c !! name with
  | Some ups => Ok ups
  | None => Err (errorString "UPS %s not found")
  end.

(** ** [ups.go]: the other readings and the commands *)

(** [GetBattery] (ups.go, lines 178-194). *)
Definition GetBattery (u : UPS) : Z * Z * strconv.float64 * option error :=
  let charge :=
    match getVariable u "battery.charge" with
    | Some (VInt64 value) => value
    | _ => 0
    end in
  let low :=
    match getVariable u "battery.charge.low" with
    | Some (VInt64 value) => value
    | _ => 0
    end in
  let voltage :=
    match getVariable u "battery.voltage" with
    | Some (VFloat64 value) => value
    | _ => strconv.mkFloat false 0 0
    end in
  (charge, low, voltage, None).

(** [GetRuntime] (ups.go, lines 215-220): with the error it returns 0,
    which a caller that drops the error uses. *)
Definition GetRuntime (u : UPS) : Z * option error :=
  match getVariable u "battery.runtime" with
  | Some (VInt64 value) => (value, None)
  | _ => (0, Some (errorString "battery.runtime variable not found"))
  end.




(** * Package [time]: [Duration] and its [String] method

    A [Duration] is an int64 count of nanoseconds. *)

Module time.

Definition Nanosecond : Z := 1.
Definition Microsecond : Z := 1000.
Definition Millisecond : Z := 1000000.
Definition Second : Z := 1000000000.

Definition digit (d : Z) : ascii := ascii_of_N (Z.to_N (48 + d)).

(** [fmtInt]: the decimal digits of an unsigned number, [0] for zero. *)
Definition fmtInt (v : Z) : string := strconv.FormatInt v.

(** [fmtFrac]: [prec] digits are taken off the right of [v] and written
    before [w], the trailing zeros and a dot that nothing follows left
    out; the result is the text and what is left of [v]. *)
Fixpoint fmtFrac (prec : nat) (v : Z) (print : bool) (w : string) : string * Z :=
  match prec with
  | O => (if print then String "."%char w else w, v)
  | S prec' =>
    let d := v mod 10 in
    let print := print || negb (d =? 0) in
    fmtFrac prec' (v / 10) print (if print then String (digit d) w else w)
  end.

(** The unit of a duration below a second, and the digits after its
    dot; the micro sign is the two bytes of U+00B5. *)
Definition subSecond (u : Z) : nat * string :=
  if u <? Microsecond then (O, "ns")
  else if u <? Millisecond
       then (3%nat, String (ascii_of_N 194) (String (ascii_of_N 181) "s"))
       else (6%nat, "ms").

(** [Duration.String]. *)
Definition String (d : Z) : string :=
  let u := Z.abs d in
  let neg := d <? 0 in
  let w :=
    if u <? Second then
      if u =? 0 then "0s"
      else
        let '(prec, unit) := subSecond u in
        let '(w, u) := fmtFrac prec u false unit in
        fmtInt u ++ w
    else
      let '(w, u) := fmtFrac 9 u false "s" in
      let w := fmtInt (u mod 60) ++ w in
      let u := u / 60 in
      if 0 <? u then
        let w := fmtInt (u mod 60) ++ String "m"%char w in
        let u := u / 60 in
        if 0 <? u then fmtInt u ++ String "h"%char w else w
      else w in
  if neg then String "-"%char w else w.

End time.

(** * Package [api]: what the pages show ([api/rest.go])

    The handlers that read devices: the data each passes to its
    template, and the lines it logs. The execution of the template and
    the HTTP response are outside the model. *)

Module api.

(** The local [type ups struct] of [list]. *)
Record ups : Type := mkRow {
  rID : string;
  rName : string;
  rStatus : string;
  rOriginalStatus : string;
  rBattery : Z;
  rLoad : Z;
  rPower : Z;
  rRuntime : string
}.

Record listData : Type := mkListData {
  lList : list ups;
  lStatus : string;
  lTotalLoad : Z
}.

(** The body of the loop of [list] over the devices of a client
    (rest.go, lines 62-96): the rows, the total load and the lines logged
    so far. *)
Definition listDevice (acc : list ups * Z * list string) (u : UPS)
    : list ups * Z * list string :=
  let '(rows, totalLoad, logs) := acc in
  let '(status, originalStatus, err) := GetStatus u in
  match err with
  | Some _ => (rows, totalLoad, logs ++ ["[ERROR] get status for %s: %v"])%list
  | None =>
    let '(battery, _, _, err) := GetBattery u in
    match err with
    | Some _ => (rows, totalLoad, logs ++ ["[ERROR] get battery for %s: %v"])%list
    | None =>
      let '(load, power, err) := GetLoad u in
      match err with
      | Some _ => (rows, totalLoad, logs ++ ["[ERROR] get load for %s: %v"])%list
      | None =>
        let '(runtime, err) := GetRuntime u in
        match err with
        | Some _ =>
          (rows, totalLoad, logs ++ ["[ERROR] get runtime for %s: %v"])%list
        | None =>
          let formattedRuntime := mul64 runtime time.Second in
          ((rows ++ [mkRow (ID u) (Name u) status originalStatus battery load power
                           (time.String formattedRuntime)])%list,
           wrap64 (totalLoad + power), logs)
        end
      end
    end
  end.

(** The body of the loop over the clients (rest.go, lines 50-97); a nil
    client is [None]. *)
Definition listClient (acc : list ups * Z * list string) (client : option Client)
    : list ups * Z * list string :=
  match client with
  | None => acc
  | Some client =>
    match UPSs client with
    | Err _ =>
      let '(rows, totalLoad, logs) := acc in
      (rows, totalLoad, logs ++ ["[ERROR] get UPSs for %s: %v"])%list
    | Ok upss =>
      if (length upss =? 0)%nat then acc else fold_left listDevice upss acc
    end
  end.

(** One turn of the loop that derives the status of the whole (rest.go,
    lines 100-114). *)
Definition overall (status : string) (u : ups) : string :=
  if strings.Contains (rOriginalStatus u) "OL" then
    if String.eqb status "unknown" then "up"
    else if String.eqb status "down" then "degraded"
    else status
  else if strings.Contains (rOriginalStatus u) "OB" then
    if String.eqb status "unknown" then "down"
    else if String.eqb status "up" then "degraded"
    else status
  else status.

(** The local types of [details], and the data it passes to its
    template. *)
Record loadT : Type := mkLoadT { lValue : Z; lPower : Z }.
Record batteryT : Type :=
  mkBatteryT { bCharge : Z; bLow : Z; bVoltage : strconv.float64 }.
Record statusT : Type :=
  mkStatusT { sValue : string; sOriginal : string; sRuntime : string }.

Record detailsData : Type := mkDetailsData {
  dID : string;
  dName : string;
  dDescription : string;
  dManufacturer : string;
  dModel : string;
  dServer : string;
  dOnline : bool;
  dLoad : loadT;
  dBattery : batteryT;
  dStatus : statusT;
  dVariables : list Var
}.

(** What a handler answers with. *)
Inductive response (A : Type) : Type :=
| Page (data : A)      (* the template, executed on the data *)
| NotFound             (* s.notFound *)
| Panics (msg : string).
Arguments Page {A} data.
Arguments NotFound {A}.
Arguments Panics {A} msg.

(** The loop of [details] over the clients (rest.go, lines 136-141): the
    device of the first client that has the identifier. The method [UPS]
    reads the registry of its receiver, which a nil client has not. *)
Fixpoint findUPS (clients : list (option Client)) (id : string)
    : response UPS :=
  match clients with
  | [] => NotFound
  | None :: _ => Panics "invalid memory address or nil pointer dereference"
  | Some c :: rest =>
    match UPS_ c id with
    | Ok u => Page u
    | Err _ => findUPS rest id
    end
  end.

(** [details] (rest.go, lines 132-213). *)
Definition details (clients : list (option Client)) (id : string)
    : response detailsData :=
  match findUPS clients id with
  | NotFound => NotFound
  | Panics msg => Panics msg
  | Page ups =>
    let '(status, originalStatus, _) := GetStatus ups in
    let '(battery, low, voltage, _) := GetBattery ups in
    let '(load, power, _) := GetLoad ups in
    let '(runtime, _) := GetRuntime ups in
    let formattedRuntime := mul64 runtime time.Second in
    Page (mkDetailsData (ID ups) (Name ups) (Description ups) (Manufacturer ups)
            (Model ups) (Server ups) (strings.Contains originalStatus "OL")
            (mkLoadT load power)
            (mkBatteryT battery low voltage)
            (mkStatusT status originalStatus (time.String formattedRuntime))
            (Variables ups))
  end.

(** [list] (rest.go, lines 36-130): the data for the template, and the
    lines logged. *)
Definition list (clients : list (option Client)) : listData * list string :=
  let '(rows, totalLoad, logs) := fold_left listClient clients ([], 0, []) in
  let status := fold_left overall rows "unknown" in
  (mkListData rows status totalLoad, logs).

End api.

(** * Package [main]: the clients of the application

    [create] of the main file (lines 83-133). *)

Module main.

(** The group [UPSD] of [type arguments struct], and the arguments. *)
Record upsd : Type := mkUpsd {
  Host : string;
  Port : string;
  Username : string;
  Password : string
}.

Record arguments : Type := mkArguments {
  UPSD : upsd;
  PoolInterval : Z;
  Addr : string;
  AppPort : Z;
  Debug : bool
}.

(** [type app struct]: the server, the REST handlers with their clients,
    the arguments. *)
Record app : Type := mkApp {
  srvPort : Z;
  srvAddress : string;
  templateDebug : bool;
  Clients : list Client;
  args : arguments
}.

(** [ports[i]] trimmed when [i < len(ports)], else the default. *)
Definition setting (values : list string) (i : nat) (default : string) : string :=
  match nth_error values i with
  | Some v => strings.TrimSpace v
  | None => default
  end.

(** The loop of [create] over the hosts, from index [i] on. *)
Fixpoint connect (a : arguments) (ports usernames passwords : list string)
    (i : nat) (hosts : list string) (clients : list Client) : M (list Client) :=
  match hosts with
  | [] => ret clients
  | host :: rest =>
    let port := setting ports i "3493" in
    let username := setting usernames i "upsmon" in
    let password := setting passwords i "upsmon" in
    let* r := New host port username password (PoolInterval a) in
    match r with
    | Err _ =>
      let* _ := emit (EvLog "[ERROR] create client %s:%s: %v") in
      connect a ports usernames passwords (S i) rest clients
    | Ok client =>
      let* _ := emit (EvLog "[DEBUG] connected to NUT %s:%s (VER=%s, NETVER=%s)") in
      connect a ports usernames passwords (S i) rest (clients ++ [client])%list
    end
  end.

Definition create (a : arguments) : M (result app) :=
  if (len (Host (UPSD a)) =? 0)%nat
  then ret (Err (errorString "no NUT server configuration provided"))
  else
    let hosts := strings.Split (Host (UPSD a)) ","%char in
    let ports := strings.Split (Port (UPSD a)) ","%char in
    let usernames := strings.Split (Username (UPSD a)) ","%char in
    let passwords := strings.Split (Password (UPSD a)) ","%char in
    let* clients := connect a ports usernames passwords O hosts [] in
    ret (Ok (mkApp (AppPort a) (Addr a) (Debug a) clients a)).

End main.

(** * What the specification says, in its own words

    The definitions of this part follow the sentences of the
    specification, not the code; the theorems below compare the two. *)

Module Spec.

(** The pattern [^-?\d+$]. *)
Definition intPattern (s : string) : bool :=
  regexp.digits1 (regexp.optMinus s).

(** The pattern [^-?\d+\.\d+$]. *)
Definition floatPattern (s : string) : bool :=
  match strconv.splitDot (regexp.optMinus s) with
  | Some (ip, fp) => regexp.digits1 ip && regexp.digits1 fp
  | None => false
  end.

(** The number a literal of [intPattern] denotes. *)
Definition digitsNumber (s : string) : Z :=
  match strconv.digitsValue 0 s with
  | Some n => n
  | None => 0
  end.

Definition literalValue (s : string) : Z :=
  match s with
  | String c s' =>
    if Ascii.eqb c "-"%char then - digitsNumber s' else digitsNumber s
  | EmptyString => 0
  end.

Definition inInt64 (z : Z) : bool := (- 2 ^ 63 <=? z) && (z <? 2 ^ 63).

(** "Each code maps through a fixed human-readable table; unknown codes
    map to Unknown." *)
Definition humanOf (code : string) : string :=
  match NUTStatusHumanReadable !! code with
  | Some desc => desc
  | None => "Unknown"
  end.

(** "The first mapped word capitalized and subsequent words lower-cased,
    comma-separated." *)
Definition human (codes : list string) : string :=
  match map humanOf codes with
  | [] => ""
  | first :: others => strings.Join (first :: map strings.ToLower others) ", "
  end.

(** The same sentence, read as speaking of the words of the table only. *)
Fixpoint tableWords (seen : bool) (codes : list string) : list string :=
  match codes with
  | [] => []
  | code :: rest =>
    match NUTStatusHumanReadable !! code with
    | Some desc =>
      (if seen then strings.ToLower desc else desc) :: tableWords true rest
    | None => "Unknown" :: tableWords seen rest
    end
  end.

Definition humanOfTable (codes : list string) : string :=
  strings.Join (tableWords false codes) ", ".

(** What the code joins: an entry of the table is lower-cased unless it
    comes first, the word for an unknown code is left as it is. *)
Fixpoint describe (first : bool) (codes : list string) : list string :=
  match codes with
  | [] => []
  | code :: rest =>
    match NUTStatusHumanReadable !! code with
    | Some desc => (if first then desc else strings.ToLower desc)
    | None => "Unknown"
    end :: describe false rest
  end.

(** "Present with integer type". *)
Definition intOf (v : option any) : option Z :=
  match v with
  | Some (VInt64 i) => Some i
  | _ => None
  end.

Definition orZero (v : option Z) : Z :=
  match v with
  | Some i => i
  | None => 0
  end.

(** "nominal is the integer value of ups.realpower.nominal if present,
    else ups.power.nominal, else 0". *)
Definition nominal (u : UPS) : Z :=
  match intOf (getVariable u "ups.realpower.nominal") with
  | Some n => n
  | None => orZero (intOf (getVariable u "ups.power.nominal"))
  end.

Definition load (u : UPS) : Z := orZero (intOf (getVariable u "ups.load")).

(** "power equal to ups.realpower when present with integer type;
    otherwise load x nominal / 100", in the int64 arithmetic of the
    code. *)
Definition power (u : UPS) : Z :=
  match intOf (getVariable u "ups.realpower") with
  | Some p => p
  | None => div64 (mul64 (load u) (nominal u)) 100
  end.

(** The tuple the identifier is derived from, and the bytes hashed. *)
Definition tuple (u : UPS) : string * string * string * string :=
  (Server u, Name u, ProductID u, VendorID u).

Definition hashed (u : UPS) : string :=
  Server u ++ Name u ++ ProductID u ++ VendorID u.

(** A line holds no newline. *)
Fixpoint isLine (s : string) : bool :=
  match s with
  | EmptyString => true
  | String c s' => negb (Ascii.eqb c nl) && isLine s'
  end.

(** The bytes of a reply made of these lines. *)
Fixpoint wire (lines : list string) : string :=
  match lines with
  | [] => ""
  | l :: rest => l ++ NL ++ wire rest
  end.


Definition dataLine (X : string) (l : string) : bool :=
  isLine l && negb (String.eqb l ("END LIST " ++ X)).


(** The registry after registering these devices in order, the first
    device of an identifier winning. *)
Definition register (reg : gmap string UPS) (u : UPS) : gmap string UPS :=
  match reg !! ID u with
  | Some _ => reg
  | None => <[ID u := u]> reg
  end.

Definition firstWins (reg : gmap string UPS) (us : list UPS) : gmap string UPS :=
  fold_left register us reg.

End Spec.

(** ** Observations on a run *)

Definition valueOf {A} (r : Run A) : option A :=
  match r with
  | Done a _ => Some a
  | Crash _ => None
  end.

(** The stream still to be read on the connection of a state. *)
Definition unread (s : State) : option string :=
  match conn (client s) with
  | Some k => Some (rd k)
  | None => None
  end.

(** A connection that is open and accepts a write. *)
Definition writable (s : State) : bool :=
  match conn (client s) with
  | Some k => negb (closed k) && (0 <? wr k)%nat
  | None => false
  end.

Definition isResolve (e : Event) : bool :=
  match e with
  | EvResolve _ => true
  | _ => false
  end.

Definition isWriteOf (data : string) (e : Event) : bool :=
  match e with
  | EvWrite d => String.eqb d data
  | _ => false
  end.

Definition count (p : Event -> bool) (tr : list Event) : nat :=
  length (List.filter p tr).

(** ** Specifications of computations

    [returns m s Q]: from [s] the computation [m] returns, with a value and
    a state that satisfy [Q] (it does not panic). [safely m s Q] allows
    the panic. *)

Definition returns {A} (m : M A) (s : State) (Q : A -> State -> Prop) : Prop :=
  match m s with
  | Done a s' => Q a s'
  | Crash _ => False
  end.

Definition safely {A} (m : M A) (s : State) (Q : A -> State -> Prop) : Prop :=
  match m s with
  | Done a s' => Q a s'
  | Crash _ => True
  end.

(** The settings of a session. *)
Definition config (c : Client) : string * string * string * string * Z :=
  (hostname c, port c, username c, password c, poolInterval c).

(** From [s] to [s'] the registry and the settings are kept. *)
Definition keeps (s s' : State) : Prop :=
  list_ (client s') = list_ (client s)
  /\ config (client s') = config (client s).

(** From [s] to [s'] the events [evs] happened, and nothing was dialled. *)
Definition emitted (evs : list Event) (s s' : State) : Prop :=
  trace s' = (trace s ++ evs)%list /\ dials s' = dials s.

(** [m] may panic; when it returns it has kept the registry and the
    settings, dialled nothing, and emitted events of the kind [P] only. *)
Definition quietly (P : Event -> bool) {A} (m : M A) : Prop :=
  forall s, safely m s (fun _ s' =>
    keeps s s' /\ exists evs, emitted evs s s' /\ forallb P evs = true).

Definition anyEvent (e : Event) : bool := true.

(** The devices a discovery pass constructs, in the order of the reply:
    the loop of [getListOfUPS], returning the devices for which [NewUPS]
    returned no error. *)
Fixpoint bootstrapped (lines : list string) : M (list UPS) :=
  match lines with
  | [] => ret []
  | line :: rest =>
    if strings.HasPrefix line "UPS " then
      let splitLine := strings.Split (strings.TrimPrefix line "UPS ") dquote in
      let* s0 := index splitLine 0 in
      let name := strings.TrimSuffix s0 " " in
      let* c := getClient in
      let* r := NewUPS (hostname c ++ ":" ++ port c) name (poolInterval c) in
      match r with
      | Err _ =>
        let* _ := emit (EvLog "[ERROR] failed to create UPS %s: %s") in
        bootstrapped rest
      | Ok ups =>
        let* _ := modifyClient (fun c => setList (Spec.register (list_ c) ups) c) in
        let* us := bootstrapped rest in
        ret (ups :: us)
      end
    else bootstrapped rest
  end.

(** The state after a line was logged. *)
Definition logged (format : string) (s : State) : State :=
  mkState (client s) (dials s) (trace s ++ [EvLog format])%list.

(** A fetch that returned an error. *)
Definition fetchFailed (r : Run (UPS * result (list Var))) : bool :=
  match r with
  | Done (_, Err _) _ => true
  | _ => false
  end.

(** The [LIST VAR] command of a device, as written on the connection. *)
Definition listVar (u : UPS) : string := ("LIST VAR " ++ Name u) ++ NL.

(** [evs] is an initial segment of [full]. *)
Definition prefixOf (evs full : list Event) : Prop :=
  exists rest, full = (evs ++ rest)%list.

(** A write of a [GET] command. *)
Definition isGet (e : Event) : bool :=
  match e with
  | EvWrite d => strings.HasPrefix d "GET "
  | _ => false
  end.


(** What [Reconnect] does first: it closes the connection it has. *)
Definition closeEvents (s : State) : list Event :=
  match conn (client s) with
  | Some _ => [EvClose]
  | None => []
  end.

(** The commands of a successful reconnection, after the resolution of
    the address. *)
Definition handshake (c : Client) : list Event :=
  [ EvDial;
    EvWrite (("USERNAME " ++ username c) ++ NL);
    EvWrite (("PASSWORD " ++ password c) ++ NL);
    EvWrite ("VER" ++ NL);
    EvWrite ("NETVER" ++ NL) ].

(** * Concrete inputs

    The snapshots, connections and states the examples below run on. *)

(** A quoted value. *)
Definition quoted (s : string) : string := DQUOTE ++ s ++ DQUOTE.

Definition loadExample : UPS :=
  mkUPS "localhost:3493" 10 "" "ups1" "" "" "" "" "" [] 
    [ mkVar "ups.load" (VInt64 50) "INTEGER" "" false 0 "NUMBER";
      mkVar "ups.realpower.nominal" (VInt64 800) "INTEGER" "" false 0 "NUMBER" ]
    [].

(** A device whose snapshot holds the one variable [ups.status]. *)
Definition withStatus (raw : string) : UPS :=
  mkUPS "localhost:3493" 10 "" "ups1" "" "" "" "" "" []
    [ mkVar "ups.status" (VString raw) "STRING" "" false 0 "STRING" ]
    [].

(** A device with these four identifying fields. *)
Definition device (server name productID vendorID : string) : UPS :=
  mkUPS server 10 "" name "" "" "" vendorID productID [] [] [].

(** The variable [GetVariables] builds before it infers the type: the raw
    string as the value, the type the server declared. *)
Definition rawVar (name valueStr varType : string) : Var :=
  mkVar name (VString valueStr) varType "" false 0 varType.

(** A session whose connection is open, with [stream] still to be read and
    an empty registry; the network answers later dials with [net]. *)
Definition sessionOn (net : list DialResult) (stream : string) : State :=
  mkState
    (mkClient "" "" "10.0.0.5:3493"
       (Some (mkConn stream 1000 false "10.0.0.5:3493"))
       ∅ "nut.lan" "3493" "monitor" "secret" 10)
    net [].

Definition session (stream : string) : State := sessionOn [] stream.


Definition versionLine : string := "Network UPS Tools upsd 2.8.0 - http://www.networkupstools.org/".

(** What a server sends while a device named [name] with these variables
    (name and raw value), no client and no command is bootstrapped. *)
Definition varLine (name : string) (v : string * string) : string :=
  "VAR " ++ name ++ " " ++ fst v ++ " " ++ quoted (snd v).

Definition varInfo (name : string) (v : string * string) : list string :=
  [ "DESC " ++ name ++ " " ++ fst v ++ " " ++ quoted "a variable";
    "TYPE " ++ name ++ " " ++ fst v ++ " NUMBER" ].

Definition variablesReply (name : string) (vars : list (string * string)) : list string :=
  ("BEGIN LIST VAR " ++ name) :: map (varLine name) vars
    ++ ("END LIST VAR " ++ name) :: flat_map (varInfo name) vars.

Definition bootstrapReply (name : string) (vars : list (string * string)) : list string :=
  [ "UPSDESC " ++ name ++ " " ++ quoted "a device";
    "BEGIN LIST CLIENT " ++ name; "END LIST CLIENT " ++ name;
    "BEGIN LIST CMD " ++ name; "END LIST CMD " ++ name ]
    ++ variablesReply name vars.

Definition listUPS (names : list string) : list string :=
  "BEGIN LIST UPS" :: map (fun n => "UPS " ++ n ++ " " ++ quoted "a device") names
    ++ ["END LIST UPS"].

(** A discovery of two devices, the first of which reports a model made of
    digits. *)
Definition numericModel : State :=
  session (Spec.wire (listUPS ["rack"; "desk"]
                        ++ bootstrapReply "rack" [("ups.model", "1500"); ("ups.status", "OL")]
                        ++ bootstrapReply "desk" [("ups.model", "Back-UPS"); ("ups.status", "OL")])).

(** A discovery of two devices; the reply to the first [LIST CLIENT] is
    the end line alone. *)
Definition truncatedClients : State :=
  session (Spec.wire (listUPS ["rack"; "desk"]
                        ++ [ "UPSDESC rack " ++ quoted "a device";
                             "END LIST CLIENT rack" ]
                        ++ bootstrapReply "desk" [("ups.status", "OL")])).

(** A discovery of three devices: the server refuses the description of
    the first, the third has the name of the second. *)
Definition partialDiscovery : State :=
  session (Spec.wire (listUPS ["rack"; "desk"; "desk"]
                        ++ ["ERR UNKNOWN-UPS"]
                        ++ bootstrapReply "desk" [("ups.status", "OL")]
                        ++ bootstrapReply "desk" [("ups.status", "OB")])).

(** A fetch whose list arrives and whose first description is refused. *)
Definition refusedDescription : State :=
  session (Spec.wire [ "BEGIN LIST VAR ups1"; varLine "ups1" ("ups.load", "60");
                       "END LIST VAR ups1"; "ERR DRIVER-NOT-CONNECTED" ]).

(** A device being polled, with a snapshot from an earlier fetch. *)
Definition polled : UPS :=
  mkUPS "nut.lan:3493" 10 "iygwnV" "ups1" "a device" "" "" "" "" []
    [ mkVar "ups.status" (VString "OL") "STRING" "a variable" false 0 "NUMBER" ]
    [].

(** A connection that answers the handshake of [Reconnect] and then the
    lines [after]. *)
Definition fresh (after : list string) : Conn :=
  mkConn (Spec.wire (["OK"; "OK"; versionLine; "1.3"] ++ after)) 1000 false
         "10.0.0.5:3493".

(** The connection has gone silent; the network accepts a new one, on
    which the reply to [LIST VAR] is the end line alone. *)
Definition truncatedList : State :=
  sessionOn [Connected (fresh ["END LIST VAR ups1"])] "".

(** A healthy connection on which the server answers [GET TYPE] with the
    flag [RW] and no type. *)
Definition typeless : State :=
  session (Spec.wire [ "BEGIN LIST VAR ups1"; varLine "ups1" ("ups.status", "OL");
                       "END LIST VAR ups1";
                       "DESC ups1 ups.status " ++ quoted "a variable";
                       "TYPE ups1 ups.status RW" ]).

(** The connection has gone silent and the network refuses a new one. *)
Definition unreachable : State := sessionOn [DialError] "".

(** The connection has gone silent; the new one serves the variables. *)
Definition recovered : State :=
  sessionOn [Connected (fresh (variablesReply "ups1" [("ups.status", "OB")]))] "".

(** A session with a device in its registry, whose connection has gone
    silent, and a network that accepts a new connection. *)
Definition reconnecting : State :=
  mkState
    (mkClient "old" "old" "10.0.0.5:3493"
       (Some (mkConn "" 1000 false "10.0.0.5:3493"))
       {[ "iygwnV" := polled ]} "nut.lan" "3493" "monitor" "secret" 10)
    [Connected (fresh [])] [].

(** * Further observations and inputs *)

(** The state after an exchange on the connection [k] of [s]: the command
    is written, one write is spent, [rest] is left to read. *)
Definition exchanged (cmd rest : string) (k : Conn) (s : State) : State :=
  mkState
    (setConn (Some (mkConn rest (pred (wr k)) (closed k) (remote k))) (client s))
    (dials s) (trace s ++ [EvWrite (cmd ++ NL)])%list.

(** The end line [sendCommand] waits for. *)
Definition endLineOf (cmd : string) : string :=
  if strings.HasPrefix (cmd ++ NL) "USERNAME "
     || strings.HasPrefix (cmd ++ NL) "PASSWORD "
     || strings.HasPrefix (cmd ++ NL) "SET "
     || strings.HasPrefix (cmd ++ NL) "HELP "
     || strings.HasPrefix (cmd ++ NL) "VER "
     || strings.HasPrefix (cmd ++ NL) "NETVER "
  then "OK" ++ NL else "END " ++ cmd ++ NL.

(** What [sendCommand] makes of the first line of a response. *)
Definition answer (r0 : string) (resp : list string) : result (list string) :=
  if strings.HasPrefix r0 "ERR "
  then Err (formatError (nth 1 (strings.Split r0 " "%char) ""))
  else Ok (r0 :: resp).



(** An event of the conversation with the server, or a log line: not a
    resolution, a dial or a [Close]. *)
Definition isTalk (e : Event) : bool :=
  match e with
  | EvWrite _ | EvLog _ => true
  | _ => false
  end.

(** [u'] is the device [u] as far as the fields go that are set when the
    device is made. *)
Definition same (u u' : UPS) : Prop :=
  Server u' = Server u /\ Name u' = Name u /\ PoolInterval u' = PoolInterval u.

(** The device [u] is registered under [id] as a device that [NewUPS]
    has returned to the client [c]. *)
Definition registered (c : Client) (id : string) (u : UPS) : Prop :=
  ID u = id
  /\ GenerateID u = id
  /\ Server u = hostname c ++ ":" ++ port c
  /\ PoolInterval u = poolInterval c
  /\ 0 < PoolInterval u.

Definition wellKeyed (c : Client) : Prop :=
  forall id u, list_ c !! id = Some u -> registered c id u.

(** What [New] does after the resolution of the address, up to the
    discovery. *)
Definition greeting (username password : string) : list Event :=
  [ EvDial;
    EvWrite (("USERNAME " ++ username) ++ NL);
    EvWrite (("PASSWORD " ++ password) ++ NL);
    EvWrite ("VER" ++ NL);
    EvWrite ("NETVER" ++ NL);
    EvWrite ("LIST UPS" ++ NL) ].

(** The addresses [create] asks [New] to connect to: each host as it
    stands between the commas, with the port of the same position,
    trimmed, or the default port when the ports are fewer. *)
Definition addresses (a : main.arguments) : list string :=
  imap (fun i host =>
          host ++ ":"
            ++ main.setting (strings.Split (main.Port (main.UPSD a)) ","%char) i "3493")
       (strings.Split (main.Host (main.UPSD a)) ","%char).

(** Arguments with two hosts and one port. *)
Definition twoHosts : main.arguments :=
  main.mkArguments (main.mkUpsd "alpha, beta" " 3500 " "upsmon" "upsmon")
                   10 "" 8833 false.



















(** A byte that can stand in a path segment of a URL as it is: a letter,
    a digit, [-] or [_]. *)
Definition urlSafe (c : ascii) : bool :=
  let x := byte c in
  ((48 <=? x) && (x <=? 57)) || ((65 <=? x) && (x <=? 90))
  || ((97 <=? x) && (x <=? 122)) || (x =? 45) || (x =? 95).

(** A device that reports an integer [battery.runtime]. *)
Definition hasRuntime (u : UPS) : bool :=
  match getVariable u "battery.runtime" with
  | Some (VInt64 _) => true
  | _ => false
  end.

(** The devices of the clients, in the order in which [list] goes
    through them. *)
Definition devices (clients : list (option Client)) : list UPS :=
  flat_map (fun c => match c with
                     | Some c => match UPSs c with
                                 | Ok upss => upss
                                 | Err _ => []
                                 end
                     | None => []
                     end) clients.

(** The row of the list page for a device. *)
Definition rowOf (u : UPS) : api.ups :=
  api.mkRow (ID u) (Name u)
    (fst (fst (GetStatus u))) (snd (fst (GetStatus u)))
    (fst (fst (fst (GetBattery u))))
    (fst (fst (GetLoad u))) (snd (fst (GetLoad u)))
    (time.String (mul64 (fst (GetRuntime u)) time.Second)).

(** The status of the whole, from whether some device is on line and
    whether some device is on battery. *)
Definition health (ol ob : bool) : string :=
  if ol then (if ob then "degraded" else "up")
  else if ob then "down" else "unknown".

Definition online (r : api.ups) : bool :=
  strings.Contains (api.rOriginalStatus r) "OL".

Definition onBattery (r : api.ups) : bool :=
  negb (online r) && strings.Contains (api.rOriginalStatus r) "OB".

Definition sumZ (l : list Z) : Z := fold_right Z.add 0 l.

(** A device without [battery.runtime], and a client that holds it. *)
Definition noRuntime : UPS :=
  mkUPS "nut.lan:3493" 10 "iygwnV" "ups1" "a device" "" "" "" "" []
    [ mkVar "ups.status" (VString "OB") "STRING" "" false 0 "NUMBER";
      mkVar "ups.load" (VInt64 40) "INTEGER" "" false 0 "NUMBER" ]
    [].

Definition holding (u : UPS) : Client :=
  mkClient "" "" "10.0.0.5:3493" None {[ ID u := u ]}
           "nut.lan" "3493" "monitor" "secret" 10.

(** A device on line, with its load, its nominal power and its runtime. *)
Definition metered : UPS :=
  mkUPS "nut.lan:3493" 10 "k3Xa9Q" "ups2" "a device" "" "" "" "" []
    [ mkVar "ups.status" (VString "OL CHRG") "STRING" "" false 0 "NUMBER";
      mkVar "ups.load" (VInt64 50) "INTEGER" "" false 0 "NUMBER";
      mkVar "ups.realpower.nominal" (VInt64 800) "INTEGER" "" false 0 "NUMBER";
      mkVar "battery.charge" (VInt64 97) "INTEGER" "" false 0 "NUMBER";
      mkVar "battery.runtime" (VInt64 1800) "INTEGER" "" false 0 "NUMBER" ]
    [].

(** The clients of an application: one with a metered device, a nil one,
    one whose device reports no runtime. *)
Definition someClients : list (option Client) :=
  [Some (holding metered); None; Some (holding noRuntime)].

(** A client that does not hold the identifier [id]. *)
Definition lacksDevice (id : string) (c : option Client) : Prop :=
  exists c0, c = Some c0 /\ list_ c0 !! id = None.

(** A runtime of [r] seconds, as hours, minutes and seconds. *)
Definition hms (r : Z) : string :=
  if r <? 60 then strconv.FormatInt r ++ "s"
  else if r <? 3600
       then strconv.FormatInt (r / 60) ++ "m" ++ strconv.FormatInt (r mod 60) ++ "s"
       else strconv.FormatInt (r / 3600) ++ "h"
              ++ strconv.FormatInt (r / 60 mod 60) ++ "m"
              ++ strconv.FormatInt (r mod 60) ++ "s".

Definition isString (v : any) : bool :=
  match v with
  | VString _ => true
  | _ => false
  end.

(** A variable on which the loop of [NewUPS] asserts a string, with a
    value that is none. *)
Definition notAString (v : Var) : bool :=
  (String.eqb (vName v) "ups.mfr" || String.eqb (vName v) "ups.model")
  && negb (isString (vValue v)).

(** [u'] is [u] in all that the fetches of the bootstrap have set. *)
Definition kept (u u' : UPS) : Prop :=
  same u u'
  /\ Description u' = Description u /\ Clients u' = Clients u
  /\ Variables u' = Variables u /\ Commands u' = Commands u.





(** * Theorems *)

(** ** Derived readings: load and power *)

Lemma wrap64_id (z : Z) : Spec.inInt64 z = true -> wrap64 z = z.
Proof.
  unfold Spec.inInt64, wrap64. intros H.
  apply andb_true_iff in H as [Hl Hu].
  apply Z.leb_le in Hl. apply Z.ltb_lt in Hu.
  rewrite Z.mod_small by lia. lia.
Qed.






(** ** Derived readings: status *)

Lemma fold_statusStep (codes acc : list string) :
  fold_left statusStep codes acc
  = (acc ++ Spec.describe (length acc =? 0)%nat codes)%list.
Proof.
  revert acc. induction codes as [| code rest IH]; intros acc.
  - simpl. now rewrite app_nil_r.
  - cbn [fold_left Spec.describe]. rewrite IH. unfold statusStep.
    assert (Hlen : forall w : string,
               (length (acc ++ [w]) =? 0)%nat = false).
    { intros w. rewrite length_app. cbn [length]. apply Nat.eqb_neq. lia. }
    destruct (NUTStatusHumanReadable !! code) as [desc |].
    + rewrite Hlen, <- app_assoc. cbn [app].
      destruct acc; reflexivity.
    + rewrite Hlen, <- app_assoc. reflexivity.
Qed.

Lemma GetStatus_unfold (u : UPS) (raw : string) :
  getVariable u "ups.status" = Some (VString raw) ->
  GetStatus u
  = (strings.Join (Spec.describe true (strings.Fields raw)) ", ", raw, None).
Proof.
  intros H. unfold GetStatus. rewrite H, fold_statusStep. reflexivity.
Qed.

(** C5, as the code has it. For every raw [ups.status] string, [GetStatus]
    splits it on white space and joins, comma-separated, one word per
    code: an entry of the table is taken as the table has it when it
    comes first and lower-cased when it comes later, an unknown code
    gives the word Unknown wherever it stands; the raw string is returned
    unmodified. For OL CHRG the result is Online, charging and OL CHRG. *)
Theorem GetStatus_describe :
  (forall (u : UPS) (raw : string),
      getVariable u "ups.status" = Some (VString raw) ->
      GetStatus u
      = (strings.Join (Spec.describe true (strings.Fields raw)) ", ", raw, None))
  /\ (forall u : UPS,
        getVariable u "ups.status" = Some (VString "OL CHRG") ->
        GetStatus u = ("Online, charging", "OL CHRG", None)).
Proof.
  split; [exact GetStatus_unfold |].
  intros u H. rewrite (GetStatus_unfold u _ H). vm_compute. reflexivity.
Qed.

Lemma GetStatus_describe_witness :
  GetStatus (withStatus "OL CHRG") = ("Online, charging", "OL CHRG", None).
Proof.
  apply (proj2 GetStatus_describe (withStatus "OL CHRG")). reflexivity.
Defined.

(** C5 as stated fails. After a known first code, an unknown code gives
    Unknown with its capital, where the claim has every later word
    lower-cased. If the claim is read as lower-casing the words of the
    table only, it fails as well: a known code that follows an unknown
    one is lower-cased although it is the first word that comes from the
    table. *)
Lemma GetStatus_unknown_not_lowered :
  GetStatus (withStatus "OL FOO") = ("Online, Unknown", "OL FOO", None)
  /\ Spec.human (strings.Fields "OL FOO") = "Online, unknown"
  /\ fst (fst (GetStatus (withStatus "OL FOO")))
     <> Spec.human (strings.Fields "OL FOO")
  /\ GetStatus (withStatus "FOO OL") = ("Unknown, online", "FOO OL", None)
  /\ Spec.humanOfTable (strings.Fields "FOO OL") = "Unknown, Online"
  /\ fst (fst (GetStatus (withStatus "FOO OL")))
     <> Spec.humanOfTable (strings.Fields "FOO OL").
Proof.
  repeat split; try (vm_compute; reflexivity); vm_compute; discriminate.
Qed.

(** ** The device identifier *)

Lemma bytesOf_app (a b : string) :
  bytesOf (a ++ b) = (bytesOf a ++ bytesOf b)%list.
Proof.
  unfold bytesOf. induction a as [| c a IH]; [reflexivity |].
  simpl. f_equal. exact IH.
Qed.

(** The identifier is computed from the concatenation of the four fields. *)
Lemma GenerateID_hashed (u : UPS) :
  GenerateID u
  = take_bytes 6 (base64.EncodeToString (md5.Sum (bytesOf (Spec.hashed u)))).
Proof.
  unfold GenerateID, Spec.hashed. rewrite !bytesOf_app.
  do 2 f_equal. f_equal.
  destruct (Name u) as [| c1 n]; destruct (ProductID u) as [| c2 p];
    destruct (VendorID u) as [| c3 v]; cbn [String.eqb negb bytesOf];
    rewrite ?app_nil_r, <- ?app_assoc; reflexivity.
Qed.

Lemma Sum_length (msg : list Z) : length (md5.Sum msg) = 16%nat.
Proof.
  unfold md5.Sum.
  destruct (fold_left md5.block _ md5.init) as [[[a b] c] d].
  reflexivity.
Qed.

Lemma EncodeToString_16 (src : list Z) :
  length src = 16%nat -> len (base64.EncodeToString src) = 24%nat.
Proof.
  intros H.
  do 16 (destruct src as [| ? src]; [discriminate H |]).
  destruct src; [reflexivity | discriminate H].
Qed.

Lemma take_bytes_len (n : nat) (s : string) :
  (n <= len s)%nat -> len (take_bytes n s) = n.
Proof.
  revert s. induction n as [| n IH]; intros s H; [reflexivity |].
  destruct s as [| c s]; cbn in H; [lia |].
  cbn. f_equal. apply IH. unfold len. lia.
Qed.

(** C3, as the code has it. The identifier is a function of the tuple
    (server address, name, product ID, vendor ID): identical tuples give
    the same identifier, which has six characters; it depends on the
    tuple through the concatenation of its four components only, so two
    tuples with the same concatenation share their identifier. *)
Theorem GenerateID_function :
  (forall u : UPS, len (GenerateID u) = 6%nat)
  /\ (forall u1 u2 : UPS,
        Spec.tuple u1 = Spec.tuple u2 -> GenerateID u1 = GenerateID u2)
  /\ (forall u1 u2 : UPS,
        Spec.hashed u1 = Spec.hashed u2 -> GenerateID u1 = GenerateID u2).
Proof.
  split; [| split].
  - intros u. rewrite GenerateID_hashed. apply take_bytes_len.
    rewrite EncodeToString_16 by apply Sum_length. lia.
  - intros u1 u2 H. rewrite !GenerateID_hashed. unfold Spec.hashed.
    unfold Spec.tuple in H. injection H as -> -> -> ->. reflexivity.
  - intros u1 u2 H. rewrite !GenerateID_hashed, H. reflexivity.
Qed.

Lemma GenerateID_function_witness :
  GenerateID (device "nut.lan:3493" "ups" "0002" "0764")
  = GenerateID (device "nut.lan:3493" "ups0" "002" "0764").
Proof.
  apply (proj2 (proj2 GenerateID_function)). reflexivity.
Defined.

(** C3 as stated fails: two devices whose tuples differ in two components
    have the same identifier, the bytes hashed being the same. *)
Lemma GenerateID_collision :
  Spec.tuple (device "a" "bc" "" "") <> Spec.tuple (device "ab" "c" "" "")
  /\ GenerateID (device "a" "bc" "" "") = GenerateID (device "ab" "c" "" "")
  /\ GenerateID (device "a" "bc" "" "") = "kAFQmD".
Proof.
  split; [discriminate |]. split; vm_compute; reflexivity.
Qed.

(** ** Type inference on the raw value *)

Lemma isDigit_byte (c : ascii) :
  strconv.isDigit c = true -> 0 <= byte c - 48 <= 9.
Proof.
  unfold strconv.isDigit. intros H.
  apply andb_true_iff in H as [H1 H2].
  apply Z.leb_le in H1. apply Z.leb_le in H2. lia.
Qed.

Lemma isDigit_not_sign (c : ascii) :
  strconv.isDigit c = true ->
  Ascii.eqb c "."%char = false /\ Ascii.eqb c "-"%char = false
  /\ Ascii.eqb c "+"%char = false.
Proof.
  intros H. apply isDigit_byte in H.
  repeat split; apply Ascii.eqb_neq; intros ->; unfold byte in H; simpl in H; lia.
Qed.

Lemma allDigits_app (a b : string) :
  regexp.allDigits (a ++ b) = regexp.allDigits a && regexp.allDigits b.
Proof.
  induction a as [| c a IH]; [reflexivity |].
  simpl. rewrite IH. now rewrite andb_assoc.
Qed.

Lemma Contains_dot_cons (c : ascii) (s : string) :
  strings.Contains (String c s) "." = Ascii.eqb c "."%char || strings.Contains s ".".
Proof.
  cbn [strings.Contains String.prefix].
  destruct (ascii_dec "." c) as [<- | Hne].
  - rewrite Ascii.eqb_refl. destruct s; reflexivity.
  - destruct (Ascii.eqb_spec c "."%char) as [-> | _]; [contradiction | ].
    destruct s; reflexivity.
Qed.

Lemma allDigits_no_dot (s : string) :
  regexp.allDigits s = true -> strings.Contains s "." = false.
Proof.
  induction s as [| c s IH]; [reflexivity |].
  cbn [regexp.allDigits]. intros H. apply andb_true_iff in H as [Hc Hs].
  rewrite Contains_dot_cons, (IH Hs).
  now destruct (isDigit_not_sign c Hc) as [-> _].
Qed.

Lemma splitDot_Some (s ip fp : string) :
  strconv.splitDot s = Some (ip, fp) ->
  s = ip ++ "." ++ fp /\ strings.Contains s "." = true.
Proof.
  revert ip. induction s as [| c s IH]; intros ip H; [discriminate |].
  cbn [strconv.splitDot] in H. rewrite Contains_dot_cons.
  destruct (Ascii.eqb_spec c "."%char) as [-> | Hne].
  - injection H as <- <-. split; reflexivity.
  - destruct (strconv.splitDot s) as [[a b] |]; [| discriminate].
    injection H as <- <-. destruct (IH a eq_refl) as [-> Hc].
    split; [reflexivity |]. rewrite Hc. apply orb_true_r.
Qed.

(** The pattern of the code accepts what one of the two patterns of the
    specification accepts. *)
Lemma MatchString_general (e : bool) (b : string) :
  (let '(d, r) := regexp.spanDigits b in
   (e || negb (String.eqb d ""))
   && match r with
      | EmptyString => true
      | String c r' => Ascii.eqb c "."%char && regexp.digits1 r'
      end)
  = ((e || negb (String.eqb b "")) && regexp.allDigits b)
    || match strconv.splitDot b with
       | Some (ip, fp) =>
         (e || negb (String.eqb ip "")) && regexp.allDigits ip && regexp.digits1 fp
       | None => false
       end.
Proof.
  revert e. induction b as [| c b IH]; intros e.
  - cbn. now rewrite !orb_false_r, andb_true_r.
  - cbn [regexp.spanDigits regexp.allDigits strconv.splitDot].
    destruct (strconv.isDigit c) eqn:Hc.
    + destruct (isDigit_not_sign c Hc) as [-> _].
      specialize (IH true).
      destruct (regexp.spanDigits b) as [d r].
      cbn [String.eqb negb orb andb] in *. rewrite !orb_true_r.
      cbn [andb]. rewrite IH.
      destruct (strconv.splitDot b) as [[ip fp] |];
        cbn [String.eqb negb orb andb regexp.allDigits];
        rewrite ?orb_true_r, ?Hc; reflexivity.
    + cbn [String.eqb negb orb andb]. rewrite orb_false_r.
      destruct (Ascii.eqb c "."%char) eqn:Hd.
      * cbn [String.eqb negb orb andb regexp.allDigits].
        rewrite !orb_false_r, !andb_true_r. rewrite andb_false_r. reflexivity.
      * rewrite andb_false_r. cbn [andb orb].
        destruct (strconv.splitDot b) as [[ip fp] |];
          cbn [regexp.allDigits]; rewrite ?Hc, ?andb_false_r; reflexivity.
Qed.

Lemma MatchString_patterns (s : string) :
  regexp.MatchString s = Spec.intPattern s || Spec.floatPattern s.
Proof.
  unfold regexp.MatchString.
  pose proof (MatchString_general false (regexp.optMinus s)) as H.
  cbn [orb] in H.
  destruct (regexp.spanDigits (regexp.optMinus s)) as [d r].
  rewrite H. unfold Spec.intPattern, Spec.floatPattern.
  unfold regexp.digits1 at 2 3.
  destruct (strconv.splitDot (regexp.optMinus s)) as [[ip fp] |]; reflexivity.
Qed.

Lemma intPattern_no_dot (s : string) :
  Spec.intPattern s = true -> strings.Contains s "." = false.
Proof.
  unfold Spec.intPattern, regexp.digits1. intros H.
  apply andb_true_iff in H as [_ H].
  destruct s as [| c s]; [reflexivity |].
  cbn [regexp.optMinus] in H. rewrite Contains_dot_cons.
  destruct (Ascii.eqb_spec c "-"%char) as [-> | _].
  - now rewrite (allDigits_no_dot s H).
  - rewrite <- Contains_dot_cons. now apply allDigits_no_dot.
Qed.

Lemma floatPattern_dot (s : string) :
  Spec.floatPattern s = true -> strings.Contains s "." = true.
Proof.
  unfold Spec.floatPattern. intros H.
  destruct (strconv.splitDot (regexp.optMinus s)) as [[ip fp] |] eqn:E;
    [| discriminate].
  apply splitDot_Some in E as [_ E].
  destruct s as [| c s]; [discriminate E |].
  cbn [regexp.optMinus] in E. rewrite Contains_dot_cons.
  destruct (Ascii.eqb c "-"%char).
  - rewrite E. apply orb_true_r.
  - now rewrite <- Contains_dot_cons.
Qed.

Lemma patterns_disjoint (s : string) :
  Spec.intPattern s = true -> Spec.floatPattern s = false.
Proof.
  intros H. destruct (Spec.floatPattern s) eqn:F; [| reflexivity].
  apply intPattern_no_dot in H. apply floatPattern_dot in F. congruence.
Qed.

Lemma digitsValue_total (s : string) (acc : Z) :
  regexp.allDigits s = true -> 0 <= acc ->
  exists n, strconv.digitsValue acc s = Some n
            /\ 0 <= n < (acc + 1) * 10 ^ Z.of_nat (len s).
Proof.
  revert acc. induction s as [| c s IH]; intros acc H Hacc.
  - exists acc. split; [reflexivity |]. cbn. lia.
  - cbn [regexp.allDigits] in H. apply andb_true_iff in H as [Hc Hs].
    cbn [strconv.digitsValue]. rewrite Hc.
    pose proof (isDigit_byte c Hc) as Hb.
    destruct (IH (acc * 10 + (byte c - 48)) Hs ltac:(lia)) as (n & -> & Hn).
    exists n. split; [reflexivity |].
    unfold len in *. cbn [String.length].
    rewrite Nat2Z.inj_succ, Z.pow_succ_r by lia.
    assert (0 < 10 ^ Z.of_nat (String.length s)) by (apply Z.pow_pos_nonneg; lia).
    nia.
Qed.

Lemma ParseInt_intPattern (s : string) :
  Spec.intPattern s = true ->
  strconv.ParseInt s
  = if Spec.inInt64 (Spec.literalValue s) then Some (Spec.literalValue s) else None.
Proof.
  unfold Spec.intPattern, regexp.digits1. intros H.
  apply andb_true_iff in H as [Hne Hd].
  destruct s as [| c s]; [discriminate Hne |].
  unfold strconv.ParseInt, Spec.literalValue, Spec.inInt64.
  cbn [regexp.optMinus strconv.splitSign] in *.
  destruct (Ascii.eqb c "-"%char) eqn:Hm.
  - destruct s as [| c' s]; [discriminate Hne |].
    destruct (digitsValue_total _ 0 Hd ltac:(lia)) as (n & Hn & Hr).
    unfold strconv.parseDigits, Spec.digitsNumber. rewrite Hn.
    destruct (n <=? 2 ^ 63) eqn:E.
    + apply Z.leb_le in E.
      replace (- 2 ^ 63 <=? - n) with true by (symmetry; apply Z.leb_le; lia).
      replace (- n <? 2 ^ 63) with true by (symmetry; apply Z.ltb_lt; lia).
      reflexivity.
    + apply Z.leb_gt in E.
      replace (- 2 ^ 63 <=? - n) with false by (symmetry; apply Z.leb_gt; lia).
      reflexivity.
  - assert (Hc : strconv.isDigit c = true).
    { cbn [regexp.allDigits] in Hd. now apply andb_true_iff in Hd as [Hc _]. }
    destruct (isDigit_not_sign c Hc) as (_ & _ & ->).
    destruct (digitsValue_total _ 0 Hd ltac:(lia)) as (n & Hn & Hr).
    unfold strconv.parseDigits, Spec.digitsNumber. rewrite Hn.
    destruct (n <? 2 ^ 63) eqn:E.
    + apply Z.ltb_lt in E.
      replace (- 2 ^ 63 <=? n) with true by (symmetry; apply Z.leb_le; lia).
      reflexivity.
    + replace (- 2 ^ 63 <=? n) with true by (symmetry; apply Z.leb_le; lia).
      reflexivity.
Qed.

Lemma len_app (a b : string) : len (a ++ b) = (len a + len b)%nat.
Proof.
  unfold len. induction a as [| c a IH]; [reflexivity |].
  simpl. now rewrite IH.
Qed.

Lemma float64_bound : 10 ^ 300 < 2 ^ 1024 - 2 ^ 970.
Proof. apply Z.ltb_lt. vm_compute. reflexivity. Qed.

Lemma parseFloat_digits (neg : bool) (body ip fp : string) :
  strconv.splitDot body = Some (ip, fp) ->
  regexp.digits1 ip = true -> regexp.digits1 fp = true ->
  (len ip <= 300)%nat ->
  exists m, match strconv.parseDigits (ip ++ fp) with
            | Some m =>
              if strconv.overflows m (len fp) then None
              else Some (strconv.mkFloat neg m (len fp))
            | None => None
            end = Some (strconv.mkFloat neg m (len fp)).
Proof.
  unfold regexp.digits1. intros E Hi Hf Hlen.
  apply andb_true_iff in Hi as [Hine Hi].
  apply andb_true_iff in Hf as [_ Hf].
  assert (Hd : regexp.allDigits (ip ++ fp) = true)
    by (rewrite allDigits_app, Hi, Hf; reflexivity).
  destruct (digitsValue_total _ 0 Hd ltac:(lia)) as (m & Hm & Hr).
  exists m.
  rewrite len_app, Nat2Z.inj_add, Z.pow_add_r in Hr by lia.
  destruct ip as [| c ip]; [discriminate Hine |].
  change (String c ip ++ fp) with (String c (ip ++ fp)) in *.
  unfold strconv.parseDigits. rewrite Hm. unfold strconv.overflows.
  destruct (_ <=? m) eqn:Ov; [exfalso | reflexivity].
  apply Z.leb_le in Ov.
  assert (10 ^ Z.of_nat (len (String c ip)) <= 10 ^ 300)
    by (apply Z.pow_le_mono_r; lia).
  assert (0 < 10 ^ Z.of_nat (len fp)) by (apply Z.pow_pos_nonneg; lia).
  pose proof float64_bound. nia.
Qed.

Lemma ParseFloat_floatPattern (s : string) :
  Spec.floatPattern s = true -> (len s <= 300)%nat ->
  strconv.ParseFloat s <> None.
Proof.
  unfold Spec.floatPattern. intros H Hlen.
  destruct s as [| c s]; [discriminate H |].
  unfold strconv.ParseFloat. cbn [regexp.optMinus strconv.splitSign] in *.
  destruct (Ascii.eqb c "-"%char) eqn:Hm.
  - destruct (strconv.splitDot s) as [[ip fp] |] eqn:E; [| discriminate H].
    apply andb_true_iff in H as [Hi Hf].
    destruct (splitDot_Some _ _ _ E) as [Hs _].
    destruct (parseFloat_digits true s ip fp E Hi Hf) as [m ->]; [| discriminate].
    subst s. unfold len in *. cbn [String.length] in Hlen.
    change String.length with len in Hlen. rewrite len_app in Hlen.
    unfold len in *. lia.
  - destruct (strconv.splitDot (String c s)) as [[ip fp] |] eqn:E; [| discriminate H].
    apply andb_true_iff in H as [Hi Hf].
    destruct (splitDot_Some _ _ _ E) as [Hs _].
    assert (Hc : strconv.isDigit c = true).
    { unfold regexp.digits1 in Hi. apply andb_true_iff in Hi as [Hne Hi].
      destruct ip as [| c' ip]; [discriminate Hne |].
      cbn [append] in Hs. injection Hs as -> _.
      cbn [regexp.allDigits] in Hi. now apply andb_true_iff in Hi as [Hi _]. }
    destruct (isDigit_not_sign c Hc) as (_ & _ & ->).
    rewrite E.
    destruct (parseFloat_digits false _ ip fp E Hi Hf) as [m ->]; [| discriminate].
    rewrite Hs, len_app in Hlen. lia.
Qed.

Lemma pattern_not_keyword (s : string) :
  Spec.intPattern s || Spec.floatPattern s = true ->
  String.eqb s "enabled" = false /\ String.eqb s "disabled" = false.
Proof.
  intros H. split.
  - destruct (String.eqb_spec s "enabled") as [-> |]; [| reflexivity].
    vm_compute in H. discriminate H.
  - destruct (String.eqb_spec s "disabled") as [-> |]; [| reflexivity].
    vm_compute in H. discriminate H.
Qed.

(** C2, as the code has it. For every raw value string [GetVariables]
    processes: [enabled] and [disabled] give the booleans true and false;
    a string matching [^-?\d+$] gives an integer when its value fits
    int64, and is left as the raw string with the declared type when it
    does not; a string matching [^-?\d+\.\d+$] gives a float when
    [ParseFloat] accepts it (as it does for every literal of at most 300
    bytes), and is left as the raw string otherwise; every other string
    keeps its string value, with type STRING. *)
Theorem inferType_cases :
  (forall nv : Var,
      inferType nv "enabled" = setValueType (VBool true) "BOOLEAN" nv)
  /\ (forall nv : Var,
        inferType nv "disabled" = setValueType (VBool false) "BOOLEAN" nv)
  /\ (forall (nv : Var) (s : string),
        Spec.intPattern s = true ->
        inferType nv s
        = if Spec.inInt64 (Spec.literalValue s)
          then setValueType (VInt64 (Spec.literalValue s)) "INTEGER" nv
          else nv)
  /\ (forall (nv : Var) (s : string),
        Spec.floatPattern s = true ->
        inferType nv s
        = match strconv.ParseFloat s with
          | Some f => setValueType (VFloat64 f) "FLOAT_64" nv
          | None => nv
          end)
  /\ (forall s : string,
        Spec.floatPattern s = true -> (len s <= 300)%nat ->
        strconv.ParseFloat s <> None)
  /\ (forall (nv : Var) (s : string),
        s <> "enabled" -> s <> "disabled" ->
        Spec.intPattern s = false -> Spec.floatPattern s = false ->
        inferType nv s = setType "STRING" nv).
Proof.
  split; [reflexivity |]. split; [reflexivity |].
  split; [| split; [| split; [exact ParseFloat_floatPattern |]]].
  - intros nv s H. unfold inferType.
    destruct (pattern_not_keyword s) as [-> ->]; [rewrite H; reflexivity |].
    rewrite MatchString_patterns, H. cbn [orb].
    rewrite (intPattern_no_dot s H), (ParseInt_intPattern s H).
    destruct (Spec.inInt64 (Spec.literalValue s)); reflexivity.
  - intros nv s H. unfold inferType.
    destruct (pattern_not_keyword s) as [-> ->];
      [rewrite H; apply orb_true_r |].
    rewrite MatchString_patterns, H, orb_true_r.
    rewrite (floatPattern_dot s H). reflexivity.
  - intros nv s H1 H2 Hi Hf. unfold inferType.
    destruct (String.eqb_spec s "enabled") as [-> | _]; [contradiction |].
    destruct (String.eqb_spec s "disabled") as [-> | _]; [contradiction |].
    rewrite MatchString_patterns, Hi, Hf. reflexivity.
Qed.

Lemma inferType_cases_witness :
  inferType (rawVar "ups.load" "50" "NUMBER") "50"
  = setValueType (VInt64 50) "INTEGER" (rawVar "ups.load" "50" "NUMBER")
  /\ inferType (rawVar "battery.voltage" "13.5" "NUMBER") "13.5"
     = setValueType (VFloat64 (strconv.mkFloat false 135 1)) "FLOAT_64"
                    (rawVar "battery.voltage" "13.5" "NUMBER")
  /\ inferType (rawVar "ups.model" "Back-UPS" "STRING:32") "Back-UPS"
     = setType "STRING" (rawVar "ups.model" "Back-UPS" "STRING:32").
Proof.
  destruct inferType_cases as (_ & _ & Hi & Hf & _ & Hs).
  split; [exact (Hi _ "50" eq_refl) |].
  split; [exact (Hf _ "13.5" eq_refl) |].
  apply Hs; [discriminate | discriminate | reflexivity | reflexivity].
Defined.

(** C2 as stated fails: a string of digits beyond int64 matches
    [^-?\d+$] and does not become an integer; its value stays the raw
    string and its type the declared one. *)
Lemma inferType_int64_overflow :
  Spec.intPattern "9223372036854775808" = true
  /\ inferType (rawVar "ups.serial" "9223372036854775808" "STRING:32")
               "9223372036854775808"
     = rawVar "ups.serial" "9223372036854775808" "STRING:32"
  /\ (forall i : Z,
        vValue (inferType (rawVar "ups.serial" "9223372036854775808" "STRING:32")
                          "9223372036854775808")
        <> VInt64 i).
Proof.
  split; [reflexivity |]. split; [vm_compute; reflexivity |].
  intros i. vm_compute. discriminate.
Qed.

(** ** The codec *)

Lemma ReadString_line (l rest : string) :
  Spec.isLine l = true -> ReadString nl (l ++ NL ++ rest) = Some (l ++ NL, rest).
Proof.
  induction l as [| c l IH]; intros H.
  - reflexivity.
  - cbn [Spec.isLine] in H. apply andb_true_iff in H as [Hc Hl].
    apply negb_true_iff in Hc.
    simpl. rewrite Hc. simpl in IH. rewrite (IH Hl). reflexivity.
Qed.

Lemma ReadString_shorter (s line rest : string) :
  ReadString nl s = Some (line, rest) -> (len rest < len s)%nat.
Proof.
  revert line. induction s as [| c s IH]; intros line H; [discriminate |].
  cbn [ReadString] in H. unfold len in *. cbn [String.length].
  destruct (Ascii.eqb c nl).
  - injection H as _ <-. lia.
  - destruct (ReadString nl s) as [[l r] |]; [| discriminate].
    injection H as _ <-. specialize (IH l eq_refl). lia.
Qed.

Lemma drop_bytes_app (a b : string) : drop_bytes (len a) (a ++ b) = b.
Proof. induction a as [| c a IH]; [reflexivity | exact IH]. Qed.

Lemma take_bytes_app (a b : string) : take_bytes (len a) (a ++ b) = a.
Proof.
  induction a as [| c a IH]; [reflexivity |].
  simpl. now rewrite IH.
Qed.

Lemma TrimSuffix_app (a b : string) : strings.TrimSuffix (a ++ b) b = a.
Proof.
  unfold strings.TrimSuffix, strings.HasSuffix.
  rewrite len_app.
  replace (len a + len b - len b)%nat with (len a) by lia.
  rewrite drop_bytes_app, String.eqb_refl, take_bytes_app.
  replace (len b <=? len a + len b)%nat with true
    by (symmetry; apply Nat.leb_le; lia).
  reflexivity.
Qed.

Lemma splitn_line (k : nat) (l : string) :
  Spec.isLine l = true -> strings.splitn k l nl = [l].
Proof.
  revert k. induction l as [| c l IH]; intros k H; [reflexivity |].
  cbn [Spec.isLine] in H. apply andb_true_iff in H as [Hc Hl].
  apply negb_true_iff in Hc.
  destruct k as [| k]; [reflexivity |].
  cbn [strings.splitn]. rewrite Hc, (IH _ Hl). reflexivity.
Qed.

Lemma splitn_nonempty (k : nat) (s : string) (sep : ascii) :
  strings.splitn k s sep <> [].
Proof.
  revert k. induction s as [| c s IH]; intros k; [discriminate |].
  destruct k as [| k]; [discriminate |].
  cbn [strings.splitn]. destruct (Ascii.eqb c sep); [discriminate |].
  destruct (strings.splitn (S k) s sep); discriminate.
Qed.

Lemma eqb_app_r (a b c : string) : String.eqb (a ++ c) (b ++ c) = String.eqb a b.
Proof.
  destruct (String.eqb_spec a b) as [-> | Hne].
  - apply String.eqb_refl.
  - apply String.eqb_neq. intros H. apply Hne.
    revert b Hne H. induction a as [| x a IH]; intros [| y b] Hne H.
    + reflexivity.
    + exfalso. apply (f_equal len) in H. cbn [append] in H.
      change (len c = len (String y (b ++ c))) in H.
      unfold len in H. cbn [String.length] in H.
      change String.length with len in H. rewrite len_app in H. lia.
    + exfalso. apply (f_equal len) in H.
      change (len (String x (a ++ c)) = len c) in H.
      unfold len in H. cbn [String.length] in H.
      change String.length with len in H. rewrite len_app in H. lia.
    + simpl in H. injection H as -> H. f_equal.
      apply IH; [congruence | exact H].
Qed.

(** One turn of the loop on a complete line. *)
Lemma readLoop_step (fuel : nat) (endLine : string) (multi : bool)
    (acc : list string) (l rest : string) :
  Spec.isLine l = true ->
  readLoop (S fuel) endLine multi acc (l ++ NL ++ rest)
  = if String.eqb (l ++ NL) endLine || negb multi
    then Some (Ok (acc ++ [l])%list, rest)
    else readLoop fuel endLine multi (acc ++ [l])%list rest.
Proof.
  intros H. cbn [readLoop]. rewrite (ReadString_line l rest H).
  rewrite TrimSuffix_app. unfold strings.Split. rewrite (splitn_line _ l H).
  replace (0 <? len (l ++ NL))%nat with true; [reflexivity |].
  symmetry. apply Nat.ltb_lt. rewrite len_app. cbn. lia.
Qed.

(** The loop never runs out of the fuel [readResponse] gives it, and a
    response it returns holds a line at least. *)
Lemma readLoop_total (fuel : nat) (endLine : string) (multi : bool)
    (acc : list string) (stream : string) :
  (len stream < fuel)%nat ->
  exists r rest,
    readLoop fuel endLine multi acc stream = Some (r, rest)
    /\ (forall resp, r = Ok resp -> resp <> []).
Proof.
  revert acc stream. induction fuel as [| fuel IH]; intros acc stream Hf; [lia |].
  cbn [readLoop].
  destruct (ReadString nl stream) as [[line rest] |] eqn:E.
  - pose proof (ReadString_shorter _ _ _ E) as Hs.
    destruct (0 <? len line)%nat.
    + destruct (String.eqb line endLine || negb multi).
      * eexists _, _. split; [reflexivity |].
        intros resp [= <-]. unfold strings.Split.
        pose proof (splitn_nonempty (len (strings.TrimSuffix line NL))
                      (strings.TrimSuffix line NL) nl) as Hne.
        destruct acc; [exact Hne | discriminate].
      * apply IH. lia.
    + apply IH. lia.
  - eexists _, _. split; [reflexivity |]. intros resp [=].
Qed.

(** ** Rules for [returns] and [safely] *)

Lemma returns_ret {A} (a : A) (s : State) (Q : A -> State -> Prop) :
  Q a s -> returns (ret a) s Q.
Proof. exact (fun H => H). Qed.

Lemma returns_bind {A B} (m : M A) (f : A -> M B) (s : State)
    (Q : B -> State -> Prop) :
  returns m s (fun a s1 => returns (f a) s1 Q) -> returns (bind m f) s Q.
Proof.
  unfold returns, bind. destruct (m s) as [a s1 | p]; [exact (fun H => H) | tauto].
Qed.

Lemma returns_weaken {A} (m : M A) (s : State) (Q Q' : A -> State -> Prop) :
  returns m s Q -> (forall a s', Q a s' -> Q' a s') -> returns m s Q'.
Proof.
  unfold returns. destruct (m s) as [a s1 | p]; [| tauto].
  intros H HQ. apply HQ, H.
Qed.


Lemma safely_ret {A} (a : A) (s : State) (Q : A -> State -> Prop) :
  Q a s -> safely (ret a) s Q.
Proof. exact (fun H => H). Qed.

Lemma safely_bind {A B} (m : M A) (f : A -> M B) (s : State)
    (Q : B -> State -> Prop) :
  safely m s (fun a s1 => safely (f a) s1 Q) -> safely (bind m f) s Q.
Proof.
  unfold safely, bind. destruct (m s) as [a s1 | p]; [exact (fun H => H) | tauto].
Qed.

Lemma safely_weaken {A} (m : M A) (s : State) (Q Q' : A -> State -> Prop) :
  safely m s Q -> (forall a s', Q a s' -> Q' a s') -> safely m s Q'.
Proof.
  unfold safely. destruct (m s) as [a s1 | p]; [| tauto].
  intros H HQ. apply HQ, H.
Qed.

Lemma returns_safely {A} (m : M A) (s : State) (Q : A -> State -> Prop) :
  returns m s Q -> safely m s Q.
Proof. unfold returns, safely. destruct (m s); tauto. Qed.

(** ** [sendCommand] returns, and writes one command *)

Lemma keeps_refl (s : State) : keeps s s.
Proof. split; reflexivity. Qed.

Lemma keeps_trans (s1 s2 s3 : State) : keeps s1 s2 -> keeps s2 s3 -> keeps s1 s3.
Proof. intros [H1 H2] [H3 H4]. split; congruence. Qed.

Lemma emitted_nil (s : State) : emitted [] s s.
Proof. split; [now rewrite app_nil_r | reflexivity]. Qed.

Lemma emitted_trans (e1 e2 : list Event) (s1 s2 s3 : State) :
  emitted e1 s1 s2 -> emitted e2 s2 s3 -> emitted (e1 ++ e2) s1 s3.
Proof.
  intros [H1 H2] [H3 H4]. split; [| congruence].
  rewrite H3, H1. now rewrite app_assoc.
Qed.

Lemma prefix_ERR_split (r0 : string) :
  strings.HasPrefix r0 "ERR " = true ->
  exists token rest, strings.Split r0 " "%char = "ERR" :: token :: rest.
Proof.
  unfold strings.HasPrefix. intros H.
  destruct r0 as [| a r0]; [discriminate H |]. cbn [String.prefix] in H.
  destruct (ascii_dec "E" a) as [<- |]; [| discriminate H].
  destruct r0 as [| b r0]; [discriminate H |]. cbn [String.prefix] in H.
  destruct (ascii_dec "R" b) as [<- |]; [| discriminate H].
  destruct r0 as [| c r0]; [discriminate H |]. cbn [String.prefix] in H.
  destruct (ascii_dec "R" c) as [<- |]; [| discriminate H].
  destruct r0 as [| d t]; [discriminate H |]. cbn [String.prefix] in H.
  destruct (ascii_dec " " d) as [<- |]; [| discriminate H].
  unfold strings.Split, len.
  cbn [String.length strings.splitn Ascii.eqb Bool.eqb].
  pose proof (splitn_nonempty (S (S (S (String.length t)))) t " "%char) as Hne.
  destruct (strings.splitn (S (S (S (String.length t)))) t " ") as [| tok l];
    [contradiction |].
  exists tok, l. reflexivity.
Qed.

Lemma sendCommand_returns (cmd : string) (s : State) :
  returns (sendCommand cmd) s (fun r s' =>
    keeps s s' /\ emitted [EvWrite (cmd ++ NL)] s s'
    /\ (forall resp, r = Ok resp -> resp <> [])).
Proof.
  unfold returns, sendCommand, Fprint, readResponse.
  unfold bind, emit, ret. cbn [client dials trace].
  destruct (conn (client s)) as [k |] eqn:Ek.
  2:{ repeat split. intros ? [=]. }
  destruct (negb (closed k) && (0 <? wr k)%nat) eqn:Ew.
  2:{ repeat split. intros ? [=]. }
  apply andb_true_iff in Ew as [Ec _]. apply negb_true_iff in Ec.
  cbn [client dials trace conn setConn closed rd]. rewrite Ec.
  match goal with
  | |- context [readLoop (S ?n) ?e ?m ?a ?st] =>
    destruct (readLoop_total (S n) e m a st (Nat.lt_succ_diag_r _))
      as (r & rest & -> & Hne)
  end.
  destruct r as [resp | err].
  2:{ repeat split. intros ? [=]. }
  specialize (Hne resp eq_refl).
  destruct resp as [| r0 resp]; [contradiction |].
  cbn [index nth_error]. unfold ret.
  destruct (strings.HasPrefix r0 "ERR ") eqn:Eerr.
  - destruct (prefix_ERR_split r0 Eerr) as (token & l & ->).
    repeat split. intros resp' [=].
  - repeat split. intros resp' [= <-]. discriminate.
Qed.

(** ** Multi-line and single-line replies *)

Lemma append_cons (x : ascii) (a b : string) : String x a ++ b = String x (a ++ b).
Proof. reflexivity. Qed.

Lemma append_assoc' (a b c : string) : (a ++ b) ++ c = a ++ b ++ c.
Proof.
  induction a as [| x a IH]; [reflexivity |].
  rewrite !append_cons. now rewrite IH.
Qed.

Lemma wire_length (l : list string) : (length l <= len (Spec.wire l))%nat.
Proof.
  induction l as [| x l IH]; [cbn; lia |].
  cbn [Spec.wire length]. rewrite !len_app. cbn [len String.length NL]. lia.
Qed.

Lemma isLine_app (a b : string) :
  Spec.isLine (a ++ b) = Spec.isLine a && Spec.isLine b.
Proof.
  induction a as [| c a IH]; [reflexivity |].
  simpl. rewrite IH. now rewrite andb_assoc.
Qed.


Lemma prefix_nil (s : string) : String.prefix "" s = true.
Proof. destruct s; reflexivity. Qed.

Lemma HasPrefix_app (p s : string) : strings.HasPrefix (p ++ s) p = true.
Proof.
  unfold strings.HasPrefix. induction p as [| c p IH]; [apply prefix_nil |].
  rewrite append_cons. cbn [String.prefix].
  destruct (ascii_dec c c); [exact IH | contradiction].
Qed.











(** ** The session: authentication, versions, reconnection *)

Lemma prefixOf_refl (evs : list Event) : prefixOf evs evs.
Proof. exists []. now rewrite app_nil_r. Qed.

Lemma prefixOf_cons (e : Event) (evs full : list Event) :
  prefixOf evs full -> prefixOf (e :: evs) (e :: full).
Proof. intros [rest ->]. now exists rest. Qed.

Lemma prefixOf_nil (full : list Event) : prefixOf [] full.
Proof. now exists full. Qed.

Ltac step lemma :=
  apply returns_bind; eapply returns_weaken; [apply lemma | cbv beta].

Lemma authenticate_returns (u p : string) (s : State) :
  returns (authenticate u p) s (fun r s' =>
    keeps s s'
    /\ exists evs,
         emitted evs s s'
         /\ prefixOf evs [EvWrite (("USERNAME " ++ u) ++ NL);
                          EvWrite (("PASSWORD " ++ p) ++ NL)]
         /\ (forall b, r = Ok b ->
               b = true
               /\ evs = [EvWrite (("USERNAME " ++ u) ++ NL);
                         EvWrite (("PASSWORD " ++ p) ++ NL)])).
Proof.
  unfold authenticate.
  step sendCommand_returns. intros r s1 (K1 & E1 & N1).
  destruct r as [resp | err].
  2:{ apply returns_ret. split; [exact K1 |].
      eexists. split; [exact E1 |].
      split; [apply prefixOf_cons, prefixOf_nil | intros b [=]]. }
  destruct resp as [| r0 resp]; [now specialize (N1 _ eq_refl) |].
  apply returns_bind. unfold index at 1. cbn [nth_error]. apply returns_ret.
  destruct (negb (String.eqb r0 "OK")).
  { apply returns_ret. split; [exact K1 |].
    eexists. split; [exact E1 |].
    split; [apply prefixOf_cons, prefixOf_nil | intros b [=]]. }
  step sendCommand_returns. intros r s2 (K2 & E2 & N2).
  pose proof (keeps_trans _ _ _ K1 K2) as K.
  pose proof (emitted_trans _ _ _ _ _ E1 E2) as E.
  destruct r as [resp' | err].
  2:{ apply returns_ret. split; [exact K |].
      eexists. split; [exact E |].
      split; [apply prefixOf_refl | intros b [=]]. }
  destruct resp' as [| r1 resp']; [now specialize (N2 _ eq_refl) |].
  apply returns_bind. unfold index at 1. cbn [nth_error]. apply returns_ret.
  destruct (negb (String.eqb r1 "OK")).
  - apply returns_ret. split; [exact K |].
    eexists. split; [exact E |].
    split; [apply prefixOf_refl | intros b [=]].
  - apply returns_ret. split; [exact K |].
    eexists. split; [exact E |].
    split; [apply prefixOf_refl | intros b [= <-]; split; reflexivity].
Qed.

Lemma getVersion_returns (s : State) :
  returns getVersion s (fun r s' =>
    keeps s s' /\ emitted [EvWrite ("VER" ++ NL)] s s').
Proof.
  unfold getVersion.
  step sendCommand_returns. intros r s1 (K1 & E1 & N1).
  destruct r as [resp | err]; [| apply returns_ret; split; assumption].
  destruct resp as [| r0 resp]; [now specialize (N1 _ eq_refl) |].
  cbn [length Nat.ltb Nat.leb].
  apply returns_bind. unfold index at 1. cbn [nth_error]. apply returns_ret.
  apply returns_bind. unfold returns, modifyClient, ret.
  destruct K1 as [L1 C1]. destruct E1 as [T1 D1].
  repeat split; assumption.
Qed.

Lemma getNetworkProtocolVersion_returns (s : State) :
  returns getNetworkProtocolVersion s (fun r s' =>
    keeps s s' /\ emitted [EvWrite ("NETVER" ++ NL)] s s').
Proof.
  unfold getNetworkProtocolVersion.
  step sendCommand_returns. intros r s1 (K1 & E1 & N1).
  destruct r as [resp | err]; [| apply returns_ret; split; assumption].
  destruct resp as [| r0 resp]; [now specialize (N1 _ eq_refl) |].
  cbn [length Nat.ltb Nat.leb].
  apply returns_bind. unfold index at 1. cbn [nth_error]. apply returns_ret.
  apply returns_bind. unfold returns, modifyClient, ret.
  destruct K1 as [L1 C1]. destruct E1 as [T1 D1].
  repeat split; assumption.
Qed.

Lemma config_eq (c c' : Client) :
  config c' = config c ->
  hostname c' = hostname c /\ port c' = port c /\ username c' = username c
  /\ password c' = password c /\ poolInterval c' = poolInterval c.
Proof. unfold config. intros [= -> -> -> -> ->]. repeat split. Qed.

Lemma closeConn_returns (s : State) :
  returns closeConn s (fun _ s' =>
    keeps s s' /\ emitted (closeEvents s) s s').
Proof.
  unfold returns, closeConn, closeEvents, bind, getClient, emit, modifyClient, ret.
  destruct (conn (client s)); repeat split.
  cbn. now rewrite app_nil_r.
Qed.

Lemma dial_returns (addr : string) (s : State) :
  returns (dial addr) s (fun d s' =>
    client s' = client s
    /\ match d with
       | ResolveError => trace s' = (trace s ++ [EvResolve addr])%list
       | _ => trace s' = (trace s ++ [EvResolve addr; EvDial])%list
              /\ dials s = d :: dials s'
       end).
Proof.
  unfold returns, dial, bind, emit, ret. cbn [client dials trace].
  destruct (dials s) as [| [| | k] ds]; cbn [client dials trace];
    repeat split; now rewrite <- app_assoc.
Qed.

(** [Reconnect] returns; the registry, the settings and the order of its
    actions. *)
Lemma Reconnect_returns (s : State) :
  returns Reconnect s (fun e s' =>
    list_ (client s') = list_ (client s)
    /\ config (client s') = config (client s)
    /\ exists evs,
         trace s'
         = (trace s ++ closeEvents s
              ++ EvResolve (hostname (client s) ++ ":" ++ port (client s)) :: evs)%list
         /\ prefixOf evs (handshake (client s))
         /\ (e = None ->
             evs = handshake (client s)
             /\ exists k, dials s = Connected k :: dials s')).
Proof.
  unfold Reconnect.
  step closeConn_returns. intros _ s0 ([L0 C0] & [T0 D0]).
  apply returns_bind. unfold getClient at 1. unfold returns at 1.
  destruct (config_eq _ _ C0) as (Hh & Hp & Hu & Hw & _).
  rewrite Hh, Hp, Hu, Hw.
  step dial_returns. intros d s1 [Hc1 Hd1].
  assert (K1 : list_ (client s1) = list_ (client s)
               /\ config (client s1) = config (client s))
    by (rewrite Hc1; split; assumption).
  destruct d as [| | k].
  - apply returns_ret. destruct K1. repeat split; try assumption.
    exists []. split; [now rewrite Hd1, T0, <- app_assoc |].
    split; [apply prefixOf_nil | intros [=]].
  - apply returns_ret. destruct K1. destruct Hd1 as [Hd1 _].
    repeat split; try assumption.
    exists [EvDial]. split; [now rewrite Hd1, T0, <- !app_assoc |].
    split; [apply prefixOf_cons, prefixOf_nil | intros [=]].
  - destruct Hd1 as [Hd1 Hds]. destruct K1 as [L1 C1].
    apply returns_bind. unfold modifyClient at 1. unfold returns at 1.
    apply returns_bind. unfold modifyClient at 1. unfold returns at 1.
    set (s2 := mkState _ _ _).
    assert (K2 : keeps s s2) by (split; [exact L1 | exact C1]).
    assert (T2 : trace s2
                 = (trace s ++ closeEvents s
                      ++ EvResolve (hostname (client s) ++ ":" ++ port (client s))
                      :: [EvDial])%list)
      by (cbn [s2 trace]; now rewrite Hd1, T0, <- !app_assoc).
    assert (D2 : dials s = Connected k :: dials s2)
      by (cbn [s2 dials]; now rewrite <- D0).
    clearbody s2.
    step authenticate_returns. intros a s3 (K3 & evs & [T3 D3] & P3 & S3).
    pose proof (keeps_trans _ _ _ K2 K3) as [L3' C3'].
    destruct a as [status | err].
    2:{ apply returns_ret. repeat split; try assumption.
        exists (EvDial :: evs). split.
        - rewrite T3, T2, <- !app_assoc. reflexivity.
        - split; [| intros [=]].
          destruct P3 as [rest P3]. exists (rest ++ [EvWrite ("VER" ++ NL);
                                                    EvWrite ("NETVER" ++ NL)])%list.
          unfold handshake. cbn [app]. f_equal.
          change (?a :: ?b :: ?t) with ([a; b] ++ t)%list.
          rewrite P3, <- !app_assoc. reflexivity. }
    destruct (S3 status eq_refl) as [-> ->]. cbn [negb].
    step getVersion_returns. intros v s4 (K4 & [T4 D4]).
    pose proof (keeps_trans _ _ _ (conj L3' C3') K4) as [L4 C4].
    destruct v as [v | err].
    2:{ apply returns_ret. repeat split; try assumption.
        eexists. split.
        - rewrite T4, T3, T2, <- !app_assoc. cbn [app]. reflexivity.
        - split; [| intros [=]].
          exists [EvWrite ("NETVER" ++ NL)]. reflexivity. }
    step getNetworkProtocolVersion_returns. intros n s5 (K5 & [T5 D5]).
    pose proof (keeps_trans _ _ _ (conj L4 C4) K5) as [L5 C5].
    assert (T : trace s5
                = (trace s ++ closeEvents s
                     ++ EvResolve (hostname (client s) ++ ":" ++ port (client s))
                     :: handshake (client s))%list)
      by (rewrite T5, T4, T3, T2, <- !app_assoc; reflexivity).
    destruct n as [n | err]; apply returns_ret; repeat split; try assumption.
    + eexists. split; [exact T |]. split; [apply prefixOf_refl |].
      intros _. split; [reflexivity |]. exists k. congruence.
    + eexists. split; [exact T |]. split; [apply prefixOf_refl | intros [=]].
Qed.



(** A reconnection with a device in the registry: the connection is
    replaced, the versions are read again, the registry is the same. *)
Lemma Reconnect_example :
  match Reconnect reconnecting with
  | Done e s' =>
    e = None
    /\ list_ (client s') = list_ (client reconnecting)
    /\ Version (client s') = versionLine
    /\ ProtocolVersion (client s') = "1.3"
    /\ trace s'
       = [ EvClose; EvResolve "nut.lan:3493"; EvDial;
           EvWrite ("USERNAME monitor" ++ NL); EvWrite ("PASSWORD secret" ++ NL);
           EvWrite ("VER" ++ NL); EvWrite ("NETVER" ++ NL) ]
  | Crash _ => False
  end.
Proof. vm_compute. repeat split; reflexivity. Qed.

(** ** Computations that leave the registry alone *)

Lemma quietly_ret (P : Event -> bool) {A} (a : A) : quietly P (ret a).
Proof.
  intros s. apply safely_ret. split; [apply keeps_refl |].
  exists []. split; [apply emitted_nil | reflexivity].
Qed.

Lemma quietly_panic (P : Event -> bool) {A} (msg : string) :
  quietly P (@panic A msg).
Proof. intros s. exact I. Qed.

Lemma quietly_bind (P : Event -> bool) {A B} (m : M A) (f : A -> M B) :
  quietly P m -> (forall a, quietly P (f a)) -> quietly P (bind m f).
Proof.
  intros Hm Hf s. apply safely_bind.
  eapply safely_weaken; [apply Hm |]. cbv beta.
  intros a s1 (K1 & e1 & E1 & P1).
  eapply safely_weaken; [apply Hf |]. cbv beta.
  intros b s2 (K2 & e2 & E2 & P2).
  split; [eapply keeps_trans; eassumption |].
  exists (e1 ++ e2)%list. split; [eapply emitted_trans; eassumption |].
  rewrite forallb_app, P1, P2. reflexivity.
Qed.

Lemma quietly_emit (P : Event -> bool) (e : Event) :
  P e = true -> quietly P (emit e).
Proof.
  intros He s. unfold safely, emit. split; [split; reflexivity |].
  exists [e]. split; [split; reflexivity |]. cbn. now rewrite He.
Qed.

Lemma quietly_index (P : Event -> bool) {A} (l : list A) (i : nat) :
  quietly P (index l i).
Proof.
  unfold index. destruct (nth_error l i); [apply quietly_ret | apply quietly_panic].
Qed.

Lemma quietly_interior (P : Event -> bool) {A} (l : list A) :
  quietly P (interior l).
Proof.
  unfold interior. destruct (length l <? 2)%nat;
    [apply quietly_panic | apply quietly_ret].
Qed.

Lemma quietly_sendCommand (P : Event -> bool) (cmd : string) :
  P (EvWrite (cmd ++ NL)) = true -> quietly P (sendCommand cmd).
Proof.
  intros HP s. apply returns_safely.
  eapply returns_weaken; [apply sendCommand_returns |]. cbv beta.
  intros r s1 (K & E & _). split; [exact K |].
  eexists. split; [exact E |]. cbn. now rewrite HP.
Qed.

Ltac quiet :=
  repeat first
    [ apply quietly_ret
    | apply quietly_panic
    | apply quietly_index
    | apply quietly_interior
    | apply quietly_sendCommand; reflexivity
    | apply quietly_emit; reflexivity
    | apply quietly_bind; [| intros]
    | match goal with
      | |- quietly _ (match ?x with _ => _ end) => destruct x
      | |- quietly _ (if ?b then _ else _) => destruct b
      end ].

Lemma quietly_GetDescription (u : UPS) : quietly anyEvent (GetDescription u).
Proof. unfold GetDescription. quiet. Qed.

Lemma quietly_GetClients (u : UPS) : quietly anyEvent (GetClients u).
Proof. unfold GetClients. quiet. Qed.

Lemma quietly_GetCommandDescription (P : Event -> bool) (u : UPS) (name : string) :
  (forall d, P (EvWrite ("GET " ++ d)) = true) ->
  quietly P (GetCommandDescription u name).
Proof.
  intros HP. unfold GetCommandDescription.
  apply quietly_bind; [apply quietly_sendCommand, HP | intros]. quiet.
Qed.

Lemma quietly_commandsLoop (u : UPS) (linePrefix : string) (lines : list string)
    (acc : list Command) :
  quietly anyEvent (commandsLoop u linePrefix lines acc).
Proof.
  revert acc. induction lines as [| line rest IH]; intros acc; cbn [commandsLoop].
  - quiet.
  - apply quietly_bind;
      [apply quietly_GetCommandDescription; reflexivity | intros d].
    destruct d; [apply IH | quiet].
Qed.

Lemma quietly_GetCommands (u : UPS) : quietly anyEvent (GetCommands u).
Proof.
  unfold GetCommands.
  apply quietly_bind; [quiet | intros r]. destruct r; [| quiet].
  apply quietly_bind; [quiet | intros lines].
  apply quietly_bind; [apply quietly_commandsLoop | intros l]. quiet.
Qed.

Lemma quietly_GetVariableDescription (u : UPS) (name : string) :
  quietly isGet (GetVariableDescription u name).
Proof. unfold GetVariableDescription. quiet. Qed.

Lemma quietly_GetVariableType (u : UPS) (name : string) :
  quietly isGet (GetVariableType u name).
Proof. unfold GetVariableType. quiet. Qed.

Lemma quietly_variablesLoop (u : UPS) (offset : string) (lines : list string)
    (vars : list Var) :
  quietly isGet (variablesLoop u offset lines vars).
Proof.
  revert vars. induction lines as [| line rest IH]; intros vars;
    cbn [variablesLoop].
  - quiet.
  - destruct (length _ <? 2)%nat; [apply IH |].
    apply quietly_bind; [quiet | intros s0].
    apply quietly_bind; [quiet | intros s1].
    apply quietly_bind; [apply quietly_GetVariableDescription | intros d].
    destruct d as [description | err]; [| quiet].
    apply quietly_bind; [apply quietly_GetVariableType | intros t].
    destruct t as [[[varType writeable] maximumLength] | err]; [apply IH | quiet].
Qed.

(** [GetVariables] writes the [LIST VAR] command, then [GET] commands
    only; it leaves the device as it was unless it succeeds, and then it
    replaces the snapshot and nothing else. *)
Lemma GetVariables_safely (u : UPS) (s : State) :
  safely (GetVariables u) s (fun p s' =>
    keeps s s'
    /\ (exists evs,
          emitted (EvWrite (("LIST VAR " ++ Name u) ++ NL) :: evs) s s'
          /\ forallb isGet evs = true)
    /\ match snd p with
       | Err _ => fst p = u
       | Ok vars => fst p = setVariables vars u
       end).
Proof.
  unfold GetVariables. apply safely_bind. apply returns_safely.
  eapply returns_weaken; [apply sendCommand_returns |]. cbv beta.
  intros r s1 (K1 & E1 & _).
  destruct r as [resp | err].
  2:{ apply safely_ret. split; [exact K1 |].
      split; [exists []; split; [exact E1 | reflexivity] | reflexivity]. }
  apply safely_bind.
  eapply safely_weaken; [apply (quietly_interior isGet) |]. cbv beta.
  intros lines s2 (K2 & e2 & E2 & P2).
  apply safely_bind.
  eapply safely_weaken; [apply quietly_variablesLoop |]. cbv beta.
  intros l s3 (K3 & e3 & E3 & P3).
  pose proof (keeps_trans _ _ _ K1 (keeps_trans _ _ _ K2 K3)) as K.
  pose proof (emitted_trans _ _ _ _ _ E1 (emitted_trans _ _ _ _ _ E2 E3)) as E.
  assert (P : forallb isGet (e2 ++ e3) = true)
    by (rewrite forallb_app, P2, P3; reflexivity).
  destruct l as [vars | err]; apply safely_ret;
    (split; [exact K |]); (split; [exists (e2 ++ e3)%list; split; assumption |]);
    reflexivity.
Qed.

Lemma quietly_GetVariables (u : UPS) : quietly anyEvent (GetVariables u).
Proof.
  intros s. eapply safely_weaken; [apply GetVariables_safely |]. cbv beta.
  intros p s' (K & (evs & E & P) & _). split; [exact K |].
  eexists. split; [exact E |]. apply forallb_forall. reflexivity.
Qed.

Lemma quietly_extract (u : UPS) (variable : Var) :
  quietly anyEvent (extract u variable).
Proof. unfold extract. quiet. Qed.

Lemma quietly_extractAll (vars : list Var) (u : UPS) :
  quietly anyEvent (extractAll u vars).
Proof.
  revert u. induction vars as [| v vars IH]; intros u; cbn [extractAll].
  - quiet.
  - apply quietly_bind; [apply quietly_extract | intros u']. apply IH.
Qed.

Lemma quietly_NewUPS (server name : string) (poolInterval : Z) :
  quietly anyEvent (NewUPS server name poolInterval).
Proof.
  unfold NewUPS.
  apply quietly_bind; [apply quietly_GetDescription | intros [u r]].
  destruct r; [| quiet].
  apply quietly_bind; [apply quietly_GetClients | intros [u1 r1]].
  destruct r1; [| quiet].
  apply quietly_bind; [apply quietly_GetCommands | intros [u2 r2]].
  destruct r2; [| quiet].
  apply quietly_bind; [apply quietly_GetVariables | intros [u3 r3]].
  destruct r3; [| quiet].
  apply quietly_bind; [apply quietly_extractAll | intros u4].
  apply quietly_bind; [unfold NewTicker; quiet | intros _]. quiet.
Qed.

(** ** The variable snapshot *)

(** C10. If [GetVariables] returns an error, whichever command failed,
    the device is what it was, its stored snapshot [u.Variables]
    included; the snapshot is replaced, as a whole and with nothing else
    changed, only when the fetch succeeds. *)
Theorem GetVariables_error_keeps_snapshot (u u' : UPS) (s s' : State)
    (r : result (list Var)) :
  GetVariables u s = Done (u', r) s' ->
  match r with
  | Err _ => u' = u /\ Variables u' = Variables u
  | Ok vars => u' = setVariables vars u /\ Variables u' = vars
  end.
Proof.
  intros H. pose proof (GetVariables_safely u s) as G.
  unfold safely in G. rewrite H in G. destruct G as (_ & _ & G).
  cbn [fst snd] in G. destruct r; subst u'; split; reflexivity.
Qed.

Lemma GetVariables_error_keeps_snapshot_witness :
  match GetVariables loadExample refusedDescription with
  | Done (u', Err _) _ => Variables u' = Variables loadExample
  | _ => False
  end.
Proof.
  pose proof (GetVariables_error_keeps_snapshot loadExample) as T.
  destruct (GetVariables loadExample refusedDescription) as [[u' r] s' | p] eqn:E.
  - specialize (T u' _ s' r E). destruct r as [vars | err].
    + vm_compute in E. discriminate E.
    + apply T.
  - vm_compute in E. discriminate E.
Defined.

(** ** Discovery *)

Lemma setList_same (c : Client) : setList (list_ c) c = c.
Proof. destruct c; reflexivity. Qed.

Lemma state_eta (s : State) : mkState (client s) (dials s) (trace s) = s.
Proof. destruct s; reflexivity. Qed.

(** One turn of the loop of [getListOfUPS], and of its instrumented
    copy. *)
Lemma discover_step (line : string) (rest : list string) (s : State) :
  discover (line :: rest) s
  = if strings.HasPrefix line "UPS " then
      match nth_error (strings.Split (strings.TrimPrefix line "UPS ") dquote) 0 with
      | None => Crash "index out of range"
      | Some s0 =>
        match NewUPS (hostname (client s) ++ ":" ++ port (client s))
                     (strings.TrimSuffix s0 " ") (poolInterval (client s)) s with
        | Crash p => Crash p
        | Done (Err _) s1 =>
          discover rest
            (mkState (client s1) (dials s1)
               (trace s1 ++ [EvLog "[ERROR] failed to create UPS %s: %s"])%list)
        | Done (Ok ups) s1 =>
          discover rest
            (mkState (setList (Spec.register (list_ (client s1)) ups) (client s1))
                     (dials s1) (trace s1))
        end
      end
    else discover rest s.
Proof.
  cbn [discover]. destruct (strings.HasPrefix line "UPS "); [| reflexivity].
  unfold bind, index, getClient.
  destruct (nth_error _ 0) as [s0 |]; [| reflexivity].
  unfold ret at 1.
  destruct (NewUPS _ _ _ s) as [[ups | err] s1 | p]; try reflexivity.
  unfold Spec.register, modifyClient, ret.
  destruct (list_ (client s1) !! ID ups); [| reflexivity].
  now rewrite setList_same, state_eta.
Qed.

Lemma bootstrapped_step (line : string) (rest : list string) (s : State) :
  bootstrapped (line :: rest) s
  = if strings.HasPrefix line "UPS " then
      match nth_error (strings.Split (strings.TrimPrefix line "UPS ") dquote) 0 with
      | None => Crash "index out of range"
      | Some s0 =>
        match NewUPS (hostname (client s) ++ ":" ++ port (client s))
                     (strings.TrimSuffix s0 " ") (poolInterval (client s)) s with
        | Crash p => Crash p
        | Done (Err _) s1 =>
          bootstrapped rest
            (mkState (client s1) (dials s1)
               (trace s1 ++ [EvLog "[ERROR] failed to create UPS %s: %s"])%list)
        | Done (Ok ups) s1 =>
          match bootstrapped rest
                  (mkState (setList (Spec.register (list_ (client s1)) ups) (client s1))
                           (dials s1) (trace s1)) with
          | Done us s' => Done (ups :: us) s'
          | Crash p => Crash p
          end
        end
      end
    else bootstrapped rest s.
Proof.
  cbn [bootstrapped]. destruct (strings.HasPrefix line "UPS "); [| reflexivity].
  unfold bind, index, getClient.
  destruct (nth_error _ 0) as [s0 |]; [| reflexivity].
  unfold ret at 1.
  destruct (NewUPS _ _ _ s) as [[ups | err] s1 | p]; reflexivity.
Qed.

(** The registry after a discovery pass that returns: the devices for
    which [NewUPS] returned no error, registered in the order of the
    reply, the first device of an identifier winning; a device whose
    bootstrap returns an error is logged and skipped. *)
Lemma discover_registry (lines : list string) (s : State) :
  safely (discover lines) s (fun _ s' =>
    exists us,
      bootstrapped lines s = Done us s'
      /\ list_ (client s') = Spec.firstWins (list_ (client s)) us).
Proof.
  revert s. induction lines as [| line rest IH]; intros s.
  - exists []. split; reflexivity.
  - unfold safely. rewrite discover_step, bootstrapped_step.
    destruct (strings.HasPrefix line "UPS "); [| apply IH].
    destruct (nth_error _ 0) as [s0 |]; [| exact I].
    pose proof (quietly_NewUPS (hostname (client s) ++ ":" ++ port (client s))
                  (strings.TrimSuffix s0 " ") (poolInterval (client s)) s) as Q.
    unfold safely in Q.
    destruct (NewUPS _ _ _ s) as [r s1 | p]; [| exact I].
    destruct Q as ([L1 _] & _).
    destruct r as [ups | err].
    + set (s2 := mkState _ _ _).
      specialize (IH s2). unfold safely in IH.
      destruct (discover rest s2) as [[] s' | p]; [| exact I].
      destruct IH as (us & -> & Hl).
      exists (ups :: us). split; [reflexivity |].
      rewrite Hl. cbn [s2 client list_ setList Spec.firstWins fold_left].
      now rewrite L1.
    + set (s2 := mkState _ _ _).
      specialize (IH s2). unfold safely in IH.
      destruct (discover rest s2) as [[] s' | p]; [| exact I].
      destruct IH as (us & -> & Hl).
      exists us. split; [reflexivity |].
      rewrite Hl. cbn [s2 client]. now rewrite L1.
Qed.

Lemma register_lookup (reg : gmap string UPS) (u : UPS) (id : string) :
  Spec.register reg u !! id
  = match reg !! id with
    | Some v => Some v
    | None => if String.eqb (ID u) id then Some u else None
    end.
Proof.
  unfold Spec.register.
  destruct (String.eqb_spec (ID u) id) as [<- | Hne].
  - destruct (reg !! ID u) as [v |] eqn:E; [now rewrite E |].
    now rewrite lookup_insert_eq.
  - destruct (reg !! ID u) as [v |] eqn:E.
    + now destruct (reg !! id).
    + rewrite lookup_insert_ne by exact Hne. now destruct (reg !! id).
Qed.

(** First wins: an identifier of the registry keeps its device, a new
    identifier gets the first device constructed with it. *)
Lemma firstWins_lookup (us : list UPS) (reg : gmap string UPS) (id : string) :
  Spec.firstWins reg us !! id
  = match reg !! id with
    | Some v => Some v
    | None => List.find (fun u => String.eqb (ID u) id) us
    end.
Proof.
  revert reg. induction us as [| u us IH]; intros reg.
  - cbn. now destruct (reg !! id).
  - cbn [Spec.firstWins fold_left List.find].
    change (fold_left Spec.register us (Spec.register reg u))
      with (Spec.firstWins (Spec.register reg u) us).
    rewrite IH, register_lookup.
    destruct (reg !! id); [reflexivity |].
    now destruct (String.eqb (ID u) id).
Qed.

(** The registry after [getListOfUPS], when it returns: unchanged if the
    [LIST UPS] command failed; else nil is returned, and the registry
    holds the devices that were constructed without error, first wins. *)
Lemma getListOfUPS_registry (s : State) :
  safely getListOfUPS s (fun e s' =>
    match e with
    | Some _ => list_ (client s') = list_ (client s)
    | None =>
      exists resp s1 us,
        sendCommand "LIST UPS" s = Done (Ok resp) s1
        /\ bootstrapped resp s1 = Done us s'
        /\ list_ (client s') = Spec.firstWins (list_ (client s)) us
    end).
Proof.
  unfold safely, getListOfUPS, bind.
  pose proof (sendCommand_returns "LIST UPS" s) as R. unfold returns in R.
  destruct (sendCommand "LIST UPS" s) as [r s1 | p]; [| contradiction].
  destruct R as ([L1 _] & _).
  destruct r as [resp | err]; [| exact L1].
  pose proof (discover_registry resp s1) as D. unfold safely in D.
  destruct (discover resp s1) as [[] s' | p]; [| exact I].
  destruct D as (us & Hb & Hl).
  exists resp, s1, us. split; [reflexivity |]. split; [exact Hb |].
  now rewrite Hl, L1.
Qed.

(** A pass in which the server refuses the first device and lists the
    second one twice: the first device is logged and left out, the second
    is registered once, with what its first bootstrap fetched. *)
Lemma getListOfUPS_partial :
  match getListOfUPS partialDiscovery with
  | Done e s' =>
    e = None
    /\ map (fun p => (fst p, Name (snd p), GetStatus (snd p)))
           (map_to_list (list_ (client s')))
       = [("-hjR93", "desk", ("Online", "OL", None))]
    /\ count (fun e => match e with EvLog _ => true | _ => false end) (trace s')
       = 3%nat
  | Crash _ => False
  end.
Proof. vm_compute. repeat split; reflexivity. Qed.

(** C7 fails on the code. The first of two devices reports a model made
    of digits; its value is inferred to be an integer, and the type
    assertion of [NewUPS] on [ups.model] panics: the discovery pass is
    aborted, no registry results, and the second device, which would
    bootstrap, is never asked for. A metadata fetch that meets a reply
    without its opening line aborts the pass in the same way, on the
    slice [resp[1 : len(resp)-1]] of [GetClients]. *)
Theorem getListOfUPS_panics_on_numeric_model :
  getListOfUPS numericModel
  = Crash "interface conversion: interface {} is not string"
  /\ inferType (rawVar "ups.model" "1500" "NUMBER") "1500"
     = setValueType (VInt64 1500) "INTEGER" (rawVar "ups.model" "1500" "NUMBER")
  /\ getListOfUPS truncatedClients = Crash "slice bounds out of range".
Proof. repeat split; vm_compute; reflexivity. Qed.

(** ** The poller *)

(** The tick, spelled out: one fetch; on its error one [Reconnect]; on
    the success of that one more fetch, whose outcome is only logged. *)
Lemma pollTick_unfold (u : UPS) (s : State) :
  pollTick u s
  = match GetVariables u s with
    | Crash p => Crash p
    | Done (u1, Ok _) s1 => Done u1 s1
    | Done (u1, Err _) s1 =>
      match Reconnect (logged "[ERROR] failed to poll %s variables: %v" s1) with
      | Crash p => Crash p
      | Done (Some _) s2 => Done u1 (logged "[ERROR] reconnect failed: %v" s2)
      | Done None s2 =>
        match GetVariables u1 s2 with
        | Crash p => Crash p
        | Done (u2, Ok _) s3 => Done u2 s3
        | Done (u2, Err _) s3 =>
          Done u2 (logged "[ERROR] retry after reconnect failed: %v" s3)
        end
      end
    end.
Proof.
  unfold pollTick, bind, emit, ret, logged.
  destruct (GetVariables u s) as [[u1 [vars | err]] s1 | p]; try reflexivity.
  destruct (Reconnect _) as [[e |] s2 | p]; try reflexivity.
  destruct (GetVariables u1 s2) as [[u2 [vars | err']] s3 | p]; reflexivity.
Qed.

Lemma count_app (p : Event -> bool) (a b : list Event) :
  count p (a ++ b) = (count p a + count p b)%nat.
Proof. unfold count. now rewrite List.filter_app, length_app. Qed.

Lemma count_none (p q : Event -> bool) (evs : list Event) :
  (forall e, q e = true -> p e = false) ->
  forallb q evs = true -> count p evs = O.
Proof.
  intros H. unfold count. induction evs as [| e evs IH]; [reflexivity |].
  cbn [forallb List.filter]. intros Hq.
  apply andb_true_iff in Hq as [He Hq].
  rewrite (H e He). apply IH, Hq.
Qed.

Lemma count_prefix (p : Event -> bool) (evs full : list Event) :
  prefixOf evs full -> count p full = O -> count p evs = O.
Proof. intros [rest ->]. rewrite count_app. lia. Qed.

Lemma isGet_not_resolve (e : Event) : isGet e = true -> isResolve e = false.
Proof. destruct e; [reflexivity | discriminate ..]. Qed.

Lemma isGet_not_listVar (u : UPS) (e : Event) :
  isGet e = true -> isWriteOf (listVar u) e = false.
Proof.
  destruct e as [d | | | |]; try discriminate.
  cbn [isGet isWriteOf]. unfold strings.HasPrefix. intros H.
  destruct d as [| c d]; [discriminate H |]. cbn [String.prefix] in H.
  destruct (ascii_dec "G" c) as [<- |]; [reflexivity | discriminate H].
Qed.

Lemma handshake_counts (u : UPS) (c : Client) :
  count isResolve (handshake c) = O
  /\ count (isWriteOf (listVar u)) (handshake c) = O.
Proof. split; reflexivity. Qed.

Lemma closeEvents_counts (u : UPS) (s : State) :
  count isResolve (closeEvents s) = O
  /\ count (isWriteOf (listVar u)) (closeEvents s) = O.
Proof. unfold closeEvents. destruct (conn (client s)); split; reflexivity. Qed.

(** What a tick whose fetch returns an error does, when it returns: it
    resolves the address once (one [Reconnect]), and writes the
    [LIST VAR] command once or twice (the fetch and at most one retry). *)
Lemma pollTick_recovery (u : UPS) (s : State) :
  fetchFailed (GetVariables u s) = true ->
  safely (pollTick u) s (fun _ s' =>
    exists delta,
      trace s' = (trace s ++ delta)%list
      /\ count isResolve delta = 1%nat
      /\ (1 <= count (isWriteOf (listVar u)) delta <= 2)%nat).
Proof.
  intros F. unfold safely. rewrite pollTick_unfold.
  pose proof (GetVariables_safely u s) as G1. unfold safely in G1.
  destruct (GetVariables u s) as [[u1 [vars | err]] s1 | p];
    try discriminate F.
  destruct G1 as (_ & (g1 & [T1 _] & P1) & U1). cbn [fst snd] in U1. subst u1.
  set (s1' := logged _ s1).
  pose proof (Reconnect_returns s1') as R. unfold returns in R.
  destruct (Reconnect s1') as [e s2 | p]; [| contradiction].
  destruct R as (_ & _ & evs & T2 & P2 & _).
  destruct (handshake_counts u (client s1')) as [Hr Hl].
  destruct (closeEvents_counts u s1') as [Cr Cl].
  pose proof (count_prefix _ _ _ P2 Hr) as Er.
  pose proof (count_prefix _ _ _ P2 Hl) as El.
  pose proof (count_none isResolve isGet g1 isGet_not_resolve P1) as G1r.
  pose proof (count_none _ isGet g1 (isGet_not_listVar u) P1) as G1l.
  assert (T2' : trace s2
                = (trace s
                     ++ (EvWrite (listVar u) :: g1)
                     ++ [EvLog "[ERROR] failed to poll %s variables: %v"]
                     ++ closeEvents s1'
                     ++ EvResolve (hostname (client s1') ++ ":" ++ port (client s1'))
                     :: evs)%list).
  { rewrite T2. unfold s1', logged. cbn [trace]. rewrite T1, <- !app_assoc.
    reflexivity. }
  assert (Hcr : forall x, count isResolve (EvWrite x :: g1) = O)
    by (intros x; exact G1r).
  assert (Hcl : count (isWriteOf (listVar u)) (EvWrite (listVar u) :: g1) = 1%nat).
  { unfold count in *. cbn [List.filter isWriteOf].
    rewrite String.eqb_refl. cbn [length]. now rewrite G1l. }
  assert (Hres : forall a,
            count isResolve (EvResolve a :: evs) = 1%nat
            /\ count (isWriteOf (listVar u)) (EvResolve a :: evs) = O).
  { intros a. unfold count in *. cbn [List.filter isResolve isWriteOf length].
    now rewrite Er, El. }
  destruct e as [e |].
  - eexists. split; [unfold logged; cbn [trace]; rewrite T2', <- !app_assoc;
                     reflexivity |].
    rewrite !count_app, Hcr, Hcl, Cr, Cl.
    destruct (Hres (hostname (client s1') ++ ":" ++ port (client s1'))) as [-> ->].
    split; [reflexivity | cbn; lia].
  - pose proof (GetVariables_safely u s2) as G2. unfold safely in G2.
    destruct (GetVariables u s2) as [[u2 r2] s3 | p]; [| exact I].
    destruct G2 as (_ & (g2 & [T3 _] & P3) & _).
    pose proof (count_none isResolve isGet g2 isGet_not_resolve P3) as G2r.
    pose proof (count_none _ isGet g2 (isGet_not_listVar u) P3) as G2l.
    assert (Hcr2 : count isResolve (EvWrite (listVar u) :: g2) = O) by exact G2r.
    assert (Hcl2 : count (isWriteOf (listVar u)) (EvWrite (listVar u) :: g2)
                   = 1%nat).
    { unfold count in *. cbn [List.filter isWriteOf].
      rewrite String.eqb_refl. cbn [length]. now rewrite G2l. }
    change (EvWrite (("LIST VAR " ++ Name u) ++ NL)) with (EvWrite (listVar u)) in T3.
    destruct r2 as [vars | err'].
    + eexists. split; [rewrite T3, T2', <- !app_assoc; reflexivity |].
      rewrite !count_app, Hcr, Hcl, Cr, Cl, Hcr2, Hcl2.
      destruct (Hres (hostname (client s1') ++ ":" ++ port (client s1'))) as [-> ->].
      split; [reflexivity | cbn; lia].
    + eexists. split; [unfold logged; cbn [trace];
                       rewrite T3, T2', <- !app_assoc; reflexivity |].
      rewrite !count_app, Hcr, Hcl, Cr, Cl, Hcr2, Hcl2.
      destruct (Hres (hostname (client s1') ++ ":" ++ port (client s1'))) as [-> ->].
      split; [reflexivity | cbn; lia].
Qed.

Lemma safely_any {A} (m : M A) (s : State) : safely m s (fun _ _ => True).
Proof. unfold safely. now destruct (m s). Qed.

(** The goroutine returns when its [select] receives the cancellation,
    and only then: as long as no tick panics, the errors of the ticks
    leave it waiting for the next event. *)
Lemma poller_returns_on_cancel (events : list PollEvent) (u : UPS) (s : State) :
  safely (poller events u) s (fun p _ =>
    fst p = Returned <-> In CtxDone events).
Proof.
  revert u s. induction events as [| ev rest IH]; intros u s.
  - cbn. split; [discriminate | tauto].
  - destruct ev; cbn [poller].
    + apply safely_bind. eapply safely_weaken; [apply safely_any |]. cbv beta.
      intros u' s' _. eapply safely_weaken; [apply IH |]. cbv beta.
      intros p _ H. rewrite H. cbn [In]. split; [tauto | intros [[=] | ?]; tauto].
    + cbn. split; [intros _; now left | reflexivity].
Qed.

(** C9 fails on the code. The fetch of a tick returns an error (the
    connection is silent), [Reconnect] succeeds, and the server answers
    the retried [LIST VAR] with the end line alone: the slice
    [resp[1 : len(resp)-1]] of [GetVariables] panics, nothing recovers the
    panic, the tick does not return to the wait and the goroutine is
    over, with the process, without any cancellation. A reply [RW] without
    a type to [GET TYPE] does the same on a healthy connection. *)
Theorem poller_panics_on_malformed_reply :
  fetchFailed (GetVariables polled truncatedList) = true
  /\ poller [Tick] polled truncatedList = Crash "slice bounds out of range"
  /\ poller [Tick; Tick; CtxDone] polled truncatedList
     = Crash "slice bounds out of range"
  /\ poller [Tick] polled typeless = Crash "index out of range".
Proof. repeat split; vm_compute; reflexivity. Qed.

(** Ticks whose fetches return errors, and no panic: after each of them
    the goroutine waits again, until the cancellation. *)
Lemma poller_survives_errors :
  valueOf (poller [Tick; Tick] polled unreachable) = Some (Waiting, polled)
  /\ valueOf (poller [Tick; Tick; CtxDone; Tick] polled unreachable)
     = Some (Returned, polled)
  /\ fetchFailed (GetVariables polled recovered) = true
  /\ (valueOf (poller [Tick] polled recovered)
      = Some (Waiting,
              setVariables
                [mkVar "ups.status" (VString "OB") "STRING" "a variable"
                       false 0 "NUMBER"]
                polled)).
Proof. repeat split; vm_compute; reflexivity. Qed.

(** * Further properties of the package and of its callers *)

(** ** The codec *)

(** [sendCommand] on a connection that takes the write, by what the read
    loop makes of the stream. *)
Lemma sendCommand_unfold (cmd : string) (s : State) (k : Conn) :
  conn (client s) = Some k -> closed k = false -> (0 < wr k)%nat ->
  sendCommand cmd s
  = match readLoop (S (len (rd k))) (endLineOf cmd)
            (strings.HasPrefix (cmd ++ NL) "LIST ") [] (rd k) with
    | Some (Ok (r0 :: resp), rest) => Done (answer r0 resp) (exchanged cmd rest k s)
    | Some (Ok [], rest) => Crash "index out of range"
    | Some (Err e, rest) => Done (Err e) (exchanged cmd rest k s)
    | None => Done (Err readError) (exchanged cmd (rd k) k s)
    end.
Proof.
  intros Ek Hc Hw.
  unfold sendCommand, Fprint, readResponse, exchanged.
  unfold bind, emit, ret. cbn [client dials trace].
  rewrite Ek, Hc. apply Nat.ltb_lt in Hw. rewrite Hw.
  cbn [negb andb client dials trace conn setConn closed rd].
  fold (endLineOf cmd).
  destruct (readLoop _ _ _ _ _) as [[[resp | e] rest] |].
  - destruct resp as [| r0 resp]; [reflexivity |].
    cbn [index nth_error]. unfold ret, answer.
    destruct (strings.HasPrefix r0 "ERR ") eqn:Herr.
    + destruct (prefix_ERR_split r0 Herr) as (token & l & ->).
      reflexivity.
    + reflexivity.
  - reflexivity.
  - reflexivity.
Qed.

Lemma writable_conn (s : State) :
  writable s = true ->
  exists k, conn (client s) = Some k /\ closed k = false /\ (0 < wr k)%nat.
Proof.
  unfold writable. destruct (conn (client s)) as [k |]; [| discriminate].
  intros H. apply andb_true_iff in H as [Hc Hw].
  apply negb_true_iff in Hc. apply Nat.ltb_lt in Hw. now exists k.
Qed.

Lemma unread_conn (s : State) (k : Conn) (stream : string) :
  conn (client s) = Some k -> unread s = Some stream -> rd k = stream.
Proof. unfold unread. intros ->. now intros [=]. Qed.



Lemma ReadString_partial (tail : string) :
  Spec.isLine tail = true -> ReadString nl tail = None.
Proof.
  induction tail as [| c t IH]; [reflexivity |].
  cbn [Spec.isLine ReadString]. intros H.
  apply andb_true_iff in H as [Hc Ht]. apply negb_true_iff in Hc.
  now rewrite Hc, (IH Ht).
Qed.

(** The loop on lines none of which is the end line, followed by a line
    that is not complete: the read fails when the stream is over. *)
Lemma readLoop_no_end (e : string) (lines acc : list string) (fuel : nat)
    (tail : string) :
  forallb (fun l => Spec.isLine l && negb (String.eqb l e)) lines = true ->
  Spec.isLine tail = true ->
  (length lines < fuel)%nat ->
  readLoop fuel (e ++ NL) true acc (Spec.wire lines ++ tail)
  = Some (Err readError, "").
Proof.
  intros Hd Ht. revert acc fuel.
  induction lines as [| l lines IH]; intros acc fuel Hf.
  - destruct fuel as [| fuel]; [lia |].
    cbn [Spec.wire readLoop]. change ("" ++ tail) with tail.
    now rewrite (ReadString_partial tail Ht).
  - destruct fuel as [| fuel]; [cbn in Hf; lia |].
    cbn [forallb] in Hd. apply andb_true_iff in Hd as [Hl Hd].
    apply andb_true_iff in Hl as [Hl Hne]. apply negb_true_iff in Hne.
    cbn [Spec.wire]. rewrite !append_assoc'.
    rewrite (readLoop_step fuel _ true acc l _ Hl).
    rewrite eqb_app_r, Hne. cbn [orb negb].
    apply IH; [exact Hd | cbn in Hf; lia].
Qed.




(** X3. A [LIST] command whose reply never brings the end line fails with
    the error of the read, whatever lines came: an error reply of the
    server to a [LIST] command is not recognised, the read waits for more
    lines until the deadline, and the error token is lost. *)
Theorem sendCommand_list_without_end (s : State) (X : string)
    (lines : list string) (tail : string) :
  writable s = true ->
  forallb (Spec.dataLine X) lines = true ->
  Spec.isLine tail = true ->
  unread s = Some (Spec.wire lines ++ tail) ->
  exists s',
    sendCommand ("LIST " ++ X) s = Done (Err readError) s'
    /\ unread s' = Some "".
Proof.
  intros W Hd Ht Hu.
  destruct (writable_conn s W) as (k & Ek & Hc & Hw).
  pose proof (unread_conn s k _ Ek Hu) as Hr.
  rewrite (sendCommand_unfold _ s k Ek Hc Hw), Hr.
  change (endLineOf ("LIST " ++ X)) with (("END LIST " ++ X) ++ NL).
  rewrite (append_assoc' "LIST " X NL), HasPrefix_app.
  rewrite (readLoop_no_end ("END LIST " ++ X) lines [] _ tail Hd Ht).
  - eexists. split; reflexivity.
  - pose proof (wire_length lines) as Hl. rewrite len_app. lia.
Qed.

Lemma sendCommand_list_without_end_witness :
  exists s',
    sendCommand "LIST VAR ups1" (session (Spec.wire ["ERR UNKNOWN-UPS"]))
    = Done (Err readError) s'
    /\ unread s' = Some "".
Proof.
  apply (sendCommand_list_without_end
           (session (Spec.wire ["ERR UNKNOWN-UPS"])) "VAR ups1"
           ["ERR UNKNOWN-UPS"] ""); reflexivity.
Defined.

(** ** The session *)












(** ** The commands of a device *)




(** ** Bootstrap and discovery: what they leave alone *)

Lemma quietly_weaken (P Q : Event -> bool) {A} (m : M A) :
  (forall e, P e = true -> Q e = true) -> quietly P m -> quietly Q m.
Proof.
  intros HPQ Hm s. eapply safely_weaken; [apply Hm |]. cbv beta.
  intros a s' (K & evs & E & HP). split; [exact K |].
  exists evs. split; [exact E |].
  apply forallb_forall. intros e He.
  apply HPQ. now apply (proj1 (forallb_forall P evs) HP).
Qed.

Lemma isGet_isTalk (e : Event) : isGet e = true -> isTalk e = true.
Proof. destruct e; [reflexivity | discriminate ..]. Qed.

Lemma talk_GetDescription (u : UPS) : quietly isTalk (GetDescription u).
Proof. unfold GetDescription. quiet. Qed.

Lemma talk_GetClients (u : UPS) : quietly isTalk (GetClients u).
Proof. unfold GetClients. quiet. Qed.

Lemma talk_commandsLoop (u : UPS) (linePrefix : string) (lines : list string)
    (acc : list Command) :
  quietly isTalk (commandsLoop u linePrefix lines acc).
Proof.
  revert acc. induction lines as [| line rest IH]; intros acc; cbn [commandsLoop].
  - quiet.
  - apply quietly_bind;
      [apply quietly_GetCommandDescription; reflexivity | intros d].
    destruct d; [apply IH | quiet].
Qed.

Lemma talk_GetCommands (u : UPS) : quietly isTalk (GetCommands u).
Proof.
  unfold GetCommands.
  apply quietly_bind; [quiet | intros r]. destruct r; [| quiet].
  apply quietly_bind; [quiet | intros lines].
  apply quietly_bind; [apply talk_commandsLoop | intros l]. quiet.
Qed.

Lemma talk_GetVariables (u : UPS) : quietly isTalk (GetVariables u).
Proof.
  intros s. eapply safely_weaken; [apply GetVariables_safely |]. cbv beta.
  intros p s' (K & (evs & E & P) & _). split; [exact K |].
  eexists. split; [exact E |]. cbn [forallb isTalk].
  apply forallb_forall. intros e He.
  apply isGet_isTalk. now apply (proj1 (forallb_forall isGet evs) P).
Qed.

Lemma talk_extractAll (vars : list Var) (u : UPS) :
  quietly isTalk (extractAll u vars).
Proof.
  revert u. induction vars as [| v vars IH]; intros u; cbn [extractAll].
  - quiet.
  - apply quietly_bind; [unfold extract; quiet | intros u']. apply IH.
Qed.

Lemma talk_NewUPS (server name : string) (poolInterval : Z) :
  quietly isTalk (NewUPS server name poolInterval).
Proof.
  unfold NewUPS.
  apply quietly_bind; [apply talk_GetDescription | intros [u r]].
  destruct r; [| quiet].
  apply quietly_bind; [apply talk_GetClients | intros [u1 r1]].
  destruct r1; [| quiet].
  apply quietly_bind; [apply talk_GetCommands | intros [u2 r2]].
  destruct r2; [| quiet].
  apply quietly_bind; [apply talk_GetVariables | intros [u3 r3]].
  destruct r3; [| quiet].
  apply quietly_bind; [apply talk_extractAll | intros u4].
  apply quietly_bind; [unfold NewTicker; quiet | intros _]. quiet.
Qed.

Lemma safely_and {A} (m : M A) (s : State) (Q1 Q2 : A -> State -> Prop) :
  safely m s Q1 -> safely m s Q2 -> safely m s (fun a s' => Q1 a s' /\ Q2 a s').
Proof. unfold safely. destruct (m s); tauto. Qed.

Lemma same_refl (u : UPS) : same u u.
Proof. repeat split. Qed.

Lemma same_trans (u1 u2 u3 : UPS) : same u1 u2 -> same u2 u3 -> same u1 u3.
Proof. unfold same. intros (? & ? & ?) (? & ? & ?). repeat split; congruence. Qed.

Lemma same_GetDescription (u : UPS) (s : State) :
  safely (GetDescription u) s (fun p _ => same u (fst p)).
Proof.
  unfold safely, GetDescription, bind.
  destruct (sendCommand _ s) as [[resp | e] s1 |]; [| repeat split | exact I].
  destruct (index resp 0 s1); [repeat split | exact I].
Qed.

Lemma same_GetClients (u : UPS) (s : State) :
  safely (GetClients u) s (fun p _ => same u (fst p)).
Proof.
  unfold safely, GetClients, bind.
  destruct (sendCommand _ s) as [[resp | e] s1 |]; [| repeat split | exact I].
  destruct (interior resp s1); [repeat split | exact I].
Qed.

Lemma same_GetCommands (u : UPS) (s : State) :
  safely (GetCommands u) s (fun p _ => same u (fst p)).
Proof.
  unfold safely, GetCommands, bind.
  destruct (sendCommand _ s) as [[resp | e] s1 |]; [| repeat split | exact I].
  destruct (interior resp s1) as [lines s2 |]; [| exact I].
  destruct (commandsLoop _ _ _ _ s2) as [[l | e] s3 |];
    [repeat split | repeat split | exact I].
Qed.

Lemma same_GetVariables (u : UPS) (s : State) :
  safely (GetVariables u) s (fun p _ => same u (fst p)).
Proof.
  eapply safely_weaken; [apply GetVariables_safely |]. cbv beta.
  intros [u' r] s' (_ & _ & H). cbn [fst snd] in *.
  destruct r; subst u'; repeat split.
Qed.

Lemma same_extractAll (vars : list Var) (u : UPS) (s : State) :
  safely (extractAll u vars) s (fun u' _ => same u u').
Proof.
  revert u s. induction vars as [| v vars IH]; intros u s; cbn [extractAll].
  - apply same_refl.
  - apply safely_bind.
    assert (H : safely (extract u v) s (fun u' _ => same u u')).
    { unfold safely, extract, bind, emit, ret, panic.
      destruct (String.eqb (vName v) "ups.mfr");
        destruct (String.eqb (vName v) "ups.model");
        destruct (String.eqb (vName v) "ups.vendorid");
        destruct (String.eqb (vName v) "ups.productid");
        destruct (vValue v); try exact I; repeat split. }
    eapply safely_weaken; [exact H |]. cbv beta. intros u1 s1 H1.
    eapply safely_weaken; [apply IH |]. cbv beta. intros u2 s2 H2.
    eapply same_trans; eassumption.
Qed.

(** A device that [NewUPS] returns has the server address and the name it
    was asked for, and a positive poll interval (the ticker of the poller
    was made); its identifier is what [GenerateID] gives for it. *)
Lemma NewUPS_fields (server name : string) (poolInterval : Z) (s : State) :
  safely (NewUPS server name poolInterval) s (fun r _ =>
    forall u, r = Ok u ->
      Server u = server /\ Name u = name /\ PoolInterval u = poolInterval
      /\ 0 < poolInterval /\ ID u = GenerateID u).
Proof.
  unfold NewUPS. set (u0 := mkUPS _ _ _ _ _ _ _ _ _ _ _ _).
  apply safely_bind.
  eapply safely_weaken; [apply same_GetDescription |]. cbv beta.
  intros [u1 r1] s1 S1. cbn [fst] in S1.
  destruct r1; [| intros ? [=]].
  apply safely_bind.
  eapply safely_weaken; [apply same_GetClients |]. cbv beta.
  intros [u2 r2] s2 S2. cbn [fst] in S2.
  destruct r2; [| intros ? [=]].
  apply safely_bind.
  eapply safely_weaken; [apply same_GetCommands |]. cbv beta.
  intros [u3 r3] s3 S3. cbn [fst] in S3.
  destruct r3; [| intros ? [=]].
  apply safely_bind.
  eapply safely_weaken; [apply same_GetVariables |]. cbv beta.
  intros [u4 r4] s4 S4. cbn [fst] in S4.
  destruct r4; [| intros ? [=]].
  apply safely_bind.
  eapply safely_weaken; [apply same_extractAll |]. cbv beta.
  intros u5 s5 S5.
  pose proof (same_trans _ _ _ S1 (same_trans _ _ _ S2 (same_trans _ _ _ S3
                (same_trans _ _ _ S4 S5)))) as (Hs & Hn & Hp).
  cbn [u0 Server Name PoolInterval] in Hs, Hn, Hp.
  unfold NewTicker, safely, bind, ret, panic.
  cbn [setID PoolInterval]. rewrite Hp.
  destruct (poolInterval <=? 0) eqn:E; [exact I |].
  apply Z.leb_gt in E.
  intros u [= <-]. cbn [Server Name PoolInterval ID]. repeat split; assumption.
Qed.

Lemma registered_config (c c' : Client) (id : string) (u : UPS) :
  config c' = config c -> registered c id u -> registered c' id u.
Proof.
  intros H. destruct (config_eq _ _ H) as (Hh & Hp & _ & _ & Hi).
  unfold registered. now rewrite Hh, Hp, Hi.
Qed.

(** What a pass of the loop of [getListOfUPS] keeps, when it returns. *)
Lemma discover_invariants (lines : list string) (s : State) :
  wellKeyed (client s) ->
  safely (discover lines) s (fun _ s' =>
    wellKeyed (client s')
    /\ config (client s') = config (client s)
    /\ dials s' = dials s
    /\ (forall id u,
          list_ (client s) !! id = Some u -> list_ (client s') !! id = Some u)
    /\ exists evs,
         trace s' = (trace s ++ evs)%list /\ forallb isTalk evs = true).
Proof.
  revert s. induction lines as [| line rest IH]; intros s W.
  - unfold safely. cbn [discover]. unfold ret.
    split; [exact W |]. split; [reflexivity |]. split; [reflexivity |].
    split; [tauto |].
    exists []. split; [now rewrite app_nil_r | reflexivity].
  - unfold safely. rewrite discover_step.
    destruct (strings.HasPrefix line "UPS "); [| apply (IH s W)].
    destruct (nth_error _ 0) as [s0 |]; [| exact I].
    pose proof (safely_and _ _ _ _
                  (talk_NewUPS (hostname (client s) ++ ":" ++ port (client s))
                     (strings.TrimSuffix s0 " ") (poolInterval (client s)) s)
                  (NewUPS_fields (hostname (client s) ++ ":" ++ port (client s))
                     (strings.TrimSuffix s0 " ") (poolInterval (client s)) s)) as Q.
    unfold safely in Q.
    destruct (NewUPS _ _ _ s) as [r s1 | p]; [| exact I].
    destruct Q as (([L1 C1] & e1 & [T1 D1] & P1) & F).
    destruct r as [ups | err].
    + set (s2 := mkState _ _ _).
      assert (W2 : wellKeyed (client s2)).
      { intros id u. cbn [s2 client list_ setList]. rewrite register_lookup, L1.
        destruct (list_ (client s) !! id) as [v |] eqn:E.
        - intros [= <-]. apply (registered_config (client s)); [exact C1 |].
          now apply W.
        - destruct (String.eqb_spec (ID ups) id) as [<- | _]; [| discriminate].
          intros [= <-]. destruct (F ups eq_refl) as (Hs & _ & Hp & Hpos & Hid).
          destruct (config_eq _ _ C1) as (Hh & Hq & _ & _ & Hi).
          unfold registered. cbn [hostname port poolInterval setList].
          rewrite Hh, Hq, Hi, Hp. repeat split; try assumption.
          now symmetry. }
      specialize (IH s2 W2). unfold safely in IH.
      destruct (discover rest s2) as [[] s' | p]; [| exact I].
      destruct IH as (W' & C' & D' & M' & e2 & T2 & P2).
      split; [exact W' |].
      split; [rewrite C'; exact C1 |].
      split; [rewrite D'; exact D1 |].
      split.
      * intros id u H. apply M'. cbn [s2 client list_ setList].
        rewrite register_lookup, L1, H. reflexivity.
      * exists (e1 ++ e2)%list. split.
        -- rewrite T2. cbn [s2 trace]. rewrite T1. now rewrite app_assoc.
        -- now rewrite forallb_app, P1, P2.
    + set (s2 := mkState _ _ _).
      assert (W2 : wellKeyed (client s2)).
      { intros id u. cbn [s2 client]. rewrite L1. intros H.
        apply (registered_config (client s)); [exact C1 | now apply W]. }
      specialize (IH s2 W2). unfold safely in IH.
      destruct (discover rest s2) as [[] s' | p]; [| exact I].
      destruct IH as (W' & C' & D' & M' & e2 & T2 & P2).
      split; [exact W' |].
      split; [rewrite C'; exact C1 |].
      split; [rewrite D'; exact D1 |].
      split.
      * intros id u H. apply M'. cbn [s2 client]. now rewrite L1.
      * exists (e1 ++ [EvLog "[ERROR] failed to create UPS %s: %s"] ++ e2)%list.
        split.
        -- rewrite T2. cbn [s2 trace]. rewrite T1. now rewrite <- !app_assoc.
        -- rewrite !forallb_app, P1, P2. reflexivity.
Qed.

Lemma getListOfUPS_invariants (s : State) :
  wellKeyed (client s) ->
  safely getListOfUPS s (fun e s' =>
    wellKeyed (client s')
    /\ config (client s') = config (client s)
    /\ dials s' = dials s
    /\ (forall id u,
          list_ (client s) !! id = Some u -> list_ (client s') !! id = Some u)
    /\ exists evs,
         trace s' = (trace s ++ EvWrite ("LIST UPS" ++ NL) :: evs)%list
         /\ forallb isTalk evs = true
         /\ (e <> None -> evs = [])).
Proof.
  intros W. unfold safely, getListOfUPS, bind.
  pose proof (sendCommand_returns "LIST UPS" s) as R. unfold returns in R.
  destruct (sendCommand "LIST UPS" s) as [r s1 | p]; [| contradiction].
  destruct R as ([L1 C1] & [T1 D1] & _).
  assert (W1 : wellKeyed (client s1)).
  { intros id u. rewrite L1. intros H.
    apply (registered_config (client s)); [exact C1 | now apply W]. }
  destruct r as [resp | err].
  - pose proof (discover_invariants resp s1 W1) as D. unfold safely in D.
    destruct (discover resp s1) as [[] s' | p]; [| exact I].
    destruct D as (W' & C' & D' & M' & evs & T' & P').
    unfold ret. split; [exact W' |].
    split; [rewrite C'; exact C1 |].
    split; [rewrite D'; exact D1 |].
    split; [intros id u H; apply M'; now rewrite L1 |].
    exists evs. split; [rewrite T', T1; now rewrite <- app_assoc |].
    split; [exact P' | intros N; now contradiction N].
  - unfold ret. split; [exact W1 |]. split; [exact C1 |]. split; [exact D1 |].
    split; [intros id u H; now rewrite L1 |].
    exists []. split; [exact T1 |]. split; reflexivity.
Qed.

(** ** The registry *)

(** X8. A discovery pass that returns keeps the registry keyed: it removes
    and replaces no entry, and every device it adds is registered under
    its own identifier, which is what [GenerateID] gives for the device
    and has six characters; the device carries the address and the poll
    interval of the client, the interval being positive. It resolves,
    dials and closes nothing. *)
Theorem getListOfUPS_keeps_registry_keyed (s : State) :
  wellKeyed (client s) ->
  safely getListOfUPS s (fun _ s' =>
    (forall id u,
        list_ (client s) !! id = Some u -> list_ (client s') !! id = Some u)
    /\ (forall id u,
          UPS_ (client s') id = Ok u ->
          ID u = id /\ GenerateID u = id /\ len id = 6%nat
          /\ Server u = hostname (client s) ++ ":" ++ port (client s)
          /\ 0 < PoolInterval u)
    /\ dials s' = dials s
    /\ exists evs,
         trace s' = (trace s ++ evs)%list /\ forallb isTalk evs = true).
Proof.
  intros W. eapply safely_weaken; [apply (getListOfUPS_invariants s W) |].
  cbv beta. intros e s' (W' & C' & D' & M' & evs & T' & P' & _).
  split; [exact M' |]. split; [| split; [exact D' |]].
  - intros id u. unfold UPS_.
    destruct (list_ (client s') !! id) as [v |] eqn:E; [| discriminate].
    intros [= <-]. destruct (W' id v E) as (Hi & Hg & Hs & _ & Hp).
    destruct (config_eq _ _ C') as (Hh & Hq & _).
    repeat split; try assumption.
    + rewrite <- Hg, GenerateID_hashed. apply take_bytes_len.
      rewrite EncodeToString_16 by apply Sum_length. lia.
    + now rewrite Hs, Hh, Hq.
  - eexists. split; [exact T' |]. cbn [forallb isTalk]. exact P'.
Qed.

Lemma getListOfUPS_keeps_registry_keyed_witness :
  safely getListOfUPS partialDiscovery (fun _ s' =>
    (forall id u,
        list_ (client partialDiscovery) !! id = Some u ->
        list_ (client s') !! id = Some u)
    /\ (forall id u,
          UPS_ (client s') id = Ok u ->
          ID u = id /\ GenerateID u = id /\ len id = 6%nat
          /\ Server u = "nut.lan" ++ ":" ++ "3493"
          /\ 0 < PoolInterval u)
    /\ dials s' = []
    /\ exists evs,
         trace s' = ([] ++ evs)%list /\ forallb isTalk evs = true).
Proof.
  apply (getListOfUPS_keeps_registry_keyed partialDiscovery).
  intros id u H. vm_compute in H. discriminate H.
Defined.

(** X9. [UPSs] returns an error exactly when the registry is empty; else it
    returns the devices of the registry, each entry once: the devices
    that [UPS] finds under some identifier. *)
Theorem UPSs_lists_registry (c : Client) :
  (list_ c = ∅ -> exists e, UPSs c = Err e)
  /\ (list_ c <> ∅ ->
      exists l,
        UPSs c = Ok l
        /\ length l = size (list_ c)
        /\ l <> []
        /\ (forall u, In u l <-> exists id, UPS_ c id = Ok u)).
Proof.
  unfold UPSs. split.
  - intros ->. rewrite map_size_empty. eexists. reflexivity.
  - intros Hne. pose proof (proj2 (map_size_non_empty_iff (list_ c)) Hne) as Hs.
    destruct (Nat.eqb_spec (size (list_ c)) 0) as [E | _]; [contradiction |].
    eexists. split; [reflexivity |].
    assert (Hlen : length (map snd (map_to_list (list_ c))) = size (list_ c))
      by (rewrite length_map; apply length_map_to_list).
    split; [exact Hlen |]. split.
    + intros E. rewrite E in Hlen. cbn in Hlen. congruence.
    + intros u. rewrite in_map_iff. unfold UPS_. split.
      * intros ([id v] & <- & Hin). exists id.
        apply list_elem_of_In, elem_of_map_to_list in Hin. cbn [snd].
        now rewrite Hin.
      * intros (id & H). destruct (list_ c !! id) as [v |] eqn:E; [| discriminate].
        injection H as <-. exists (id, v). split; [reflexivity |].
        now apply list_elem_of_In, elem_of_map_to_list.
Qed.

Lemma UPSs_lists_registry_witness :
  exists l,
    UPSs (client reconnecting) = Ok l
    /\ length l = size (list_ (client reconnecting))
    /\ l <> []
    /\ (forall u, In u l <-> exists id, UPS_ (client reconnecting) id = Ok u).
Proof.
  apply (proj2 (UPSs_lists_registry (client reconnecting))).
  intros H. apply (f_equal (fun m => m !! "iygwnV")) in H.
  vm_compute in H. discriminate H.
Defined.

(** ** The construction of a client *)

Lemma prefixOf_app (a evs full : list Event) :
  prefixOf evs full -> prefixOf (a ++ evs) (a ++ full).
Proof. intros [rest ->]. exists rest. now rewrite app_assoc. Qed.

Lemma prefixOf_trans (a b c : list Event) :
  prefixOf a b -> prefixOf b c -> prefixOf a c.
Proof. intros [r1 ->] [r2 ->]. exists (r1 ++ r2)%list. now rewrite app_assoc. Qed.

Lemma prefixOf_app_l (a b : list Event) : prefixOf a (a ++ b).
Proof. now exists b. Qed.

Lemma talk_not_close (evs : list Event) :
  forallb isTalk evs = true -> ~ In EvClose evs.
Proof.
  intros H Hin. apply (proj1 (forallb_forall isTalk evs) H) in Hin. discriminate Hin.
Qed.

Lemma prefix_not_close (evs full : list Event) :
  prefixOf evs full -> ~ In EvClose full -> ~ In EvClose evs.
Proof. intros [rest ->] H Hin. apply H, in_or_app. now left. Qed.

Lemma greeting_not_close (u w : string) : ~ In EvClose (greeting u w).
Proof. cbn. intros [H | [H | [H | [H | [H | [H | []]]]]]]; discriminate H. Qed.

(** [New], when it returns: the order of its actions, and the client
    it returns. *)
Lemma New_safely (h p u w : string) (i : Z) (s : State) :
  safely (New h p u w i) s (fun r s' =>
    exists evs,
      trace s' = (trace s ++ EvResolve (h ++ ":" ++ p) :: evs)%list
      /\ ~ In EvClose evs
      /\ match r with
         | Ok c =>
           c = client s'
           /\ config c = (h, p, u, w, i)
           /\ wellKeyed c
           /\ exists k more,
                dials s = Connected k :: dials s'
                /\ evs = (greeting u w ++ more)%list
                /\ forallb isTalk more = true
         | Err _ => prefixOf evs (greeting u w)
         end).
Proof.
  assert (Fin : forall (s' : State) (evs : list Event),
             trace s' = (trace s ++ EvResolve (h ++ ":" ++ p) :: evs)%list ->
             prefixOf evs (greeting u w) ->
             exists evs,
               trace s' = (trace s ++ EvResolve (h ++ ":" ++ p) :: evs)%list
               /\ ~ In EvClose evs
               /\ prefixOf evs (greeting u w)).
  { intros s' evs T P. exists evs. split; [exact T |].
    split; [| exact P].
    apply (prefix_not_close _ _ P), greeting_not_close. }
  unfold New.
  apply safely_bind. apply returns_safely.
  eapply returns_weaken; [apply dial_returns |]. cbv beta.
  intros d s1 [Hc1 Hd1].
  destruct d as [| | k].
  - apply safely_ret. eapply Fin; [exact Hd1 | apply prefixOf_nil].
  - destruct Hd1 as [T1 _]. apply safely_ret.
    eapply Fin; [exact T1 | apply (prefixOf_app_l [EvDial])].
  - destruct Hd1 as [T1 D1].
    apply safely_bind. unfold modifyClient at 1. unfold safely at 1.
    set (s2 := mkState _ _ _).
    assert (C2 : config (client s2) = (h, p, u, w, i)) by reflexivity.
    assert (L2 : list_ (client s2) = ∅) by reflexivity.
    assert (T2 : trace s2 = (trace s ++ EvResolve (h ++ ":" ++ p) :: [EvDial])%list)
      by exact T1.
    assert (D2 : dials s = Connected k :: dials s2) by exact D1.
    clearbody s2.
    apply safely_bind. apply returns_safely.
    eapply returns_weaken; [apply authenticate_returns |]. cbv beta.
    intros a s3 ([L3 C3] & evs3 & [T3 D3] & P3 & S3).
    destruct a as [status | err].
    2:{ apply safely_ret. eapply (Fin _ (EvDial :: evs3)).
        - rewrite T3, T2, <- app_assoc. reflexivity.
        - apply prefixOf_cons.
          eapply prefixOf_trans; [exact P3 |]. now eexists [_; _; _]. }
    destruct (S3 status eq_refl) as [-> ->]. cbn [negb].
    apply safely_bind. apply returns_safely.
    eapply returns_weaken; [apply getVersion_returns |]. cbv beta.
    intros v s4 ([L4 C4] & [T4 D4]).
    destruct v as [v | err].
    2:{ apply safely_ret. eapply Fin.
        - rewrite T4, T3, T2, <- !app_assoc. cbn [app]. reflexivity.
        - now eexists [_; _]. }
    apply safely_bind. apply returns_safely.
    eapply returns_weaken; [apply getNetworkProtocolVersion_returns |]. cbv beta.
    intros n s5 ([L5 C5] & [T5 D5]).
    destruct n as [n | err].
    2:{ apply safely_ret. eapply Fin.
        - rewrite T5, T4, T3, T2, <- !app_assoc. cbn [app]. reflexivity.
        - now eexists [_]. }
    assert (W5 : wellKeyed (client s5)).
    { intros id x. rewrite L5, L4, L3, L2. rewrite lookup_empty. discriminate. }
    apply safely_bind.
    eapply safely_weaken; [apply (getListOfUPS_invariants s5 W5) |]. cbv beta.
    intros l s6 (W6 & C6 & D6 & _ & evs6 & T6 & P6 & N6).
    destruct l as [err |].
    + apply safely_ret. rewrite (N6 ltac:(discriminate)) in T6.
      eapply Fin; [| apply prefixOf_refl].
      rewrite T6, T5, T4, T3, T2, <- !app_assoc. reflexivity.
    + apply safely_bind. unfold getClient at 1. unfold safely at 1.
      apply safely_ret.
      exists (greeting u w ++ evs6)%list. split.
      { rewrite T6, T5, T4, T3, T2, <- !app_assoc. reflexivity. }
      split.
      { intros Hin. apply in_app_or in Hin as [Hin | Hin].
        - now apply (greeting_not_close u w).
        - now apply (talk_not_close evs6 P6). }
      split; [reflexivity |].
      split; [rewrite C6, C5, C4, C3; exact C2 |].
      split; [exact W6 |].
      exists k, evs6. split; [| split; [reflexivity | exact P6]].
      rewrite D6, D5, D4, D3. exact D2.
Qed.

(** X10. [New], when it returns. It resolves the address once and then
    dials, authenticates, reads the two versions and lists the devices,
    in this order, each step only after the one before succeeded; it
    never closes the connection it has dialled, also when it returns an
    error. With an error nothing was done beyond the [LIST UPS]
    command: no device was bootstrapped. The client it returns has the
    settings it was given and a registry keyed by the identifiers of its
    devices. *)
Theorem New_outcomes (h p u w : string) (i : Z) (s : State) :
  safely (New h p u w i) s (fun r s' =>
    exists evs,
      trace s' = (trace s ++ EvResolve (h ++ ":" ++ p) :: evs)%list
      /\ ~ In EvClose evs
      /\ match r with
         | Ok c =>
           c = client s'
           /\ config c = (h, p, u, w, i)
           /\ wellKeyed c
           /\ exists k more,
                dials s = Connected k :: dials s'
                /\ evs = (greeting u w ++ more)%list
                /\ forallb isTalk more = true
         | Err _ => prefixOf evs (greeting u w)
         end).
Proof. exact (New_safely h p u w i s). Qed.

(** ** The clients of the application *)

Lemma filter_resolve_talk (evs : list Event) :
  forallb isTalk evs = true -> List.filter isResolve evs = [].
Proof.
  induction evs as [| e evs IH]; [reflexivity |].
  cbn [forallb List.filter]. intros H. apply andb_true_iff in H as [He H].
  destruct e; try discriminate He; cbn [isResolve]; now apply IH.
Qed.

Lemma filter_resolve_prefix (evs full : list Event) :
  prefixOf evs full -> List.filter isResolve full = [] ->
  List.filter isResolve evs = [].
Proof.
  intros [rest ->]. rewrite List.filter_app. intros H.
  now apply app_eq_nil in H as [H _].
Qed.

Lemma map_imap_list {A B C} (g : B -> C) (f : nat -> A -> B) (l : list A) :
  map g (imap f l) = imap (fun n x => g (f n x)) l.
Proof.
  revert f. induction l as [| x l IH]; intros f; [reflexivity |].
  rewrite !imap_cons. cbn [map]. f_equal. apply IH.
Qed.

(** The loop of [create], when it returns: one resolution for each host,
    in order, each of the address made of the host and its port; no
    [Close]; at most one client for each host. *)
Lemma connect_safely (a : main.arguments) (ports usernames passwords : list string)
    (hosts : list string) (i : nat) (clients : list Client) (s : State) :
  safely (main.connect a ports usernames passwords i hosts clients) s
    (fun cs s' =>
       exists delta,
         trace s' = (trace s ++ delta)%list
         /\ List.filter isResolve delta
            = imap (fun j host =>
                      EvResolve (host ++ ":" ++ main.setting ports (i + j) "3493"))
                   hosts
         /\ ~ In EvClose delta
         /\ (length cs <= length clients + length hosts)%nat).
Proof.
  revert i clients s.
  induction hosts as [| host rest IH]; intros i clients s; cbn [main.connect].
  - apply safely_ret. exists []. rewrite app_nil_r. cbn. repeat split; [tauto | lia].
  - apply safely_bind.
    eapply safely_weaken; [apply New_safely |]. cbv beta.
    intros r s1 (evs & T1 & N1 & R1).
    assert (F1 : List.filter isResolve evs = []).
    { destruct r as [c | e].
      - destruct R1 as (_ & _ & _ & k & more & _ & -> & P).
        rewrite List.filter_app, (filter_resolve_talk more P). reflexivity.
      - now apply (filter_resolve_prefix _ _ R1). }
    assert (Step : forall (msg : string) (cs : list Client),
               (length cs <= S (length clients))%nat ->
               safely (let* _ := emit (EvLog msg) in
                       main.connect a ports usernames passwords (S i) rest cs) s1
                 (fun cs' s' =>
                    exists delta,
                      trace s' = (trace s ++ delta)%list
                      /\ List.filter isResolve delta
                         = imap (fun j host0 =>
                                   EvResolve (host0 ++ ":"
                                                ++ main.setting ports (i + j) "3493"))
                                (host :: rest)
                      /\ ~ In EvClose delta
                      /\ (length cs' <= length clients + length (host :: rest))%nat)).
    { intros msg cs Hcs. apply safely_bind. unfold emit at 1. unfold safely at 1.
      eapply safely_weaken; [apply IH |]. cbv beta.
      intros cs' s' (delta & T & F & N & L). cbn [trace] in T.
      exists (EvResolve (host ++ ":" ++ main.setting ports i "3493")
                :: evs ++ [EvLog msg] ++ delta)%list.
      split; [rewrite T, T1, <- !app_assoc; reflexivity |].
      split.
      { cbn [List.filter isResolve]. rewrite !List.filter_app, F1, F.
        cbn [List.filter isResolve app imap]. rewrite Nat.add_0_r. f_equal.
        apply imap_ext. intros j x _. cbn. now rewrite Nat.add_succ_r. }
      split.
      { intros [H | H]; [discriminate H |].
        apply in_app_or in H as [H | H]; [now apply N1 |].
        destruct H as [H | H]; [discriminate H | now apply N]. }
      cbn [length]. lia. }
    destruct r as [c | e].
    + apply Step. rewrite length_app. cbn. lia.
    + apply Step. lia.
Qed.

(** X11. [create] of the main file. Without a host it returns an error, and
    nothing was done. Else, when it returns, it returns an application
    (also when no client could be made): it has asked for one connection
    for each host between the commas of the host argument, in order, to
    the host as written (not trimmed) and the port of the same position,
    trimmed, or 3493 when the ports are fewer; it holds one client at
    most for each host, and no connection was closed. *)
Theorem create_outcomes (a : main.arguments) (s : State) :
  (main.Host (main.UPSD a) = "" ->
   main.create a s
   = Done (Err (errorString "no NUT server configuration provided")) s)
  /\ (main.Host (main.UPSD a) <> "" ->
      safely (main.create a) s (fun r s' =>
        exists app delta,
          r = Ok app
          /\ trace s' = (trace s ++ delta)%list
          /\ List.filter isResolve delta = map EvResolve (addresses a)
          /\ ~ In EvClose delta
          /\ (length (main.Clients app) <= length (addresses a))%nat)).
Proof.
  unfold main.create. split.
  - intros ->. reflexivity.
  - intros Hne.
    destruct (len (main.Host (main.UPSD a)) =? 0)%nat eqn:E.
    { apply Nat.eqb_eq in E. destruct (main.Host (main.UPSD a)); [now contradiction Hne |].
      discriminate E. }
    apply safely_bind.
    eapply safely_weaken; [apply connect_safely |]. cbv beta.
    intros cs s' (delta & T & F & N & L).
    apply safely_ret. eexists _, delta. split; [reflexivity |].
    split; [exact T |]. split.
    { rewrite F. unfold addresses. rewrite map_imap_list. reflexivity. }
    split; [exact N |].
    cbn [main.Clients]. unfold addresses. rewrite length_imap.
    cbn [length] in L. exact L.
Qed.

Lemma create_outcomes_witness :
  addresses twoHosts = ["alpha:3500"; " beta:3493"]
  /\ safely (main.create twoHosts) (sessionOn [] "") (fun r s' =>
       exists app delta,
         r = Ok app
         /\ trace s' = ([] ++ delta)%list
         /\ List.filter isResolve delta = map EvResolve (addresses twoHosts)
         /\ ~ In EvClose delta
         /\ (length (main.Clients app) <= length (addresses twoHosts))%nat).
Proof.
  split; [reflexivity |].
  apply (proj2 (create_outcomes twoHosts (sessionOn [] ""))). discriminate.
Defined.

(** ** The poller *)

Lemma setVariables_same (u : UPS) : setVariables (Variables u) u = u.
Proof. destruct u; reflexivity. Qed.

(** A tick that returns has changed nothing of its device but the
    snapshot, and has kept the registry and the settings. *)
Lemma pollTick_keeps (u : UPS) (s : State) :
  safely (pollTick u) s (fun u' s' =>
    (exists vars, u' = setVariables vars u) /\ keeps s s').
Proof.
  unfold safely. rewrite pollTick_unfold.
  pose proof (GetVariables_safely u s) as G1. unfold safely in G1.
  destruct (GetVariables u s) as [[u1 r1] s1 | p]; [| exact I].
  destruct G1 as (K1 & _ & U1). cbn [fst snd] in U1.
  destruct r1 as [vars | err].
  { split; [now exists vars | exact K1]. }
  subst u1.
  set (s1' := logged _ s1).
  assert (K1' : keeps s s1') by exact K1.
  pose proof (Reconnect_returns s1') as R. unfold returns in R.
  destruct (Reconnect s1') as [e s2 | p]; [| contradiction].
  destruct R as (L2 & C2 & _).
  pose proof (keeps_trans _ _ _ K1' (conj L2 C2)) as K2.
  destruct e as [e |].
  { split; [exists (Variables u); now rewrite setVariables_same | exact K2]. }
  pose proof (GetVariables_safely u s2) as G2. unfold safely in G2.
  destruct (GetVariables u s2) as [[u2 r2] s3 | p]; [| exact I].
  destruct G2 as (K3 & _ & U2). cbn [fst snd] in U2.
  pose proof (keeps_trans _ _ _ K2 K3) as K.
  destruct r2 as [vars | err2]; subst u2.
  - split; [now exists vars | exact K].
  - split; [exists (Variables u); now rewrite setVariables_same | exact K].
Qed.

(** X12. The goroutine of a device, as long as it returns from its ticks:
    it changes the snapshot of the device and nothing else of it (the
    name, the server and the identifier under which the device is
    registered stay), and it adds, removes and replaces no entry of the
    registry and changes no setting of the client. *)
Theorem poller_keeps_device (events : list PollEvent) (u : UPS) (s : State) :
  safely (poller events u) s (fun p s' =>
    (exists vars, snd p = setVariables vars u)
    /\ ID (snd p) = ID u /\ Name (snd p) = Name u /\ Server (snd p) = Server u
    /\ list_ (client s') = list_ (client s)
    /\ config (client s') = config (client s)).
Proof.
  assert (H : safely (poller events u) s (fun p s' =>
                (exists vars, snd p = setVariables vars u) /\ keeps s s')).
  { revert u s. induction events as [| ev rest IH]; intros u s.
    - cbn. split; [exists (Variables u); now rewrite setVariables_same |].
      apply keeps_refl.
    - destruct ev; cbn [poller].
      + apply safely_bind.
        eapply safely_weaken; [apply pollTick_keeps |]. cbv beta.
        intros u1 s1 ([v1 ->] & K1).
        eapply safely_weaken; [apply IH |]. cbv beta.
        intros p s2 ([v2 ->] & K2).
        split; [now exists v2 | eapply keeps_trans; eassumption].
      + cbn. split; [exists (Variables u); now rewrite setVariables_same |].
        apply keeps_refl. }
  eapply safely_weaken; [exact H |]. cbv beta.
  intros p s' ([vars Hv] & [L C]).
  split; [now exists vars |]. rewrite Hv. repeat split; assumption.
Qed.

Lemma poller_cancelled (before later : list PollEvent) (u : UPS) (s : State) :
  poller (before ++ CtxDone :: later) u s = poller (before ++ [CtxDone]) u s.
Proof.
  revert u s. induction before as [| ev rest IH]; intros u s; [reflexivity |].
  destruct ev; cbn [app poller]; [| reflexivity].
  unfold bind. destruct (pollTick u s) as [u1 s1 | p]; [apply IH | reflexivity].
Qed.

(** X13. The goroutine serves the ticks in order until the cancellation and
    nothing after it: what comes after the first cancellation changes
    neither the result nor the state, and the goroutine has returned
    exactly when a cancellation was among the events. *)
Theorem poller_serves_until_cancel (before later : list PollEvent) (u : UPS)
    (s : State) :
  poller (before ++ CtxDone :: later) u s = poller (before ++ [CtxDone]) u s
  /\ safely (poller (before ++ CtxDone :: later) u) s (fun p _ => fst p = Returned)
  /\ (~ In CtxDone before ->
      safely (poller before u) s (fun p _ => fst p = Waiting)).
Proof.
  split; [apply poller_cancelled |]. split.
  - eapply safely_weaken; [apply poller_returns_on_cancel |]. cbv beta.
    intros p _ H. apply H, in_or_app. right. now left.
  - intros N. eapply safely_weaken; [apply poller_returns_on_cancel |]. cbv beta.
    intros p _ H. destruct (fst p); [reflexivity |].
    exfalso. apply N, H. reflexivity.
Qed.

Lemma poller_serves_until_cancel_witness :
  poller ([Tick] ++ CtxDone :: [Tick; Tick]) polled unreachable
  = poller ([Tick] ++ [CtxDone]) polled unreachable
  /\ safely (poller [Tick; Tick] polled) unreachable (fun p _ => fst p = Waiting).
Proof.
  destruct (poller_serves_until_cancel [Tick] [Tick; Tick] polled unreachable)
    as (H & _ & _).
  split; [exact H |].
  apply (proj2 (proj2 (poller_serves_until_cancel [Tick; Tick] [] polled
                         unreachable))).
  intros [H' | [H' | []]]; discriminate H'.
Defined.

(** X14. A tick whose fetch returns an error, when it returns: it has logged
    the error and called [Reconnect] once (one resolution of the
    address), and has written the [LIST VAR] command once or twice, for
    the fetch and for at most one retry. *)
Theorem pollTick_reconnects_once (u : UPS) (s : State) :
  fetchFailed (GetVariables u s) = true ->
  safely (pollTick u) s (fun _ s' =>
    exists delta,
      trace s' = (trace s ++ delta)%list
      /\ count isResolve delta = 1%nat
      /\ (1 <= count (isWriteOf (listVar u)) delta <= 2)%nat).
Proof. exact (pollTick_recovery u s). Qed.

Lemma pollTick_reconnects_once_witness :
  safely (pollTick polled) recovered (fun _ s' =>
    exists delta,
      trace s' = (trace recovered ++ delta)%list
      /\ count isResolve delta = 1%nat
      /\ (1 <= count (isWriteOf (listVar polled)) delta <= 2)%nat).
Proof. apply (pollTick_reconnects_once polled recovered). reflexivity. Defined.

(** ** Strings: cutting at a separator, removing a byte *)

















(** ** The metadata of a device *)









(** ** Decimal text of an integer, and back *)

Lemma digitsValue_acc (d : Decimal.uint) (acc : positive) :
  strconv.digitsValue (Z.pos acc) (NilEmpty.string_of_uint d)
  = Some (Z.pos (Pos.of_uint_acc d acc)).
Proof.
  revert acc. induction d as [| d IH | d IH | d IH | d IH | d IH | d IH | d IH
                              | d IH | d IH | d IH]; intros acc;
    cbn [NilEmpty.string_of_uint Pos.of_uint_acc strconv.digitsValue];
    [reflexivity | ..];
    match goal with
    | |- context [strconv.isDigit ?c] => change (strconv.isDigit c) with true
    end;
    cbv iota; rewrite <- IH; f_equal; unfold byte; cbn; lia.
Qed.

Lemma digitsValue_uint (d : Decimal.uint) :
  strconv.digitsValue 0 (NilEmpty.string_of_uint d) = Some (Z.of_N (Pos.of_uint d)).
Proof.
  induction d as [| d IH | d IH | d IH | d IH | d IH | d IH | d IH
                  | d IH | d IH | d IH];
    cbn [NilEmpty.string_of_uint Pos.of_uint strconv.digitsValue];
    [reflexivity | exact IH | ..];
    match goal with
    | |- context [strconv.isDigit ?c] => change (strconv.isDigit c) with true
    end;
    cbv iota; cbn [Z.of_N]; rewrite <- digitsValue_acc; reflexivity.
Qed.


Lemma string_of_uint_pos (p : positive) :
  NilZero.string_of_uint (Pos.to_uint p) = NilEmpty.string_of_uint (Pos.to_uint p)
  /\ exists c t, NilEmpty.string_of_uint (Pos.to_uint p) = String c t
                 /\ strconv.isDigit c = true.
Proof.
  pose proof (DecimalPos.Unsigned.to_uint_nonnil p) as H.
  destruct (Pos.to_uint p); [contradiction | ..];
    (split; [reflexivity |]); eexists _, _; split; reflexivity.
Qed.

Lemma digitsValue_pos (p : positive) :
  strconv.digitsValue 0 (NilEmpty.string_of_uint (Pos.to_uint p)) = Some (Z.pos p).
Proof.
  rewrite digitsValue_uint, DecimalPos.Unsigned.of_to. reflexivity.
Qed.


(** [ParseInt] reads back what [FormatInt] writes. *)
Lemma ParseInt_FormatInt (i : Z) :
  Spec.inInt64 i = true -> strconv.ParseInt (strconv.FormatInt i) = Some i.
Proof.
  unfold Spec.inInt64. intros H. apply andb_true_iff in H as [Hlo Hhi].
  apply Z.leb_le in Hlo. apply Z.ltb_lt in Hhi.
  destruct i as [| p | p]; [reflexivity | |].
  - unfold strconv.FormatInt. cbn [Z.to_int NilZero.string_of_int].
    destruct (string_of_uint_pos p) as (-> & c & t & E & Hc).
    pose proof (digitsValue_pos p) as D. rewrite E in *.
    unfold strconv.ParseInt. cbn [strconv.splitSign].
    destruct (isDigit_not_sign c Hc) as (_ & -> & ->).
    unfold strconv.parseDigits. rewrite D.
    replace (Z.pos p <? 2 ^ 63) with true by (symmetry; apply Z.ltb_lt; lia).
    reflexivity.
  - unfold strconv.FormatInt. cbn [Z.to_int NilZero.string_of_int].
    destruct (string_of_uint_pos p) as (-> & c & t & E & Hc).
    pose proof (digitsValue_pos p) as D. rewrite E in *.
    unfold strconv.ParseInt. cbn [strconv.splitSign Ascii.eqb Bool.eqb].
    unfold strconv.parseDigits. rewrite D.
    replace (Z.pos p <=? 2 ^ 63) with true by (symmetry; apply Z.leb_le; lia).
    reflexivity.
Qed.

(** ** The identifiers a device reports *)

Lemma inferType_int (nv : Var) (s : string) :
  Spec.intPattern s = true ->
  inferType nv s
  = if Spec.inInt64 (Spec.literalValue s)
    then setValueType (VInt64 (Spec.literalValue s)) "INTEGER" nv
    else nv.
Proof.
  intros H. unfold inferType.
  destruct (pattern_not_keyword s) as [-> ->]; [rewrite H; reflexivity |].
  rewrite MatchString_patterns, H. cbn [orb].
  rewrite (intPattern_no_dot s H), (ParseInt_intPattern s H).
  destruct (Spec.inInt64 (Spec.literalValue s)); reflexivity.
Qed.

Lemma inferType_float (nv : Var) (s : string) :
  Spec.floatPattern s = true ->
  inferType nv s
  = match strconv.ParseFloat s with
    | Some f => setValueType (VFloat64 f) "FLOAT_64" nv
    | None => nv
    end.
Proof.
  intros H. unfold inferType.
  destruct (pattern_not_keyword s) as [-> ->]; [rewrite H; apply orb_true_r |].
  rewrite MatchString_patterns, H, orb_true_r.
  rewrite (floatPattern_dot s H). reflexivity.
Qed.

Lemma inferType_string (nv : Var) (s : string) :
  s <> "enabled" -> s <> "disabled" ->
  Spec.intPattern s = false -> Spec.floatPattern s = false ->
  inferType nv s = setType "STRING" nv.
Proof.
  intros H1 H2 Hi Hf. unfold inferType.
  destruct (String.eqb_spec s "enabled") as [-> | _]; [contradiction |].
  destruct (String.eqb_spec s "disabled") as [-> | _]; [contradiction |].
  rewrite MatchString_patterns, Hi, Hf. reflexivity.
Qed.

(** X17. The vendor identifier [NewUPS] stores, by the raw value the server
    sent for [ups.vendorid]. A value made of digits (within int64) has
    been inferred to be an integer and is stored as the decimal text of
    that integer, which reads back as the same number but is not the raw
    text when that has leading zeros; the product identifier likewise. A
    value that is no number and no keyword is stored as it came. A value
    that was inferred to be a boolean or a float is not stored: the
    identifier stays what it was. *)
Theorem vendorid_normalised (u : UPS) (ty s : string) (st : State) :
  (Spec.intPattern s = true -> Spec.inInt64 (Spec.literalValue s) = true ->
   extract u (inferType (rawVar "ups.vendorid" s ty) s) st
   = Done (setVendorID (strconv.FormatInt (Spec.literalValue s)) u)
          (logged "[DEBUG] %s: %s = %v" st)
   /\ extract u (inferType (rawVar "ups.productid" s ty) s) st
      = Done (setProductID (strconv.FormatInt (Spec.literalValue s)) u)
             (logged "[DEBUG] %s: %s = %v" st)
   /\ strconv.ParseInt (strconv.FormatInt (Spec.literalValue s))
      = Some (Spec.literalValue s))
  /\ (Spec.intPattern s = false -> Spec.floatPattern s = false ->
      s <> "enabled" -> s <> "disabled" ->
      extract u (inferType (rawVar "ups.vendorid" s ty) s) st
      = Done (setVendorID s u) (logged "[DEBUG] %s: %s = %v" st))
  /\ (s = "enabled" \/ s = "disabled"
      \/ (Spec.floatPattern s = true /\ strconv.ParseFloat s <> None) ->
      extract u (inferType (rawVar "ups.vendorid" s ty) s) st
      = Done u (logged "[DEBUG] %s: %s = %v" st)).
Proof.
  split; [| split].
  - intros Hi Hr. rewrite !(inferType_int _ s Hi), Hr.
    split; [reflexivity |]. split; [reflexivity |].
    apply ParseInt_FormatInt, Hr.
  - intros Hi Hf H1 H2. rewrite (inferType_string _ s H1 H2 Hi Hf). reflexivity.
  - intros [-> | [-> | [Hf Hp]]]; [reflexivity | reflexivity |].
    rewrite (inferType_float _ s Hf).
    destruct (strconv.ParseFloat s); [reflexivity | contradiction].
Qed.

Lemma vendorid_normalised_witness :
  extract polled (inferType (rawVar "ups.vendorid" "0764" "NUMBER") "0764")
          (session "")
  = Done (setVendorID "764" polled) (logged "[DEBUG] %s: %s = %v" (session ""))
  /\ extract polled (inferType (rawVar "ups.vendorid" "051d" "NUMBER") "051d")
             (session "")
     = Done (setVendorID "051d" polled) (logged "[DEBUG] %s: %s = %v" (session "")).
Proof.
  split.
  - apply (proj1 (vendorid_normalised polled "NUMBER" "0764" (session ""))
             eq_refl eq_refl).
  - apply (proj1 (proj2 (vendorid_normalised polled "NUMBER" "051d" (session "")))
             eq_refl eq_refl); discriminate.
Defined.

(** ** The type of a variable *)







(** ** The variables of a device *)















(** ** The instant commands of a device *)







(** ** The identifier as a path segment *)

Lemma sextet_urlSafe (x : Z) : urlSafe (base64.sextet x) = true.
Proof.
  unfold base64.sextet.
  assert (H : (Z.to_nat (x mod 64) < 64)%nat).
  { pose proof (Z.mod_pos_bound x 64 ltac:(lia)). lia. }
  revert H. generalize (Z.to_nat (x mod 64)). intros n H.
  do 64 (destruct n as [| n]; [reflexivity |]). lia.
Qed.

(** X22. The identifier of a device is made of letters, digits, [-] and [_]
    only: the route [GET /{id}] of the pages takes it as it is. *)
Theorem GenerateID_url_safe (u : UPS) :
  forallb urlSafe (list_ascii_of_string (GenerateID u)) = true.
Proof.
  rewrite GenerateID_hashed.
  pose proof (Sum_length (bytesOf (Spec.hashed u))) as H.
  destruct (md5.Sum (bytesOf (Spec.hashed u))) as [| b0 l]; [discriminate H |].
  do 5 (destruct l as [| ? l]; [discriminate H |]).
  cbn [base64.EncodeToString take_bytes list_ascii_of_string forallb].
  now rewrite !sextet_urlSafe.
Qed.

(** ** The pages *)

Lemma listDevice_eq (rows : list api.ups) (total : Z) (logs : list string)
    (u : UPS) :
  api.listDevice (rows, total, logs) u
  = if hasRuntime u
    then ((rows ++ [rowOf u])%list, wrap64 (total + api.rPower (rowOf u)), logs)
    else (rows, total, (logs ++ ["[ERROR] get runtime for %s: %v"])%list).
Proof.
  unfold api.listDevice, hasRuntime, rowOf, GetRuntime, GetStatus, GetBattery,
    GetLoad.
  destruct (getVariable u "battery.runtime") as [[? | ? | ? | ?] |]; reflexivity.
Qed.

Lemma listDevices_fold (upss : list UPS) (rows : list api.ups) (total : Z)
    (logs : list string) :
  exists logs',
    fold_left api.listDevice upss (rows, total, logs)
    = ((rows ++ map rowOf (List.filter hasRuntime upss))%list,
       fold_left (fun t r => wrap64 (t + api.rPower r))
                 (map rowOf (List.filter hasRuntime upss)) total,
       logs').
Proof.
  revert rows total logs. induction upss as [| u upss IH]; intros rows total logs.
  - exists logs. cbn. now rewrite app_nil_r.
  - cbn [fold_left List.filter]. rewrite listDevice_eq.
    destruct (hasRuntime u).
    + destruct (IH (rows ++ [rowOf u])%list
                  (wrap64 (total + api.rPower (rowOf u))) logs) as [logs' ->].
      exists logs'. cbn [map fold_left]. now rewrite <- app_assoc.
    + apply IH.
Qed.

Lemma listClients_fold (clients : list (option Client)) (rows : list api.ups)
    (total : Z) (logs : list string) :
  exists logs',
    fold_left api.listClient clients (rows, total, logs)
    = ((rows ++ map rowOf (List.filter hasRuntime (devices clients)))%list,
       fold_left (fun t r => wrap64 (t + api.rPower r))
                 (map rowOf (List.filter hasRuntime (devices clients))) total,
       logs').
Proof.
  revert rows total logs.
  induction clients as [| c clients IH]; intros rows total logs.
  - exists logs. cbn. now rewrite app_nil_r.
  - cbn [fold_left devices flat_map]. fold (devices clients).
    rewrite List.filter_app, map_app, fold_left_app.
    destruct c as [c |]; cbn [api.listClient].
    + destruct (UPSs c) as [upss | e].
      * destruct (listDevices_fold upss rows total logs) as [logs1 E].
        assert (E' : (if (length upss =? 0)%nat then (rows, total, logs)
                      else fold_left api.listDevice upss (rows, total, logs))
                     = ((rows ++ map rowOf (List.filter hasRuntime upss))%list,
                        fold_left (fun t r => wrap64 (t + api.rPower r))
                                  (map rowOf (List.filter hasRuntime upss)) total,
                        if (length upss =? 0)%nat then logs else logs1)).
        { destruct upss as [| u0 upss]; [cbn; now rewrite app_nil_r | exact E]. }
        rewrite E'.
        destruct (IH (rows ++ map rowOf (List.filter hasRuntime upss))%list
                    (fold_left (fun t r => wrap64 (t + api.rPower r))
                               (map rowOf (List.filter hasRuntime upss)) total)
                    (if (length upss =? 0)%nat then logs else logs1))
          as [logs' ->].
        exists logs'. now rewrite <- app_assoc.
      * cbn [List.filter map app fold_left].
        destruct (IH rows total (logs ++ ["[ERROR] get UPSs for %s: %v"])%list)
          as [logs' ->].
        now exists logs'.
    + cbn [List.filter map app fold_left]. apply IH.
Qed.

Lemma sumZ_nonneg (l : list Z) : Forall (fun p => 0 <= p) l -> 0 <= sumZ l.
Proof.
  induction 1 as [| x l Hx Hl IH]; [cbn; lia |].
  change (sumZ (x :: l)) with (x + sumZ l). lia.
Qed.

Lemma sum_in_range (l : list Z) (acc : Z) :
  Forall (fun p => 0 <= p) l -> 0 <= acc -> acc + sumZ l < 2 ^ 63 ->
  fold_left (fun t p => wrap64 (t + p)) l acc = acc + sumZ l.
Proof.
  revert acc. induction l as [| p l IH]; intros acc Hl Hacc Hs.
  - cbn. lia.
  - inversion Hl as [| ? ? Hp Hl']; subst.
    change (sumZ (p :: l)) with (p + sumZ l) in *.
    pose proof (sumZ_nonneg l Hl') as Hnn.
    cbn [fold_left]. rewrite wrap64_id.
    + rewrite IH; [lia | exact Hl' | lia | lia].
    + unfold Spec.inInt64. apply andb_true_iff. split.
      * apply Z.leb_le. lia.
      * apply Z.ltb_lt. lia.
Qed.

Lemma fold_power_map (rows : list api.ups) (acc : Z) :
  fold_left (fun t r => wrap64 (t + api.rPower r)) rows acc
  = fold_left (fun t p => wrap64 (t + p)) (map api.rPower rows) acc.
Proof.
  revert acc. induction rows as [| r rows IH]; intros acc; [reflexivity |].
  cbn [fold_left map]. apply IH.
Qed.

(** X23. The list page. Its rows are the devices of the clients, in order,
    that report an integer [battery.runtime]: a device without one is
    logged and left out. The total it shows is the sum of the power
    column, in int64 arithmetic: the sum itself as long as the powers
    are not negative and the sum is below 2^63. *)
Theorem list_rows_and_total (clients : list (option Client)) :
  api.lList (fst (api.list clients))
  = map rowOf (List.filter hasRuntime (devices clients))
  /\ api.lTotalLoad (fst (api.list clients))
     = fold_left (fun t p => wrap64 (t + p))
                 (map api.rPower (api.lList (fst (api.list clients)))) 0
  /\ (Forall (fun p => 0 <= p) (map api.rPower (api.lList (fst (api.list clients)))) ->
      sumZ (map api.rPower (api.lList (fst (api.list clients)))) < 2 ^ 63 ->
      api.lTotalLoad (fst (api.list clients))
      = sumZ (map api.rPower (api.lList (fst (api.list clients))))).
Proof.
  unfold api.list.
  destruct (listClients_fold clients [] 0 []) as [logs' ->].
  cbn [app fst api.lList api.lTotalLoad].
  split; [reflexivity |]. split; [apply fold_power_map |].
  intros Hp Hs. rewrite fold_power_map.
  rewrite (sum_in_range _ 0 Hp); lia.
Qed.

Lemma list_rows_and_total_witness :
  api.lList (fst (api.list someClients))
  = [api.mkRow "k3Xa9Q" "ups2" "Online, charging" "OL CHRG" 97 50 400 "30m0s"]
  /\ api.lTotalLoad (fst (api.list someClients)) = 400.
Proof.
  destruct (list_rows_and_total someClients) as (H1 & _ & H3).
  assert (E : api.lList (fst (api.list someClients))
              = [api.mkRow "k3Xa9Q" "ups2" "Online, charging" "OL CHRG" 97 50 400
                           "30m0s"])
    by (rewrite H1; vm_compute; reflexivity).
  split; [exact E |].
  rewrite H3.
  - rewrite E. reflexivity.
  - rewrite E. constructor; [cbn; lia | constructor].
  - rewrite E. reflexivity.
Defined.

Lemma overall_health (ol ob : bool) (r : api.ups) :
  api.overall (health ol ob) r = health (ol || online r) (ob || onBattery r).
Proof.
  unfold api.overall, onBattery, online.
  destruct (strings.Contains (api.rOriginalStatus r) "OL");
    destruct (strings.Contains (api.rOriginalStatus r) "OB");
    destruct ol, ob; reflexivity.
Qed.

Lemma fold_overall (rows : list api.ups) (ol ob : bool) :
  fold_left api.overall rows (health ol ob)
  = health (ol || existsb online rows) (ob || existsb onBattery rows).
Proof.
  revert ol ob. induction rows as [| r rows IH]; intros ol ob.
  - cbn. now rewrite !orb_false_r.
  - cbn [fold_left existsb]. rewrite overall_health, IH.
    now rewrite !orb_assoc.
Qed.

(** X24. The status of the whole on the list page, by the rows: [up] when
    some row holds [OL] in its raw status and no row holds [OB] without
    [OL]; [down] when it is the other way round; [degraded] when both
    kinds of rows are there; [unknown] when neither is, as when there is
    no row. The order of the rows does not matter. *)
Theorem list_status (clients : list (option Client)) :
  api.lStatus (fst (api.list clients))
  = health (existsb online (api.lList (fst (api.list clients))))
           (existsb onBattery (api.lList (fst (api.list clients)))).
Proof.
  unfold api.list.
  destruct (fold_left api.listClient clients ([], 0, [])) as [[rows total] logs].
  cbn [fst api.lStatus api.lList].
  change "unknown" with (health false false).
  now rewrite fold_overall.
Qed.

Lemma findUPS_first (before after : list (option Client)) (c : Client)
    (id : string) (u : UPS) :
  Forall (lacksDevice id) before ->
  list_ c !! id = Some u ->
  api.findUPS (before ++ Some c :: after) id = api.Page u.
Proof.
  intros Hb Hc. induction Hb as [| c' before (c0 & -> & H0) Hb IH].
  - cbn [app api.findUPS]. unfold UPS_. now rewrite Hc.
  - cbn [app api.findUPS]. unfold UPS_. now rewrite H0.
Qed.

Lemma findUPS_none (clients : list (option Client)) (id : string) :
  Forall (lacksDevice id) clients -> api.findUPS clients id = api.NotFound.
Proof.
  induction 1 as [| c' clients (c0 & -> & H0) Hb IH]; [reflexivity |].
  cbn [api.findUPS]. unfold UPS_. now rewrite H0.
Qed.

(** X25. The details page. It shows the device that the first client holding
    the identifier has registered under it, whatever the clients after
    it hold, and answers not found when no client holds the identifier.
    The page of a device that reports no integer [battery.runtime] shows
    the runtime [0s], where the list page leaves such a device out; a
    device counts as on line when the letters [OL] occur in its raw
    status. *)
Theorem details_page (id : string) :
  (forall (before after : list (option Client)) (c : Client) (u : UPS),
      Forall (lacksDevice id) before ->
      list_ c !! id = Some u ->
      exists d,
        api.details (before ++ Some c :: after) id = api.Page d
        /\ api.dID d = ID u /\ api.dName d = Name u
        /\ api.dVariables d = Variables u
        /\ api.dOnline d = strings.Contains (snd (fst (GetStatus u))) "OL"
        /\ api.sRuntime (api.dStatus d)
           = if hasRuntime u then api.rRuntime (rowOf u) else "0s")
  /\ (forall clients : list (option Client),
        Forall (lacksDevice id) clients ->
        api.details clients id = api.NotFound).
Proof.
  split.
  - intros before after c u Hb Hc.
    unfold api.details. rewrite (findUPS_first before after c id u Hb Hc).
    unfold hasRuntime, rowOf. unfold GetStatus, GetBattery, GetLoad, GetRuntime.
    destruct (getVariable u "battery.runtime") as [[? | ? | ? | ?] |];
      eexists; (split; [reflexivity |]); repeat split; reflexivity.
  - intros clients H. unfold api.details. now rewrite (findUPS_none clients id H).
Qed.

Lemma details_page_witness :
  exists d,
    api.details ([Some (holding metered)] ++ Some (holding noRuntime) :: [None])
                "iygwnV"
    = api.Page d
    /\ api.dName d = "ups1"
    /\ api.dOnline d = false
    /\ api.sRuntime (api.dStatus d) = "0s".
Proof.
  assert (Hb : Forall (lacksDevice "iygwnV") [Some (holding metered)]).
  { constructor; [| constructor]. exists (holding metered).
    split; [reflexivity |]. vm_compute. reflexivity. }
  assert (Hc : list_ (holding noRuntime) !! "iygwnV" = Some noRuntime)
    by (vm_compute; reflexivity).
  destruct (proj1 (details_page "iygwnV") [Some (holding metered)] [None]
              (holding noRuntime) noRuntime Hb Hc)
    as (d & H & _ & Hn & _ & Ho & Hr).
  exists d. split; [exact H |]. split; [exact Hn |]. split; [exact Ho | exact Hr].
Defined.

(** ** The runtime on the pages *)

Lemma fmtFrac_whole (prec : nat) (v : Z) (w : string) :
  time.fmtFrac prec (v * 10 ^ Z.of_nat prec) false w = (w, v).
Proof.
  revert v. induction prec as [| prec IH]; intros v.
  - cbn [time.fmtFrac]. f_equal. cbn. lia.
  - cbn [time.fmtFrac].
    rewrite Nat2Z.inj_succ, Z.pow_succ_r by lia.
    replace (v * (10 * 10 ^ Z.of_nat prec)) with ((v * 10 ^ Z.of_nat prec) * 10)
      by lia.
    rewrite Z.mod_mul, Z.div_mul by lia.
    cbn [Z.eqb negb orb]. apply IH.
Qed.

(** X26. The runtime of a device on the pages. A runtime of [r] seconds,
    from 1 to 9223372036 (beyond which the product with the nanoseconds
    of a second leaves int64), is shown as seconds below a minute, as
    minutes and seconds below an hour, and as hours, minutes and seconds
    from an hour on, the minutes and seconds written also when they are
    zero; the runtime 0 is shown as [0s]. *)
Theorem runtime_format (r : Z) :
  0 < r -> r * time.Second < 2 ^ 63 ->
  time.String (mul64 r time.Second) = hms r.
Proof.
  intros Hpos Hr. unfold time.Second in *.
  unfold mul64. rewrite wrap64_id.
  2:{ unfold Spec.inInt64. apply andb_true_iff. split;
        [apply Z.leb_le | apply Z.ltb_lt]; lia. }
  unfold time.String.
  rewrite Z.abs_eq by lia.
  replace (r * 1000000000 <? 0) with false by (symmetry; apply Z.ltb_ge; lia).
  replace (r * 1000000000 <? time.Second) with false
    by (symmetry; apply Z.ltb_ge; unfold time.Second; lia).
  change 1000000000 with (10 ^ Z.of_nat 9).
  rewrite fmtFrac_whole. unfold time.fmtInt, hms.
  destruct (r <? 60) eqn:E1.
  - apply Z.ltb_lt in E1.
    rewrite (Z.div_small r 60), (Z.mod_small r 60) by lia. reflexivity.
  - apply Z.ltb_ge in E1.
    assert (0 < r / 60) by (apply Z.div_str_pos; lia).
    replace (0 <? r / 60) with true by (symmetry; apply Z.ltb_lt; lia).
    destruct (r <? 3600) eqn:E2.
    + apply Z.ltb_lt in E2.
      assert (r / 60 < 60) by (apply Z.div_lt_upper_bound; lia).
      rewrite (Z.div_small (r / 60)), (Z.mod_small (r / 60)) by lia.
      reflexivity.
    + apply Z.ltb_ge in E2.
      rewrite Z.div_div by lia. change (60 * 60) with 3600.
      assert (0 < r / 3600) by (apply Z.div_str_pos; lia).
      replace (0 <? r / 3600) with true by (symmetry; apply Z.ltb_lt; lia).
      reflexivity.
Qed.

Lemma runtime_format_witness :
  time.String (mul64 1800 time.Second) = "30m0s"
  /\ time.String (mul64 45 time.Second) = "45s"
  /\ time.String (mul64 7265 time.Second) = "2h1m5s".
Proof.
  split; [| split].
  - apply (runtime_format 1800); reflexivity.
  - apply (runtime_format 45); reflexivity.
  - apply (runtime_format 7265); reflexivity.
Defined.

(** ** Where the bootstrap and the fetches panic *)

Lemma extract_outcome (u : UPS) (v : Var) (s : State) :
  if notAString v
  then extract u v s = Crash "interface conversion: interface {} is not string"
  else exists u', extract u v s = Done u' (logged "[DEBUG] %s: %s = %v" s)
                  /\ kept u u'.
Proof.
  unfold notAString, extract, bind, emit, ret, panic, logged.
  destruct (String.eqb_spec (vName v) "ups.mfr") as [E | N].
  - rewrite E. cbn [String.eqb Ascii.eqb Bool.eqb orb andb].
    destruct (vValue v); cbn [isString negb]; try reflexivity.
    eexists. split; [reflexivity | repeat split].
  - cbn [orb].
    destruct (String.eqb (vName v) "ups.model").
    + destruct (vValue v); cbn [isString negb andb]; try reflexivity.
      destruct (String.eqb (vName v) "ups.vendorid");
        destruct (String.eqb (vName v) "ups.productid");
        eexists; (split; [reflexivity | repeat split]).
    + cbn [andb].
      destruct (String.eqb (vName v) "ups.vendorid");
        destruct (String.eqb (vName v) "ups.productid");
        destruct (vValue v);
        eexists; (split; [reflexivity | repeat split]).
Qed.

Lemma kept_refl (u : UPS) : kept u u.
Proof. repeat split. Qed.

Lemma kept_trans (u1 u2 u3 : UPS) : kept u1 u2 -> kept u2 u3 -> kept u1 u3.
Proof.
  unfold kept. intros (S1 & ? & ? & ? & ?) (S2 & ? & ? & ? & ?).
  split; [eapply same_trans; eassumption |]. repeat split; congruence.
Qed.

(** The loop of [NewUPS] over the variables, when no assertion fails. *)
Lemma extractAll_returns (vars : list Var) (u : UPS) (s : State) :
  existsb notAString vars = false ->
  exists u' s',
    extractAll u vars s = Done u' s'
    /\ kept u u'
    /\ client s' = client s
    /\ trace s'
       = (trace s ++ repeat (EvLog "[DEBUG] %s: %s = %v") (length vars))%list.
Proof.
  revert u s. induction vars as [| v vars IH]; intros u s.
  - intros _. exists u, s. split; [reflexivity |]. split; [apply kept_refl |].
    split; [reflexivity |]. cbn. now rewrite app_nil_r.
  - cbn [existsb extractAll length repeat]. unfold bind.
    pose proof (extract_outcome u v s) as E.
    destruct (notAString v); [discriminate |].
    destruct E as (u1 & -> & S1). cbn [orb]. intros H.
    destruct (IH u1 (logged "[DEBUG] %s: %s = %v" s) H)
      as (u' & s' & -> & S2 & C & T).
    exists u', s'. split; [reflexivity |].
    split; [eapply kept_trans; eassumption |]. split; [exact C |].
    rewrite T. unfold logged. cbn [trace]. now rewrite <- app_assoc.
Qed.

Lemma extractAll_panics (vars : list Var) (u : UPS) (s : State) :
  existsb notAString vars = true ->
  extractAll u vars s = Crash "interface conversion: interface {} is not string".
Proof.
  revert u s. induction vars as [| v vars IH]; intros u s; [discriminate |].
  cbn [existsb extractAll]. unfold bind.
  pose proof (extract_outcome u v s) as E.
  destruct (notAString v); [now rewrite E |].
  destruct E as (u1 & -> & _). cbn [orb]. apply IH.
Qed.

(** X27. The loop of [NewUPS] over the fetched variables panics exactly when
    some variable named [ups.mfr] or [ups.model] has a value that is no
    string (as the value of a raw text made of digits, or of the words
    enabled and disabled, is); otherwise it returns, having logged one
    line for each variable and left the name, the server and the poll
    interval of the device as they were. *)
Theorem extractAll_panics_iff (vars : list Var) (u : UPS) (s : State) :
  (existsb notAString vars = true ->
   extractAll u vars s = Crash "interface conversion: interface {} is not string")
  /\ (existsb notAString vars = false ->
      exists u' s',
        extractAll u vars s = Done u' s'
        /\ same u u'
        /\ trace s'
           = (trace s ++ repeat (EvLog "[DEBUG] %s: %s = %v") (length vars))%list).
Proof.
  split; [apply extractAll_panics |].
  intros H. destruct (extractAll_returns vars u s H) as (u' & s' & E & K & _ & T).
  exists u', s'. split; [exact E |]. split; [apply K | exact T].
Qed.

Lemma extractAll_panics_iff_witness :
  extractAll polled
    [ inferType (rawVar "ups.mfr" "APC" "STRING") "APC";
      inferType (rawVar "ups.model" "1500" "STRING") "1500" ]
    (session "")
  = Crash "interface conversion: interface {} is not string".
Proof.
  apply (proj1 (extractAll_panics_iff
                  [ inferType (rawVar "ups.mfr" "APC" "STRING") "APC";
                    inferType (rawVar "ups.model" "1500" "STRING") "1500" ]
                  polled (session ""))).
  reflexivity.
Defined.

Lemma sendCommand_bare_end (X : string) (s : State) (k : Conn) (rest : string) :
  conn (client s) = Some k -> closed k = false -> (0 < wr k)%nat ->
  rd k = ("END LIST " ++ X) ++ NL ++ rest ->
  Spec.isLine X = true ->
  sendCommand ("LIST " ++ X) s
  = Done (Ok ["END LIST " ++ X]) (exchanged ("LIST " ++ X) rest k s).
Proof.
  intros Ek Hc Hw Hr HX.
  rewrite (sendCommand_unfold _ s k Ek Hc Hw), Hr.
  change (endLineOf ("LIST " ++ X)) with (("END LIST " ++ X) ++ NL).
  rewrite (append_assoc' "LIST " X NL), HasPrefix_app.
  rewrite (readLoop_step _ _ true [] ("END LIST " ++ X) rest).
  2:{ rewrite isLine_app, HX. reflexivity. }
  rewrite String.eqb_refl. reflexivity.
Qed.

(** X28. A reply to a [LIST] command that begins with its end line (the
    opening line is missing) comes back from [sendCommand] as a response
    of one line, and the slice [resp[1 : len(resp)-1]] that each of the
    three fetches takes of it panics: [GetClients], [GetCommands] and
    [GetVariables] have no guard for a response shorter than two
    lines. *)
Theorem fetches_panic_on_bare_end (u : UPS) (s : State) (rest : string) :
  writable s = true ->
  Spec.isLine (Name u) = true ->
  (unread s = Some (("END LIST CLIENT " ++ Name u) ++ NL ++ rest) ->
   GetClients u s = Crash "slice bounds out of range")
  /\ (unread s = Some (("END LIST CMD " ++ Name u) ++ NL ++ rest) ->
      GetCommands u s = Crash "slice bounds out of range")
  /\ (unread s = Some (("END LIST VAR " ++ Name u) ++ NL ++ rest) ->
      GetVariables u s = Crash "slice bounds out of range").
Proof.
  intros W Hn.
  destruct (writable_conn s W) as (k & Ek & Hc & Hw).
  split; [| split]; intros Hu; pose proof (unread_conn s k _ Ek Hu) as Hr.
  - unfold GetClients, bind.
    change ("LIST CLIENT " ++ Name u) with ("LIST " ++ "CLIENT " ++ Name u).
    rewrite (sendCommand_bare_end ("CLIENT " ++ Name u) s k rest Ek Hc Hw Hr);
      [reflexivity | rewrite isLine_app, Hn; reflexivity].
  - unfold GetCommands, bind.
    change ("LIST CMD " ++ Name u) with ("LIST " ++ "CMD " ++ Name u).
    rewrite (sendCommand_bare_end ("CMD " ++ Name u) s k rest Ek Hc Hw Hr);
      [reflexivity | rewrite isLine_app, Hn; reflexivity].
  - unfold GetVariables, bind.
    change ("LIST VAR " ++ Name u) with ("LIST " ++ "VAR " ++ Name u).
    rewrite (sendCommand_bare_end ("VAR " ++ Name u) s k rest Ek Hc Hw Hr);
      [reflexivity | rewrite isLine_app, Hn; reflexivity].
Qed.

Lemma fetches_panic_on_bare_end_witness :
  GetVariables polled (session (Spec.wire ["END LIST VAR ups1"]))
  = Crash "slice bounds out of range".
Proof.
  apply (proj2 (proj2 (fetches_panic_on_bare_end polled
                         (session (Spec.wire ["END LIST VAR ups1"])) ""
                         eq_refl eq_refl))).
  reflexivity.
Defined.

(** ** The bootstrap of a device *)



(** ** Discovery: the first device of an identifier *)

(** X30. The registry after a discovery pass that returns. When the
    [LIST UPS] command fails the registry is what it was and the error
    is returned. Else nil is returned, whatever happened to the single
    devices: a device whose bootstrap returned an error is logged and
    passed over, and the devices that were made are registered in the
    order of the reply, so that an identifier keeps the device it had,
    and a new identifier gets the first device of the pass that has
    it. *)
Theorem getListOfUPS_first_wins (s : State) :
  safely getListOfUPS s (fun e s' =>
    match e with
    | Some _ => list_ (client s') = list_ (client s)
    | None =>
      exists resp s1 us,
        sendCommand "LIST UPS" s = Done (Ok resp) s1
        /\ bootstrapped resp s1 = Done us s'
        /\ forall id,
             list_ (client s') !! id
             = match list_ (client s) !! id with
               | Some v => Some v
               | None => List.find (fun u => String.eqb (ID u) id) us
               end
    end).
Proof.
  eapply safely_weaken; [apply getListOfUPS_registry |]. cbv beta.
  intros [e |] s' H; [exact H |].
  destruct H as (resp & s1 & us & H1 & H2 & H3).
  exists resp, s1, us. split; [exact H1 |]. split; [exact H2 |].
  intros id. rewrite H3. apply firstWins_lookup.
Qed.
